(** * Image receiver server: upload ingestion and FTP forwarding

    A shallow embedding of the upload pipeline of the Bun server
    (uploadImage, uploadImageToFtp, uploadFile, validateFileSize,
    FTPConnectionPool and uploadToFtp), followed by the properties the
    specification states about it.

    Conventions of the embedding.
    - A JavaScript string is a [string]; its characters are the code units
      below 256 (header values and base64 text live there).
    - A JavaScript number that counts bytes, megabytes or connections is a
      [Z]; the configured MAX_FILE_SIZE_MB is an integer number of megabytes.
    - An optional property is an [option]; the truthiness tests of the
      source ([a || b], [if (x)], [!x]) are written out in [Js].
    - The functions of the runtime that the source calls but does not define
      (path.join, Buffer.from(_, "base64"), crypto) are the fields of the
      class [Runtime]; everything is proved for every runtime.
    - Awaited I/O is explicit state passing in the monad [M]: a call either
      returns, throws (a message), or stays pending. *)

From Stdlib Require Import ZArith String Ascii Strings.Byte List Bool Lia.
From stdpp Require Import base option list gmap strings pretty.

Open Scope string_scope.
Open Scope Z_scope.

(** ** JavaScript truthiness *)

Module Js.

(** [!!s] for an optional string: undefined, null and the empty string are falsy. *)
Definition truthy_string (o : option string) : bool :=
  match o with
  | Some s => negb (String.eqb s "")
  | None => false
  end.

(** [!!n] for an optional number: undefined and 0 are falsy. *)
Definition truthy_number (o : option Z) : bool :=
  match o with
  | Some n => negb (n =? 0)
  | None => false
  end.

(** [!!b] for an optional boolean. *)
Definition truthy_bool (o : option bool) : bool :=
  match o with
  | Some b => b
  | None => false
  end.

(** [o || d] on strings. *)
Definition or_string (o : option string) (d : string) : string :=
  match o with
  | Some s => if String.eqb s "" then d else s
  | None => d
  end.

(** [o || d] on numbers. *)
Definition or_number (o : option Z) (d : Z) : Z :=
  match o with
  | Some n => if n =? 0 then d else n
  | None => d
  end.

(** [s.endsWith(String c "")] *)
Fixpoint endsWith (s : string) (c : ascii) : bool :=
  match s with
  | "" => false
  | String a "" => Ascii.eqb a c
  | String _ s' => endsWith s' c
  end.

End Js.

(** ** The regular expression of the data URL

    Only the fragment of the regular-expression language that the source
    uses is embedded: an anchored sequence of literals and of captured
    greedy groups [([class]+)], matched with backtracking. *)

Module RegExp.

Fixpoint string_take (n : nat) (s : string) : string :=
  match n, s with
  | S n', String c s' => String c (string_take n' s')
  | _, _ => ""
  end.

Fixpoint string_drop (n : nat) (s : string) : string :=
  match n, s with
  | S n', String _ s' => string_drop n' s'
  | _, _ => s
  end.

Fixpoint strip_prefix (p s : string) : option string :=
  match p, s with
  | "", _ => Some s
  | String a p', String b s' => if Ascii.eqb a b then strip_prefix p' s' else None
  | String _ _, "" => None
  end.

(** Length of the longest prefix of [s] whose characters are all in [cls]. *)
Fixpoint run_length (cls : ascii → bool) (s : string) : nat :=
  match s with
  | String c s' => if cls c then S (run_length cls s') else O
  | "" => O
  end.

Fixpoint string_forallb (cls : ascii → bool) (s : string) : bool :=
  match s with
  | String c s' => cls c && string_forallb cls s'
  | "" => true
  end.

Inductive Item :=
| Lit (l : string)               (* literal characters *)
| Group (cls : ascii → bool).    (* ([cls]+): one or more, greedy, captured *)

(** A greedy group followed by the rest [k] of the pattern: the longest
    run first, then one character less, down to one character. *)
Fixpoint backtrack (k : string → option (list string)) (s : string) (n : nat)
    : option (list string) :=
  match n with
  | O => None
  | S n' =>
      match k (string_drop n s) with
      | Some caps => Some (string_take n s :: caps)
      | None => backtrack k s n'
      end
  end.

(** [exec its s]: match all of [s] against [^ its $]; the captures, in order. *)
Fixpoint exec (its : list Item) (s : string) : option (list string) :=
  match its with
  | [] => if String.eqb s "" then Some [] else None
  | Lit l :: its' =>
      match strip_prefix l s with
      | Some r => exec its' r
      | None => None
      end
  | Group cls :: its' => backtrack (exec its') s (run_length cls s)
  end.

(** [s.match(re)] for an anchored [re] without the g flag: null, or the
    array of the whole match followed by the captures. *)
Definition match_ (its : list Item) (s : string) : option (list string) :=
  match exec its s with
  | Some caps => Some (s :: caps)
  | None => None
  end.

Definition in_range (lo hi c : ascii) : bool :=
  (N_of_ascii lo <=? N_of_ascii c)%N && (N_of_ascii c <=? N_of_ascii hi)%N.

(** [[A-Za-z-+\/]] *)
Definition subtype_char (c : ascii) : bool :=
  in_range "A" "Z" c || in_range "a" "z" c
  || Ascii.eqb c "-" || Ascii.eqb c "+" || Ascii.eqb c "/".

(** [.]: any character but a line terminator. *)
Definition dot (c : ascii) : bool :=
  negb (Ascii.eqb c "010" || Ascii.eqb c "013").

(** [/^data:image\/([A-Za-z-+\/]+);base64,(.+)$/] *)
Definition DATA_URL : list Item :=
  [Lit "data:image/"; Group subtype_char; Lit ";base64,"; Group dot].

End RegExp.

(** ** Constants - Magic Numbers *)

Definition MAX_FILE_SIZE_MB : Z := 50.
Definition MAX_FILE_SIZE_BYTES : Z := MAX_FILE_SIZE_MB * 1024 * 1024.
Definition FTP_POOL_SIZE : Z := 5.
Definition FTP_CONNECTION_TIMEOUT : Z := 30000.
Definition POLL_INTERVAL : Z := 100.
Definition HTTP_STATUS_OK : Z := 200.
Definition HTTP_STATUS_BAD_REQUEST : Z := 400.
Definition HTTP_STATUS_SERVER_ERROR : Z := 500.
Definition CLIENT_ID_HASH_LENGTH : nat := 12.

(** ** Configuration interface *)

Module Config.
Record t := mk {
  MAX_FILE_SIZE_MB : option Z;
  FTP_HOST : option string;
  FTP_PORT : option Z;
  FTP_USERNAME : option string;
  FTP_PASSWORD : option string;
  FTP_REMOTE_PATH : option string;
  FTP_SECURE : option bool;
  FTP_DIRECTORY : option string
}.
End Config.

(** ** File size validation helper *)

Record SizeValidation := {
  valid : bool;
  validation_message : option string
}.

Definition maxSize (configs : Config.t) : Z :=
  Js.or_number (Config.MAX_FILE_SIZE_MB configs) MAX_FILE_SIZE_MB * 1024 * 1024.

Definition validateFileSize (configs : Config.t) (sizeInBytes : Z) : SizeValidation :=
  if maxSize configs <? sizeInBytes then
    {| valid := false;
       validation_message :=
         Some ("File size exceeds maximum allowed size of "
               +:+ pretty (Js.or_number (Config.MAX_FILE_SIZE_MB configs) MAX_FILE_SIZE_MB)
               +:+ "MB") |}
  else {| valid := true; validation_message := None |}.

(** ** FTP Connection Pool *)

Module Pool.

(** The fields of [FTPConnectionPool]; a client handle is named by the
    caller it was made for. *)
Record t := mk {
  pool : list nat;
  activeConnections : Z
}.

Definition empty : t := {| pool := []; activeConnections := 0 |}.

(** The test-and-increment that both branches of [getConnection] run:
    [if (this.activeConnections < FTP_POOL_SIZE) { new this.ftp(); this.activeConnections++ }]. *)
Definition acquire (p : t) : option t :=
  if activeConnections p <? FTP_POOL_SIZE
  then Some {| pool := pool p; activeConnections := activeConnections p + 1 |}
  else None.

Definition releaseConnection (p : t) : t :=
  {| pool := pool p; activeConnections := activeConnections p - 1 |}.

Definition closeAll (p : t) : t :=
  {| pool := []; activeConnections := 0 |}.

(** The pool on the event loop, shared by concurrent callers.
    [polling] holds the callers whose [setInterval] is registered, with
    its period; [lent] the callers that hold a handle they have not
    released. *)
Record Loop := {
  ftpPool : t;
  polling : list (nat * Z);
  lent : list nat
}.


Inductive Event :=
| GetConnection (c : nat)        (* caller c calls ftpPool.getConnection() *)
| Tick (c : nat)                 (* the interval callback of caller c runs *)
| ReleaseConnection (c : nat)    (* ftpPool.releaseConnection(client of c) *)
| CloseAll.                      (* ftpPool.closeAll() *)

Definition is_polling (l : Loop) (c : nat) : bool :=
  existsb (λ w, Nat.eqb (fst w) c) (polling l).


Definition step (l : Loop) (e : Event) : Loop :=
  match e with
  | GetConnection c =>
      match acquire (ftpPool l) with
      | Some p => {| ftpPool := p; polling := polling l; lent := c :: lent l |}
      | None => {| ftpPool := ftpPool l;
                   polling := polling l ++ [(c, POLL_INTERVAL)];
                   lent := lent l |}
      end
  | Tick c =>
      if is_polling l c then
        match acquire (ftpPool l) with
        | Some p => {| ftpPool := p;
                       polling := List.filter (λ w, negb (Nat.eqb (fst w) c)) (polling l);
                       lent := c :: lent l |}
        | None => l
        end
      else l
  | ReleaseConnection c =>
      {| ftpPool := releaseConnection (ftpPool l);
         polling := polling l;
         lent := List.filter (λ h, negb (Nat.eqb h c)) (lent l) |}
  | CloseAll =>
      {| ftpPool := closeAll (ftpPool l); polling := polling l; lent := lent l |}
  end.

Definition run (es : list Event) (l : Loop) : Loop := fold_left step es l.







End Pool.

(** ** Shared FTP upload function with connection pooling *)

Module ForwardResult.
Record t := mk {
  success : bool;
  message : string;
  url : option string
}.
End ForwardResult.

(** What the FTP client does after [connect]: the events it raises, in the
    order the event loop delivers them. [Timeout] is the callback of the
    [setTimeout] of [uploadToFtp]. *)
Inductive ClientEvent :=
| Timeout
| Ready
| PutDone (err : option string)
| Error (err : string).

Record FtpSession := {
  connect_throws : option string;   (* a synchronous throw inside the try block *)
  script : list ClientEvent
}.

Module Forwarder.

(** The state that the promise executor of [uploadToFtp] and its
    callbacks share. *)
Record t := mk {
  ftpPool : Pool.t;
  error_log : list string;
  timeoutHandle : bool;     (* the timer is set and has neither fired nor been cleared *)
  listening : bool;         (* the 'ready' and 'error' listeners are registered *)
  put_calls : list (list byte * string);   (* client.put(buffer, remoteFilePath, _) *)
  pending_puts : nat;       (* put callbacks not yet called *)
  destroyed : bool;         (* client.destroy() was called *)
  settled : option ForwardResult.t;   (* the promise; the first resolve wins *)
  resolutions : nat         (* number of resolve(...) calls executed *)
}.

Definition init (p : Pool.t) (log : list string) : t :=
  {| ftpPool := p; error_log := log; timeoutHandle := false; listening := false;
     put_calls := []; pending_puts := 0; destroyed := false;
     settled := None; resolutions := 0 |}.

Definition resolve (r : ForwardResult.t) (f : t) : t :=
  {| ftpPool := ftpPool f; error_log := error_log f; timeoutHandle := timeoutHandle f;
     listening := listening f; put_calls := put_calls f; pending_puts := pending_puts f;
     destroyed := destroyed f;
     settled := match settled f with Some r0 => Some r0 | None => Some r end;
     resolutions := S (resolutions f) |}.

Definition releaseConnection (f : t) : t :=
  {| ftpPool := Pool.releaseConnection (ftpPool f); error_log := error_log f;
     timeoutHandle := timeoutHandle f; listening := listening f;
     put_calls := put_calls f; pending_puts := pending_puts f;
     destroyed := destroyed f; settled := settled f; resolutions := resolutions f |}.

Definition setTimeout (f : t) : t :=
  {| ftpPool := ftpPool f; error_log := error_log f; timeoutHandle := true;
     listening := listening f; put_calls := put_calls f; pending_puts := pending_puts f;
     destroyed := destroyed f; settled := settled f; resolutions := resolutions f |}.

Definition clearTimeout (f : t) : t :=
  {| ftpPool := ftpPool f; error_log := error_log f; timeoutHandle := false;
     listening := listening f; put_calls := put_calls f; pending_puts := pending_puts f;
     destroyed := destroyed f; settled := settled f; resolutions := resolutions f |}.

Definition logErrorToFile (e : string) (f : t) : t :=
  {| ftpPool := ftpPool f; error_log := error_log f ++ [e];
     timeoutHandle := timeoutHandle f; listening := listening f;
     put_calls := put_calls f; pending_puts := pending_puts f;
     destroyed := destroyed f; settled := settled f; resolutions := resolutions f |}.

Definition listen (f : t) : t :=
  {| ftpPool := ftpPool f; error_log := error_log f; timeoutHandle := timeoutHandle f;
     listening := true; put_calls := put_calls f; pending_puts := pending_puts f;
     destroyed := destroyed f; settled := settled f; resolutions := resolutions f |}.

Definition destroy (f : t) : t :=
  {| ftpPool := ftpPool f; error_log := error_log f; timeoutHandle := timeoutHandle f;
     listening := listening f; put_calls := put_calls f; pending_puts := pending_puts f;
     destroyed := true; settled := settled f; resolutions := resolutions f |}.

Definition put (buffer : list byte) (remoteFilePath : string) (f : t) : t :=
  {| ftpPool := ftpPool f; error_log := error_log f; timeoutHandle := timeoutHandle f;
     listening := listening f; put_calls := put_calls f ++ [(buffer, remoteFilePath)];
     pending_puts := S (pending_puts f);
     destroyed := destroyed f; settled := settled f; resolutions := resolutions f |}.

Definition put_called_back (f : t) : t :=
  {| ftpPool := ftpPool f; error_log := error_log f; timeoutHandle := timeoutHandle f;
     listening := listening f; put_calls := put_calls f;
     pending_puts := Nat.pred (pending_puts f);
     destroyed := destroyed f; settled := settled f; resolutions := resolutions f |}.

Definition missing_configuration (configs : Config.t) : bool :=
  negb (Js.truthy_string (Config.FTP_HOST configs))
  || negb (Js.truthy_number (Config.FTP_PORT configs))
  || negb (Js.truthy_string (Config.FTP_USERNAME configs))
  || negb (Js.truthy_string (Config.FTP_PASSWORD configs)).

Definition remoteFilePath (configs : Config.t) (filename : string) : string :=
  let remotePath := Js.or_string (Config.FTP_REMOTE_PATH configs) "/" in
  if Js.truthy_string (Config.FTP_DIRECTORY configs) then
    let dir := default "" (Config.FTP_DIRECTORY configs) in
    let remoteDirectory :=
      if Js.endsWith remotePath "/" then remotePath +:+ dir
      else remotePath +:+ "/" +:+ dir in
    remoteDirectory +:+ "/" +:+ filename
  else
    if Js.endsWith remotePath "/" then remotePath +:+ filename
    else remotePath +:+ "/" +:+ filename.

Definition publicUrl (configs : Config.t) (filename : string) : string :=
  let host := default "" (Config.FTP_HOST configs) in
  if Js.truthy_string (Config.FTP_DIRECTORY configs) then
    "https://" +:+ host +:+ "/" +:+ default "" (Config.FTP_DIRECTORY configs)
    +:+ "/" +:+ filename
  else "https://" +:+ host +:+ "/" +:+ filename.

Definition MISSING_CONFIGURATION : ForwardResult.t :=
  ForwardResult.mk false "Missing FTP configuration in config file" None.
Definition TIMED_OUT : ForwardResult.t :=
  ForwardResult.mk false "FTP connection timeout" None.
Definition upload_failed (msg : string) : ForwardResult.t :=
  ForwardResult.mk false ("FTP upload failed: " +:+ msg) None.
Definition connection_failed (msg : string) : ForwardResult.t :=
  ForwardResult.mk false ("FTP connection failed: " +:+ msg) None.
Definition uploaded (configs : Config.t) (filename : string) : ForwardResult.t :=
  ForwardResult.mk true "Image uploaded to FTP successfully"
                   (Some (publicUrl configs filename)).

Section Call.
Variables (configs : Config.t) (buffer : list byte) (filename : string).

(** The body of [new Promise((resolve) => { try { ... } catch { ... } })],
    run once the client has been obtained. *)
Definition executor (connect_throws : option string) (f : t) : t :=
  if missing_configuration configs then
    resolve MISSING_CONFIGURATION (releaseConnection f)
  else
    let f := listen (setTimeout f) in
    match connect_throws with
    | None => f
    | Some msg =>
        resolve (upload_failed msg)
          (releaseConnection (logErrorToFile msg (clearTimeout f)))
    end.

(** One callback. A callback that is not registered, a timer that is not
    pending and a put that was not issued do not run. *)
Definition handle (f : t) (e : ClientEvent) : t :=
  match e with
  | Timeout =>
      if timeoutHandle f then
        resolve TIMED_OUT (releaseConnection (destroy (clearTimeout f)))
      else f
  | Ready =>
      if listening f then put buffer (remoteFilePath configs filename) f else f
  | PutDone err =>
      match pending_puts f with
      | O => f
      | S _ =>
          let f := clearTimeout (put_called_back f) in
          match err with
          | Some msg =>
              resolve (upload_failed msg) (releaseConnection (logErrorToFile msg f))
          | None => resolve (uploaded configs filename) (releaseConnection f)
          end
      end
  | Error msg =>
      if listening f then
        resolve (connection_failed msg)
          (releaseConnection (logErrorToFile msg (clearTimeout f)))
      else f
  end.

Definition deliver (es : list ClientEvent) (f : t) : t := fold_left handle es f.

(** A pending timer fires when nothing clears it. *)
Definition expire (f : t) : t := handle f Timeout.

(** The whole call, from the client obtained from the pool on. *)
Definition session (s : FtpSession) (f : t) : t :=
  expire (deliver (script s) (executor (connect_throws s) f)).

(** The results that the resolution paths of the source construct. *)
Definition known_result (r : ForwardResult.t) : Prop :=
  r = MISSING_CONFIGURATION ∨ r = TIMED_OUT
  ∨ (∃ msg, r = upload_failed msg) ∨ (∃ msg, r = connection_failed msg)
  ∨ r = uploaded configs filename.

(** What the callbacks maintain: the promise is settled or the timer
    is pending; while the timer is pending no resolution path has run;
    a settled promise holds one of the known results and at least one
    path has run. *)
Definition invariant (f : t) : Prop :=
  (is_Some (settled f) ∨ timeoutHandle f = true)
  ∧ (timeoutHandle f = true → settled f = None ∧ resolutions f = O)
  ∧ (∀ r, settled f = Some r → known_result r ∧ (1 ≤ resolutions f)%nat).

End Call.

End Forwarder.

(** ** The runtime

    Functions of Node/Bun that the source calls and does not define. *)

Class Runtime := {
  path_join : string → string → string;        (* path.join(a, b) *)
  path_dirname : string → string;              (* the parent that mkdir -p creates first *)
  path_extname : string → string;              (* path.extname(p) *)
  path_basename : string → string → string;    (* path.basename(p, ext) *)
  Buffer_from_base64 : string → list byte;     (* Buffer.from(data, "base64") *)
  sha256_hex : string → string                 (* createHash('sha256').update(s).digest('hex') *)
}.

(** ** Requests and responses *)

(** [{ base64, prefix_name?, folder?, ftp?, print? }] *)
Record JsonBody := {
  base64 : option string;
  prefix_name : option string;
  folder : option string;
  ftp : option bool;
  print : option bool
}.

Inductive Body :=
| Unreadable (e : string)     (* req.text() or decodeURIComponent throws *)
| Malformed (e : string)      (* JSON.parse throws *)
| Parsed (jsonObj : JsonBody).

Record Request := {
  headers : string → option string;     (* req.headers.get *)
  body : Body
}.

Module File.
Record t := mk {
  name : string;
  type : string;
  bytes : list byte       (* file.arrayBuffer() *)
}.
Definition size (f : t) : Z := Z.of_nat (length (bytes f)).
End File.

Module FormData.
(** The fields that [uploadFile] reads with formData.get. *)
Record t := mk {
  file : option File.t;
  folder : option string;
  print : option string;
  ftp : option string;
  prefix_name : option string
}.
End FormData.

Record MultipartRequest := {
  form_headers : string → option string;
  formData : string + FormData.t      (* inl: req.formData() throws *)
}.

Record FileInfo := {
  info_name : string;
  info_size : Z;
  info_type : string
}.

Module Response.
(** The status and the JSON body of a response. *)
Record t := mk {
  status : Z;
  success : bool;
  message : string;
  local_path : option string;
  public_url : option string;
  file_info : option FileInfo
}.
End Response.

(** Consistent error response helper *)
Definition createErrorResponse (message : string) (status : Z) : Response.t :=
  Response.mk status false message None None None.

(** Consistent success response helper: [{ success: true, ...data }] with status 200. *)
Definition createSuccessResponse (message : string) (local_path public_url : option string)
    (file_info : option FileInfo) : Response.t :=
  Response.mk HTTP_STATUS_OK true message local_path public_url file_info.

(** ** Function to get client identifier from IP and User-Agent *)

Module Text.

Definition is_space (c : ascii) : bool :=
  let n := N_of_ascii c in
  ((9 <=? n) && (n <=? 13) || (n =? 32) || (n =? 160))%N.

Fixpoint trimStart (s : string) : string :=
  match s with
  | String c s' => if is_space c then trimStart s' else s
  | "" => ""
  end.

Fixpoint trimEnd (s : string) : string :=
  match s with
  | String c s' =>
      match trimEnd s' with
      | "" => if is_space c then "" else String c ""
      | t => String c t
      end
  | "" => ""
  end.

Definition trim (s : string) : string := trimEnd (trimStart s).

(** [s.split(',')[0]] *)
Fixpoint before_comma (s : string) : string :=
  match s with
  | String c s' => if Ascii.eqb c "," then "" else String c (before_comma s')
  | "" => ""
  end.

(** [Some (before, after)] the last occurrence of [sep] in [s]. *)
Fixpoint split_last (sep : ascii) (s : string) : option (string * string) :=
  match s with
  | "" => None
  | String c s' =>
      match split_last sep s' with
      | Some (d, b) => Some (String c d, b)
      | None => if Ascii.eqb c sep then Some ("", s') else None
      end
  end.

(** The last segment of a path: what follows its last slash. *)
Definition last_segment (p : string) : string :=
  match split_last "/" p with
  | Some (_, b) => b
  | None => p
  end.

(** The extension of the file that a path names, as path.extname finds it
    (without the dot): what follows the last dot of the last segment;
    none when that segment has no dot, or only the one it starts with. *)
Definition extension (p : string) : string :=
  match split_last "." (last_segment p) with
  | Some ("", _) => ""
  | Some (_, e) => e
  | None => ""
  end.

End Text.

Section ClientIdentifier.
Context {RT : Runtime}.

Definition getClientIdentifier (get : string → option string) : string :=
  let forwardedFor := get "x-forwarded-for" in
  let realIp := get "x-real-ip" in
  let cfConnectingIp := get "cf-connecting-ip" in
  let ip :=
    Js.or_string cfConnectingIp
      (Js.or_string realIp
         (Js.or_string (option_map (λ f, Text.trim (Text.before_comma f)) forwardedFor)
            "unknown")) in
  let userAgent := Js.or_string (get "user-agent") "unknown" in
  RegExp.string_take CLIENT_ID_HASH_LENGTH (sha256_hex (ip +:+ "-" +:+ userAgent)).

End ClientIdentifier.

(** ** The world of one request *)

(** [new Date()] as the getters of the source read it. *)
Record Date := {
  getDate : Z;
  monthShort : string;     (* date.toLocaleString('default', { month: 'short' }) *)
  getFullYear : Z;
  getHours : Z;
  getMinutes : Z;
  getSeconds : Z
}.

(** today format: 22_Dec_2025-22_00_00 *)
Definition dateString (date : Date) : string :=
  pretty (getDate date) +:+ "_" +:+ monthShort date +:+ "_" +:+ pretty (getFullYear date)
  +:+ "-" +:+ pretty (getHours date) +:+ "_" +:+ pretty (getMinutes date)
  +:+ "_" +:+ pretty (getSeconds date).

Inductive FsCall :=
| FsMkdir (p : string)
| FsWriteFile (p : string).

(** What a request reads and does not change. *)
Record Env := {
  now : Date;
  configs : Config.t;
  SAVE_PATH : string;
  PRINT_PATH : string;
  fs_fault : FsCall → option string;   (* the error with which the file system rejects a call *)
  ftp_session : FtpSession             (* what the FTP client of this request will do *)
}.

(** The calls to the outside that a request makes, in order; [Forwarded]
    notes the result to which an awaited [uploadToFtp] resolved. *)
Inductive Effect :=
| Access (p : string)
| Mkdir (p : string) (recursive : bool)
| WriteFile (p : string) (data : list byte)
| UploadToFtp (buffer : list byte) (filename : string)
| Forwarded (result : ForwardResult.t).

(** What a request changes. *)
Record State := {
  fs_dirs : gset string;
  fs_files : gmap string (list byte);
  ftpPool : Pool.t;
  error_log : list string
}.

Inductive Outcome (A : Type) :=
| Returned (a : A)
| Thrown (e : string)
| Pending.
Arguments Returned {A} a.
Arguments Thrown {A} e.
Arguments Pending {A}.

(** An asynchronous computation: from the state at its start to its
    outcome, the state it leaves and the calls it made. *)
Definition M (A : Type) : Type := State → Outcome A * State * list Effect.

Definition ret {A} (a : A) : M A := λ s, (Returned a, s, []).

Definition bind {A B} (m : M A) (k : A → M B) : M B :=
  λ s, match m s with
       | (Returned a, s1, t1) =>
           match k a s1 with
           | (o, s2, t2) => (o, s2, (t1 ++ t2)%list)
           end
       | (Thrown e, s1, t1) => (Thrown e, s1, t1)
       | (Pending, s1, t1) => (Pending, s1, t1)
       end.

Definition throw {A} (e : string) : M A := λ s, (Thrown e, s, []).

(** [try { body } catch (e) { handler(e) }] *)
Definition try_catch {A} (body : M A) (handler : string → M A) : M A :=
  λ s, match body s with
       | (Thrown e, s1, t1) =>
           match handler e s1 with
           | (o, s2, t2) => (o, s2, (t1 ++ t2)%list)
           end
       | r => r
       end.

Declare Scope M_scope.
Delimit Scope M_scope with M.
Notation "x <- m ;; k" := (bind m (λ x, k))
  (at level 100, m at next level, right associativity) : M_scope.
Notation "m ;;; k" := (bind m (λ _, k))
  (at level 100, right associativity) : M_scope.
Open Scope M_scope.

Definition exists_path (s : State) (p : string) : bool :=
  bool_decide (p ∈ fs_dirs s) || bool_decide (is_Some (fs_files s !! p)).

(** ** The request handlers *)

Section Server.
Context {RT : Runtime} (env : Env).

(** [await fsPromises.access(p)] inside [try { } catch { }]: whether it resolved. *)
Definition access (p : string) : M bool :=
  λ s, (Returned (exists_path s p), s, [Access p]).

(** The parents of [p], nearest first. *)
Fixpoint ancestors (n : nat) (p : string) : list string :=
  match n with
  | O => []
  | S n' => path_dirname p :: ancestors n' (path_dirname p)
  end.

(** [await fsPromises.mkdir(p, { recursive: true })] *)
Definition mkdir (p : string) : M unit :=
  λ s, match fs_fault env (FsMkdir p) with
       | Some e => (Thrown e, s, [Mkdir p true])
       | None =>
           (Returned tt,
            {| fs_dirs := {[p]} ∪ list_to_set (ancestors (String.length p) p) ∪ fs_dirs s;
               fs_files := fs_files s; ftpPool := ftpPool s;
               error_log := error_log s |},
            [Mkdir p true])
       end.

(** [await fsPromises.writeFile(p, new Uint8Array(buffer))] *)
Definition writeFile (p : string) (data : list byte) : M unit :=
  λ s, match fs_fault env (FsWriteFile p) with
       | Some e => (Thrown e, s, [WriteFile p data])
       | None =>
           (Returned tt,
            {| fs_dirs := fs_dirs s; fs_files := <[p := data]> (fs_files s);
               ftpPool := ftpPool s; error_log := error_log s |},
            [WriteFile p data])
       end.

(** [await logErrorToFile(e)]: the error joins the errors logged. What
    the call does to error.log and its backups is [ErrorLog.logErrorToFile];
    [files_after] below applies it to the files. *)
Definition logErrorToFile (e : string) : M unit :=
  λ s, (Returned tt,
        {| fs_dirs := fs_dirs s; fs_files := fs_files s; ftpPool := ftpPool s;
           error_log := error_log s ++ [e] |},
        []).

(** [await uploadToFtp(buffer, filename)]. With the pool at capacity and
    no other request to release a client, [getConnection] keeps polling. *)
Definition uploadToFtp (buffer : list byte) (filename : string) : M ForwardResult.t :=
  λ s, match Pool.acquire (ftpPool s) with
       | None => (Pending, s, [UploadToFtp buffer filename])
       | Some p =>
           let f := Forwarder.session (configs env) buffer filename (ftp_session env)
                      (Forwarder.init p (error_log s)) in
           let s' := {| fs_dirs := fs_dirs s; fs_files := fs_files s;
                        ftpPool := Forwarder.ftpPool f;
                        error_log := Forwarder.error_log f |} in
           match Forwarder.settled f with
           | Some r => (Returned r, s', [UploadToFtp buffer filename; Forwarded r])
           | None => (Pending, s', [UploadToFtp buffer filename])
           end
       end.

(** [decodeURIComponent(await req.text())] *)
Definition read_payload (req : Request) : M Body :=
  match body req with
  | Unreadable e => throw e
  | b => ret b
  end.

Definition JSON_parse (payload : Body) : M JsonBody :=
  match payload with
  | Parsed jsonObj => ret jsonObj
  | Malformed e => throw e
  | Unreadable e => throw e
  end.

(** [`${prefixName}-${dateString}.${type}`] *)
Definition image_filename (prefixName type : string) : string :=
  prefixName +:+ "-" +:+ dateString (now env) +:+ "." +:+ type.

(** Upload image in base64 format *)
Definition uploadImage (req : Request) (savePath printPath : string) : M Response.t :=
  try_catch
    (payload <- read_payload req ;;
     jsonObj <- JSON_parse payload ;;
     if negb (Js.truthy_string (base64 jsonObj)) then
       ret (createErrorResponse "Missing 'base64' field" HTTP_STATUS_BAD_REQUEST)
     else
       match RegExp.match_ RegExp.DATA_URL (default "" (base64 jsonObj)) with
       | Some [_; type; data] =>
           let clientId := getClientIdentifier (headers req) in
           targetPath <-
             (if Js.truthy_bool (print jsonObj) then ret printPath
              else if Js.truthy_string (folder jsonObj) then
                let folderWithClient := default "" (folder jsonObj) +:+ "_" +:+ clientId in
                let targetPath := path_join savePath folderWithClient in
                present <- access targetPath ;;
                (if present then ret tt else mkdir targetPath) ;;;
                ret targetPath
              else ret savePath) ;;
           let buffer := Buffer_from_base64 data in
           let sizeValidation := validateFileSize (configs env) (Z.of_nat (length buffer)) in
           if negb (valid sizeValidation) then
             ret (createErrorResponse (default "" (validation_message sizeValidation))
                    HTTP_STATUS_BAD_REQUEST)
           else
             let prefixName := Js.or_string (prefix_name jsonObj) "image" in
             let filename := image_filename prefixName type in
             let filePath := path_join targetPath filename in
             writeFile filePath buffer ;;;
             if Js.truthy_bool (ftp jsonObj) then
               ftpResult <- uploadToFtp buffer filename ;;
               if ForwardResult.success ftpResult then
                 ret (createSuccessResponse
                        "Image uploaded successfully to both local and FTP"
                        None (ForwardResult.url ftpResult) None)
               else
                 ret (createSuccessResponse
                        ("Image uploaded locally but FTP upload failed: "
                         +:+ ForwardResult.message ftpResult)
                        (Some filePath) None None)
             else
               ret (createSuccessResponse "Image uploaded successfully"
                      (Some filePath) None None)
       | _ => ret (createErrorResponse "Invalid base64 format" HTTP_STATUS_BAD_REQUEST)
       end)
    (λ e, logErrorToFile e ;;; ret (createErrorResponse e HTTP_STATUS_BAD_REQUEST)).

Definition uploadImageToFtp (req : Request) : M Response.t :=
  try_catch
    (payload <- read_payload req ;;
     try_catch
       (jsonObj <- JSON_parse payload ;;
        if negb (Js.truthy_string (base64 jsonObj)) then
          ret (createErrorResponse "Missing 'base64' field" HTTP_STATUS_BAD_REQUEST)
        else
          match RegExp.match_ RegExp.DATA_URL (default "" (base64 jsonObj)) with
          | Some [_; type; data] =>
              let buffer := Buffer_from_base64 data in
              let sizeValidation :=
                validateFileSize (configs env) (Z.of_nat (length buffer)) in
              if negb (valid sizeValidation) then
                ret (createErrorResponse (default "" (validation_message sizeValidation))
                       HTTP_STATUS_BAD_REQUEST)
              else
                let prefixName := Js.or_string (prefix_name jsonObj) "image" in
                let filename := image_filename prefixName type in
                ftpResult <- uploadToFtp buffer filename ;;
                if ForwardResult.success ftpResult then
                  ret (createSuccessResponse (ForwardResult.message ftpResult)
                         None (ForwardResult.url ftpResult) None)
                else
                  ret (createErrorResponse (ForwardResult.message ftpResult)
                         HTTP_STATUS_SERVER_ERROR)
          | _ => ret (createErrorResponse "Invalid base64 format" HTTP_STATUS_BAD_REQUEST)
          end)
       (λ parseError,
          ret (createErrorResponse ("Parse error: " +:+ parseError)
                 HTTP_STATUS_BAD_REQUEST)))
    (λ error,
       logErrorToFile error ;;;
       ret (createErrorResponse ("FTP upload failed: " +:+ error) HTTP_STATUS_SERVER_ERROR)).

(** [formData.get(k) === 'true'] *)
Definition is_true (v : option string) : bool :=
  match v with
  | Some s => String.eqb s "true"
  | None => false
  end.

Definition file_info_of (file : File.t) : FileInfo :=
  {| info_name := File.name file; info_size := File.size file;
     info_type := File.type file |}.

(** [`${baseName}_${clientId}_${dateString}${fileExtension}`] *)
Definition file_filename (baseName clientId fileExtension : string) : string :=
  baseName +:+ "_" +:+ clientId +:+ "_" +:+ dateString (now env) +:+ fileExtension.

(** Upload file endpoint (handles multipart/form-data) *)
Definition uploadFile (req : MultipartRequest) : M Response.t :=
  try_catch
    (formData <- match formData req with
                 | inl e => throw e
                 | inr d => ret d
                 end ;;
     let folder := FormData.folder formData in
     let print := is_true (FormData.print formData) in
     let ftp := is_true (FormData.ftp formData) in
     let prefix_name := FormData.prefix_name formData in
     match FormData.file formData with
     | None => ret (createErrorResponse "No file provided" HTTP_STATUS_BAD_REQUEST)
     | Some file =>
         let sizeValidation := validateFileSize (configs env) (File.size file) in
         if negb (valid sizeValidation) then
           ret (createErrorResponse (default "" (validation_message sizeValidation))
                  HTTP_STATUS_BAD_REQUEST)
         else
           let clientId := getClientIdentifier (form_headers req) in
           targetPath <-
             (if print then ret (PRINT_PATH env)
              else if Js.truthy_string folder then
                let folderWithClient := default "" folder +:+ "_" +:+ clientId in
                let targetPath := path_join (SAVE_PATH env) folderWithClient in
                present <- access targetPath ;;
                (if present then ret tt else mkdir targetPath) ;;;
                ret targetPath
              else ret (SAVE_PATH env)) ;;
           let fileExtension := Js.or_string (Some (path_extname (File.name file))) "" in
           let baseName :=
             Js.or_string prefix_name
               (Js.or_string (Some (path_basename (File.name file) fileExtension)) "file") in
           let filename := file_filename baseName clientId fileExtension in
           let buffer := File.bytes file in
           let filePath := path_join targetPath filename in
           writeFile filePath buffer ;;;
           saved <- access filePath ;;
           if negb saved then
             ret (createErrorResponse "File save failed" HTTP_STATUS_SERVER_ERROR)
           else if ftp then
             ftpResult <- uploadToFtp buffer filename ;;
             if ForwardResult.success ftpResult then
               ret (createSuccessResponse
                      "File uploaded successfully to both local and FTP"
                      (Some filePath) (ForwardResult.url ftpResult)
                      (Some (file_info_of file)))
             else
               ret (createSuccessResponse
                      ("File uploaded locally but FTP upload failed: "
                       +:+ ForwardResult.message ftpResult)
                      (Some filePath) None (Some (file_info_of file)))
           else
             ret (createSuccessResponse "File uploaded successfully"
                    (Some filePath) None (Some (file_info_of file)))
     end)
    (λ e, logErrorToFile e ;;; ret (createErrorResponse e HTTP_STATUS_BAD_REQUEST)).

(** The directory that the Target Path Resolver picks. *)
Definition resolved_target (print : bool) (folder : option string)
    (clientId savePath printPath : string) : string :=
  if print then printPath
  else if Js.truthy_string folder then
    path_join savePath (default "" folder +:+ "_" +:+ clientId)
  else savePath.

(** The policy of the Target Path Resolver, read on the run of a request
    that passed validation: the run starts in [s], ends in [s'] with the
    outcome [o] and makes the calls [t]; [filename] and [buffer] are the
    name and the bytes that the handler persists. With the print flag, or
    without a folder, the run starts with the write into the root. With a
    folder the handler first looks the directory up and creates it when it
    is absent: when the creation is rejected the request ends there,
    answered with the error; otherwise the directory exists and the write
    into it follows. No other write is made. *)
Definition follows_target_policy (print : bool) (folder : option string)
    (clientId savePath printPath filename : string) (buffer : list byte)
    (s : State) (o : Outcome Response.t) (s' : State) (t : list Effect) : Prop :=
  let target := resolved_target print folder clientId savePath printPath in
  let p := path_join target filename in
  (∀ q data, In (WriteFile q data) t → q = p ∧ data = buffer)
  ∧ if print || negb (Js.truthy_string folder) then
      ∃ rest, t = WriteFile p buffer :: rest
    else
      let lookup :=
        Access target :: (if exists_path s target then [] else [Mkdir target true]) in
      match (if exists_path s target then None else fs_fault env (FsMkdir target)) with
      | Some e =>
          t = lookup
          ∧ o = Returned (createErrorResponse e HTTP_STATUS_BAD_REQUEST)
          ∧ fs_dirs s' = fs_dirs s ∧ fs_files s' = fs_files s
      | None =>
          (∃ rest, t = (lookup ++ WriteFile p buffer :: rest)%list)
          ∧ exists_path s' target = true
          ∧ (exists_path s target = false →
               target ∈ fs_dirs s'
               ∧ ∀ d, In d (ancestors (String.length target) target) → d ∈ fs_dirs s')
      end.

End Server.

(** ** What the callbacks of a forward maintain *)

Module ForwardInvariant.
Import Forwarder.

Section Call.
Variables (configs : Config.t) (buffer : list byte) (filename : string).

(** Each resolution path releases the client once: of the count of [p0]
    the pool is down by the number of paths that have run; the list of
    pooled clients is not touched. *)
Definition balanced (p0 : Pool.t) (f : t) : Prop :=
  Pool.activeConnections (ftpPool f)
  = Pool.activeConnections p0 - Z.of_nat (resolutions f)
  ∧ Pool.pool (ftpPool f) = Pool.pool p0.

(** The puts are those of this call, and a pending callback belongs to
    a put that was issued. *)
Definition puts_ok (f : t) : Prop :=
  (∀ c, In c (put_calls f) → c = (buffer, remoteFilePath configs filename))
  ∧ (0 < pending_puts f → put_calls f ≠ [])%nat.

End Call.

End ForwardInvariant.

(** ** The error log and its rotation

    The log and its backups are files of the store; [stat], [rename],
    [writeFile] and [appendFile] act on the map from paths to contents. A
    rename is rejected when its source does not exist. What the functions
    print on the console is not part of the model. *)

Definition MAX_LOG_SIZE_BYTES : Z := 10 * 1024 * 1024.
Definition MAX_LOG_BACKUPS : Z := 5.

Module ErrorLog.

(** The UTF-8 encoding of a code unit below 256: one byte below 128, two
    bytes from 128 on. *)
Definition utf8_char (c : ascii) : list byte :=
  let n := N_of_ascii c in
  if (n <? 128)%N then [byte_of_ascii c]
  else [default x00 (Byte.of_N (192 + n / 64)); default x00 (Byte.of_N (128 + n mod 64))].

Fixpoint utf8 (s : string) : list byte :=
  match s with
  | "" => []
  | String c s' => (utf8_char c ++ utf8 s')%list
  end.

Section Log.
Variable ERROR_LOG_PATH : string.

(** [`${ERROR_LOG_PATH}.${i}`] *)
Definition backup (i : Z) : string := ERROR_LOG_PATH +:+ "." +:+ pretty i.

(** [await fsPromises.rename(oldPath, newPath)]: [None] when it rejects. *)
Definition rename (oldPath newPath : string) (files : gmap string (list byte))
    : option (gmap string (list byte)) :=
  match files !! oldPath with
  | Some data => Some (<[newPath := data]> (delete oldPath files))
  | None => None
  end.

(** [await fsPromises.appendFile(p, data)] *)
Definition appendFile (p : string) (data : list byte) (files : gmap string (list byte))
    : gmap string (list byte) :=
  <[p := (default [] (files !! p) ++ data)%list]> files.

(** Initialize error log file *)
Definition initializeErrorLog (files : gmap string (list byte))
    : gmap string (list byte) :=
  match files !! ERROR_LOG_PATH with
  | Some _ => files
  | None => <[ERROR_LOG_PATH := []]> files
  end.

(** [for (let i = n; i > 0; i--) { try { rename(.i, .i+1) } catch { } }] *)
Fixpoint rotate_backups (n : nat) (files : gmap string (list byte))
    : gmap string (list byte) :=
  match n with
  | O => files
  | S n' =>
      let i := Z.of_nat n in
      let oldPath := backup i in
      let newPath := backup (i + 1) in
      rotate_backups n'
        match rename oldPath newPath files with
        | Some files' => files'
        | None => files      (* Ignore if file doesn't exist *)
        end
  end.

(** Rotate log file if it exceeds max size *)
Definition rotateLogFile (files : gmap string (list byte))
    : gmap string (list byte) :=
  match files !! ERROR_LOG_PATH with
  | None => files                       (* stat rejects: caught *)
  | Some data =>
      if MAX_LOG_SIZE_BYTES <=? Z.of_nat (length data) then
        let files := rotate_backups (Z.to_nat (MAX_LOG_BACKUPS - 1)) files in
        match rename ERROR_LOG_PATH (backup 1) files with
        | Some files => <[ERROR_LOG_PATH := []]> files
        | None => files                 (* caught *)
        end
      else files
  end.

(** [`[${timestamp}] ${error instanceof Error ? error.stack : error}\n\n`];
    [error] is the stack of an Error, or the string itself. *)
Definition errorMessage (timestamp error : string) : string :=
  "[" +:+ timestamp +:+ "] " +:+ error +:+ String "010" (String "010" "").

(** Log errors to a file with rotation *)
Definition logErrorToFile (timestamp error : string) (files : gmap string (list byte))
    : gmap string (list byte) :=
  appendFile ERROR_LOG_PATH (utf8 (errorMessage timestamp error)) (rotateLogFile files).

End Log.

End ErrorLog.

(** ** The files when a request is over

    [fs_files] holds the files as the calls of the handler itself (access,
    mkdir, writeFile) find and leave them, [error_log] the errors that were
    handed to logErrorToFile. A handler logs after its last call to the
    file system: in its catch block, or in the callbacks of the forward,
    which it awaits last. So the files when the request is over are those
    of [fs_files s'], after the errors that the request added to the log
    have been written, one after the other, by [ErrorLog.logErrorToFile].
    [timestamp i] is the clock at the i-th of them, [stack e] the text that
    is logged for the error with the message [e]. *)
Section Disk.
Variables (ERROR_LOG_PATH : string) (timestamp : nat → string) (stack : string → string).

Fixpoint log_errors (i : nat) (errors : list string) (files : gmap string (list byte))
    : gmap string (list byte) :=
  match errors with
  | [] => files
  | e :: rest =>
      log_errors (S i) rest
        (ErrorLog.logErrorToFile ERROR_LOG_PATH (timestamp i) (stack e) files)
  end.

Definition files_after (s s' : State) : gmap string (list byte) :=
  log_errors 0 (drop (length (error_log s)) (error_log s')) (fs_files s').

End Disk.

(** ** The configuration file

    JavaScript values as the configuration code handles them: what it
    parses from the file, what a client sends to /config/update. A number
    is an integer or NaN, an array or object is known by its string form;
    an object of the source is a map from property names to values, a
    missing property reads as undefined. *)

Definition HTTP_STATUS_UNAUTHORIZED : Z := 401.
Definition HTTP_STATUS_NOT_FOUND : Z := 404.

Module Value.

Inductive t :=
| Undefined
| Null
| Bool (b : bool)
| Num (n : Z)
| NaN
| Str (s : string)
| Object (text : string).     (* an array or object with String(value) = text *)

(** [!!v] *)
Definition truthy (v : t) : bool :=
  match v with
  | Undefined | Null | NaN => false
  | Bool b => b
  | Num n => negb (n =? 0)
  | Str s => negb (String.eqb s "")
  | Object _ => true
  end.

(** [`${v}`] *)
Definition to_string (v : t) : string :=
  match v with
  | Undefined => "undefined"
  | Null => "null"
  | Bool true => "true"
  | Bool false => "false"
  | Num n => pretty n
  | NaN => "NaN"
  | Str s => s
  | Object text => text
  end.

(** [a || b] *)
Definition or (a b : t) : t := if truthy a then a else b.

(** [v === undefined] *)
Definition is_undefined (v : t) : bool :=
  match v with
  | Undefined => true
  | _ => false
  end.

(** [obj[k]] *)
Definition get (obj : gmap string t) (k : string) : t := default Undefined (obj !! k).

End Value.

(** The string functions of the parser. *)
Module Line.

Definition LF : ascii := "010".
Definition QUOTE : ascii := "034".

(** [s.split(sep)] for a one-character separator: at least one piece. *)
Fixpoint split (sep : ascii) (s : string) : list string :=
  match s with
  | "" => [""]
  | String c s' =>
      if Ascii.eqb c sep then "" :: split sep s'
      else match split sep s' with
           | piece :: rest => String c piece :: rest
           | [] => [String c ""]
           end
  end.

(** [lines.join(sep)] *)
Fixpoint join (sep : string) (lines : list string) : string :=
  match lines with
  | [] => ""
  | [line] => line
  | line :: rest => line +:+ sep +:+ join sep rest
  end.

(** [s.startsWith(String c "")] *)
Definition startsWith (s : string) (c : ascii) : bool :=
  match s with
  | String a _ => Ascii.eqb a c
  | "" => false
  end.

(** [s.replace(/c/g, "")] *)
Fixpoint remove (c : ascii) (s : string) : string :=
  match s with
  | "" => ""
  | String a s' => if Ascii.eqb a c then remove c s' else String a (remove c s')
  end.

Definition lower (c : ascii) : ascii :=
  let n := N_of_ascii c in
  if ((65 <=? n) && (n <=? 90) || (192 <=? n) && (n <=? 222) && negb (n =? 215))%N
  then ascii_of_N (n + 32)
  else c.

(** [s.toLowerCase()] on code units below 256 *)
Fixpoint toLowerCase (s : string) : string :=
  match s with
  | "" => ""
  | String c s' => String (lower c) (toLowerCase s')
  end.

(** The characters of a decimal number. *)
Definition digit_or_minus (c : ascii) : bool :=
  RegExp.in_range "0" "9" c || Ascii.eqb c "-".

(** [`${k}="${v}"`] *)
Definition quoted (k v : string) : string :=
  k +:+ "=" +:+ String QUOTE v +:+ String QUOTE "".

(** [`${k}=${v}`] *)
Definition bare (k v : string) : string := k +:+ "=" +:+ v.

End Line.

(** What the configuration code takes from its host: the resolved default
    directories, the conversion [Number], the clock, and the errors with
    which the file system rejects a write of config.txt or the unlink of a
    config.txt that does not exist. *)
Record Host := {
  DEFAULT_SAVE_PATH : string;       (* path.resolve('./SAVE_IMAGES') *)
  DEFAULT_PRINT_PATH : string;      (* path.resolve('./PRINT_IMAGES') *)
  Number : string → Value.t;        (* Number(s): a Num or NaN *)
  toISOString : string;             (* new Date().toISOString() *)
  write_fault : option string;      (* fs.writeFileSync(CONFIG_PATH, _) throws *)
  unlink_fault : string             (* fs.unlinkSync(CONFIG_PATH) without a file *)
}.

Definition API_KEY : string := "tyI45KBNFS8hrGOdzjvwrG2c7J2odGVs".

Module ConfigFile.
Import Value Line.

Section Host.
Variable host : Host.

(** Default configuration values, in the order of their keys. *)
Definition DEFAULT_CONFIG : list (string * Value.t) :=
  [("SAVE_PATH", Str (DEFAULT_SAVE_PATH host));
   ("PRINT_PATH", Str (DEFAULT_PRINT_PATH host));
   ("PORT", Num 5555);
   ("API_KEY", Str API_KEY);
   ("MAX_FILE_SIZE_MB", Num MAX_FILE_SIZE_MB);
   ("FTP_HOST", Undefined);
   ("FTP_PORT", Num 21);
   ("FTP_USERNAME", Undefined);
   ("FTP_PASSWORD", Undefined);
   ("FTP_REMOTE_PATH", Str "/");
   ("FTP_SECURE", Bool false);
   ("FTP_DIRECTORY", Undefined)].

(** [DEFAULT_CONFIG[k]] *)
Definition DEFAULT (k : string) : Value.t :=
  match List.find (λ kv, String.eqb (fst kv) k) DEFAULT_CONFIG with
  | Some kv => snd kv
  | None => Undefined
  end.

(** [fs.writeFileSync(CONFIG_PATH, content)]: the error, or the file. *)
Definition writeFileSync (content : string) : string + option string :=
  match write_fault host with
  | Some e => inl e
  | None => inr (Some content)
  end.

Definition defaultConfigString : string :=
  join (String LF "")
    [quoted "SAVE_PATH" (DEFAULT_SAVE_PATH host);
     quoted "PRINT_PATH" (DEFAULT_PRINT_PATH host);
     bare "PORT" (to_string (DEFAULT "PORT"));
     quoted "API_KEY" API_KEY;
     "# FTP Configuration (uncomment to enable)";
     "# " +:+ quoted "FTP_HOST" "your.ftp.server.com";
     "# " +:+ bare "FTP_PORT" (to_string (DEFAULT "FTP_PORT"));
     "# " +:+ quoted "FTP_USERNAME" "your_username";
     "# " +:+ quoted "FTP_PASSWORD" "your_password";
     "# " +:+ quoted "FTP_REMOTE_PATH" (to_string (DEFAULT "FTP_REMOTE_PATH"));
     "# " +:+ bare "FTP_SECURE" (to_string (DEFAULT "FTP_SECURE"));
     ""].

(** Create a default config file if it doesn't exist *)
Definition createDefaultConfig (file : option string) : string + option string :=
  match file with
  | None => writeFileSync defaultConfigString
  | Some _ => inr file
  end.

(** The lines of writeCompleteConfigFile. *)
Definition completeConfigLines (config : gmap string Value.t) : list string :=
  let field k := to_string (get config k) in
  ["# Image Receiver Server Configuration";
   "# Generated on " +:+ toISOString host;
   "";
   "# Basic Configuration";
   quoted "SAVE_PATH" (field "SAVE_PATH");
   quoted "PRINT_PATH" (field "PRINT_PATH");
   bare "PORT" (field "PORT");
   quoted "API_KEY" (field "API_KEY");
   bare "MAX_FILE_SIZE_MB" (field "MAX_FILE_SIZE_MB");
   "";
   "# FTP Configuration (uncomment and fill to enable FTP upload)"]
  ++ (if truthy (get config "FTP_HOST") then
        [quoted "FTP_HOST" (field "FTP_HOST");
         bare "FTP_PORT" (field "FTP_PORT")]
        ++ (if truthy (get config "FTP_USERNAME")
            then [quoted "FTP_USERNAME" (field "FTP_USERNAME")] else [])
        ++ (if truthy (get config "FTP_PASSWORD")
            then [quoted "FTP_PASSWORD" (field "FTP_PASSWORD")] else [])
        ++ [quoted "FTP_REMOTE_PATH" (field "FTP_REMOTE_PATH");
            bare "FTP_SECURE" (field "FTP_SECURE")]
        ++ (if truthy (get config "FTP_DIRECTORY")
            then [bare "FTP_DIRECTORY" (field "FTP_DIRECTORY")] else [])
      else
        ["# " +:+ quoted "FTP_HOST" "your.ftp.server.com";
         "# " +:+ bare "FTP_PORT" (to_string (DEFAULT "FTP_PORT"));
         "# " +:+ quoted "FTP_USERNAME" "your_username";
         "# " +:+ quoted "FTP_PASSWORD" "your_password";
         "# " +:+ quoted "FTP_REMOTE_PATH" (to_string (DEFAULT "FTP_REMOTE_PATH"));
         "# " +:+ bare "FTP_SECURE" (to_string (DEFAULT "FTP_SECURE"));
         "# " +:+ quoted "FTP_DIRECTORY" "subfolder"])
  ++ [""].

(** Function to write complete config file *)
Definition writeCompleteConfigFile (config : gmap string Value.t)
    : string + option string :=
  writeFileSync (join (String LF "") (completeConfigLines config)).

(** The type conversion and the assignment [configData[cleanKey] = _]. *)
Definition assign (cleanKey cleanValue : string) (configData : gmap string Value.t)
    : gmap string Value.t :=
  if String.eqb cleanKey "PORT" || String.eqb cleanKey "FTP_PORT"
     || String.eqb cleanKey "MAX_FILE_SIZE_MB"
  then <[cleanKey := Number host cleanValue]> configData
  else if String.eqb cleanKey "FTP_SECURE"
  then <[cleanKey := Bool (String.eqb (toLowerCase cleanValue) "true")]> configData
  else <[cleanKey := if String.eqb cleanValue "" then Undefined else Str cleanValue]>
         configData.

(** The body of [lines.forEach(line => { ... })]. *)
Definition parse_line (configData : gmap string Value.t) (line : string)
    : gmap string Value.t :=
  let trimmedLine := Text.trim line in
  if String.eqb trimmedLine "" || startsWith trimmedLine "#" then configData
  else
    match split "=" trimmedLine with
    | key :: value :: _ =>
        if String.eqb key "" || String.eqb value "" then configData
        else assign (Text.trim key) (Text.trim (remove QUOTE value)) configData
    | _ => configData
    end.

(** [fs.readFileSync(CONFIG_PATH, "utf-8").split("\n")], line by line. *)
Definition parse (content : string) : gmap string Value.t :=
  fold_left parse_line (split LF content) ∅.

(** Check for missing values and set defaults *)
Definition finalConfig (configData : gmap string Value.t) : gmap string Value.t :=
  let pick k := (k, or (get configData k) (DEFAULT k)) in
  list_to_map
    [pick "SAVE_PATH"; pick "PRINT_PATH"; pick "PORT"; pick "API_KEY";
     pick "MAX_FILE_SIZE_MB"; pick "FTP_HOST"; pick "FTP_PORT";
     pick "FTP_USERNAME"; pick "FTP_PASSWORD"; pick "FTP_REMOTE_PATH";
     ("FTP_SECURE",
      if is_undefined (get configData "FTP_SECURE") then DEFAULT "FTP_SECURE"
      else get configData "FTP_SECURE");
     pick "FTP_DIRECTORY"].

(** Check if any default values were used (meaning something was missing) *)
Definition missing (configData : gmap string Value.t) : bool :=
  existsb (λ kv, is_undefined (get configData (fst kv)) && negb (is_undefined (snd kv)))
    DEFAULT_CONFIG.

(** Function to validate config and fix missing values: the configuration,
    or the error of the rewrite, and the file afterwards. *)
Definition validateAndFixConfig (file : option string)
    : (string + gmap string Value.t) * option string :=
  let configData :=
    match file with
    | Some content => parse content
    | None => ∅
    end in
  let needsRewrite :=
    match file with
    | Some _ => missing configData
    | None => true
    end in
  if needsRewrite then
    match writeCompleteConfigFile (finalConfig configData) with
    | inl e => (inl e, file)
    | inr file' => (inr (finalConfig configData), file')
    end
  else (inr (finalConfig configData), file).

Definition parseConfigFile := validateAndFixConfig.
Definition getCurrentConfig := parseConfigFile.

(** Function to reset config to default values *)
Definition resetConfigToDefault (file : option string) : (string + unit) * option string :=
  match file with
  | None => (inl (unlink_fault host), None)
  | Some _ =>
      match createDefaultConfig None with
      | inl e => (inl e, None)
      | inr file' => (inr tt, file')
      end
  end.

(** The lines of updateConfigValue. *)
Definition updatedConfigLines (currentConfig : gmap string Value.t) : list string :=
  let field k := to_string (get currentConfig k) in
  [quoted "SAVE_PATH" (field "SAVE_PATH");
   bare "PORT" (field "PORT");
   quoted "API_KEY" (field "API_KEY")]
  ++ (if truthy (get currentConfig "FTP_HOST") then
        [quoted "FTP_HOST" (field "FTP_HOST");
         bare "FTP_PORT" (field "FTP_PORT")]
        ++ (if truthy (get currentConfig "FTP_USERNAME")
            then [quoted "FTP_USERNAME" (field "FTP_USERNAME")] else [])
        ++ (if truthy (get currentConfig "FTP_PASSWORD")
            then [quoted "FTP_PASSWORD" (field "FTP_PASSWORD")] else [])
        ++ [quoted "FTP_REMOTE_PATH" (field "FTP_REMOTE_PATH");
            bare "FTP_SECURE" (field "FTP_SECURE")]
        ++ (if truthy (get currentConfig "FTP_DIRECTORY")
            then [bare "FTP_DIRECTORY" (field "FTP_DIRECTORY")] else [])
      else []).

(** Function to update specific config value *)
Definition updateConfigValue (key : string) (value : Value.t) (file : option string)
    : bool * option string :=
  match getCurrentConfig file with
  | (inl _, file1) => (false, file1)
  | (inr currentConfig, file1) =>
      let currentConfig := <[key := value]> currentConfig in
      match writeFileSync (join (String LF "") (updatedConfigLines currentConfig)
                           +:+ String LF "") with
      | inl _ => (false, file1)
      | inr file2 => (true, file2)
      end
  end.

(** The settings that the handlers read, of a configuration object. *)
Definition number_of (v : Value.t) : option Z :=
  match v with
  | Num n => Some n
  | _ => None
  end.

Definition string_of (v : Value.t) : option string :=
  match v with
  | Str s => Some s
  | _ => None
  end.

Definition bool_of (v : Value.t) : option bool :=
  match v with
  | Bool b => Some b
  | _ => None
  end.

Definition settings (config : gmap string Value.t) : Config.t :=
  {| Config.MAX_FILE_SIZE_MB := number_of (get config "MAX_FILE_SIZE_MB");
     Config.FTP_HOST := string_of (get config "FTP_HOST");
     Config.FTP_PORT := number_of (get config "FTP_PORT");
     Config.FTP_USERNAME := string_of (get config "FTP_USERNAME");
     Config.FTP_PASSWORD := string_of (get config "FTP_PASSWORD");
     Config.FTP_REMOTE_PATH := string_of (get config "FTP_REMOTE_PATH");
     Config.FTP_SECURE := bool_of (get config "FTP_SECURE");
     Config.FTP_DIRECTORY := string_of (get config "FTP_DIRECTORY") |}.

End Host.

End ConfigFile.

(** ** Handle incoming requests *)

(** A request as [handleRequest] sees it: the method, the path of the
    URL, the headers, and the body as each endpoint reads it. *)
Record HttpRequest := {
  method : string;
  pathname : string;                           (* new URL(req.url, _).pathname *)
  http_headers : string → option string;
  text_body : Body;                            (* req.text(), then JSON.parse *)
  form_body : string + FormData.t;             (* req.formData() *)
  json_body : string + (Value.t * Value.t)     (* const { key, value } = await req.json() *)
}.

Inductive Reply :=
| Plain (response : Response.t)                (* { success, message, ... } *)
| SavePathReply (save_path : string)           (* { success: true, save_path } *)
| ConfigReply (config : gmap string Value.t).  (* { success: true, config } *)

(** The uploads and the configuration file. *)
Record Server := {
  uploads : State;
  config_file : option string
}.

Definition AP_KEY : string := API_KEY.

(** Middleware to check the API key *)
Definition checkApiKey (get : string → option string) : option Response.t :=
  let apiKey := get "api-key" in
  if negb (Js.truthy_string apiKey) then
    Some (createErrorResponse "Require api-key" HTTP_STATUS_UNAUTHORIZED)
  else if negb (String.eqb (default "" apiKey) AP_KEY) then
    Some (createErrorResponse "Unauthorized" HTTP_STATUS_UNAUTHORIZED)
  else None.

Section Routes.
Context {RT : Runtime} (env : Env) (host : Host).

Definition answer (r : Response.t) (server : Server)
    : Outcome Reply * Server * list Effect :=
  (Returned (Plain r), server, []).

(** An upload endpoint: it runs on the uploads and leaves the file alone. *)
Definition upload (handler : M Response.t) (server : Server)
    : Outcome Reply * Server * list Effect :=
  match handler (uploads server) with
  | (o, s', t) =>
      (match o with
       | Returned r => Returned (Plain r)
       | Thrown e => Thrown e
       | Pending => Pending
       end,
       {| uploads := s'; config_file := config_file server |}, t)
  end.

Definition handleRequest (req : HttpRequest) (server : Server)
    : Outcome Reply * Server * list Effect :=
  match checkApiKey (http_headers req) with
  | Some apiKeyError => answer apiKeyError server
  | None =>
      let route m p := String.eqb (method req) m && String.eqb (pathname req) p in
      if route "GET" "/check" then
        answer (createSuccessResponse "Server is running" None None None) server
      else if route "GET" "/save_path" then
        (Returned (SavePathReply (SAVE_PATH env)), server, [])
      else if route "POST" "/upload_image" then
        upload (uploadImage env {| headers := http_headers req; body := text_body req |}
                  (SAVE_PATH env) (PRINT_PATH env)) server
      else if route "POST" "/upload_file" then
        upload (uploadFile env {| form_headers := http_headers req;
                                  formData := form_body req |}) server
      else if route "POST" "/upload_image_ftp" then
        upload (uploadImageToFtp env {| headers := http_headers req;
                                        body := text_body req |}) server
      else if route "GET" "/config" then
        match ConfigFile.getCurrentConfig host (config_file server) with
        | (inl e, file) =>
            (Thrown e, {| uploads := uploads server; config_file := file |}, [])
        | (inr currentConfig, file) =>
            (Returned (ConfigReply currentConfig),
             {| uploads := uploads server; config_file := file |}, [])
        end
      else if route "POST" "/config/reset" then
        match ConfigFile.resetConfigToDefault host (config_file server) with
        | (inl e, file) =>
            answer (createErrorResponse ("Failed to reset config: " +:+ e)
                      HTTP_STATUS_SERVER_ERROR)
              {| uploads := uploads server; config_file := file |}
        | (inr _, file) =>
            answer (createSuccessResponse "Config has been reset to default values"
                      None None None)
              {| uploads := uploads server; config_file := file |}
        end
      else if route "POST" "/config/update" then
        match json_body req with
        | inl e =>
            answer (createErrorResponse ("Failed to update config: " +:+ e)
                      HTTP_STATUS_SERVER_ERROR) server
        | inr (key, value) =>
            if negb (Value.truthy key) || Value.is_undefined value then
              answer (createErrorResponse "Missing 'key' or 'value' in request body"
                        HTTP_STATUS_BAD_REQUEST) server
            else
              match ConfigFile.updateConfigValue host (Value.to_string key) value
                      (config_file server) with
              | (true, file) =>
                  answer (createSuccessResponse
                            ("Updated " +:+ Value.to_string key +:+ " to "
                             +:+ Value.to_string value) None None None)
                    {| uploads := uploads server; config_file := file |}
              | (false, file) =>
                  answer (createErrorResponse ("Failed to update " +:+ Value.to_string key)
                            HTTP_STATUS_SERVER_ERROR)
                    {| uploads := uploads server; config_file := file |}
              end
        end
      else
        answer (createErrorResponse "CANNOT GET: The requested resource was not found"
                  HTTP_STATUS_NOT_FOUND) server
  end.

End Routes.

(** ** Values that the configuration file can hold

    The shapes under which a value written to the file is read back as it
    was, and what the parser is entitled to expect of its host. *)

Module ConfigShape.
Import RegExp Value Line.

(** A key with which a line can start: not empty, no white space or
    number sign in front, no equals sign. *)
Definition plain_key (k : string) : Prop :=
  k ≠ "" ∧ Text.trimStart k = k ∧ startsWith k "#" = false
  ∧ string_forallb (λ c, negb (Ascii.eqb c "=")) k = true.

Definition no_line_feed (s : string) : Prop :=
  string_forallb (λ c, negb (Ascii.eqb c LF)) s = true.

Definition plain_char (c : ascii) : bool :=
  negb (Ascii.eqb c LF) && negb (Ascii.eqb c QUOTE) && negb (Ascii.eqb c "=").

(** A string that survives the file: not empty, without line feed, quote
    or equals sign, and without white space around it. *)
Definition clean (s : string) : Prop :=
  s ≠ "" ∧ string_forallb plain_char s = true ∧ Text.trim s = s.

(** What [Number] returns. *)
Definition numeric (v : Value.t) : Prop := v = NaN ∨ ∃ n, v = Num n.

(** The host resolves the default directories to clean paths, its time
    stamp is one line; [Number] returns a number or NaN, and reads back the
    decimal form of an integer. *)
Definition well_behaved (host : Host) : Prop :=
  clean (DEFAULT_SAVE_PATH host) ∧ clean (DEFAULT_PRINT_PATH host)
  ∧ no_line_feed (toISOString host)
  ∧ (∀ s, numeric (Number host s))
  ∧ (∀ n, Number host (pretty n) = Num n).

(** The key that a line assigns, if it assigns one. *)
Definition key_of (line : string) : string :=
  Text.trim (hd "" (split "=" (Text.trim line))).

(** A line that the parser skips: blank, a comment, or without an equals sign. *)
Definition skipped (line : string) : Prop :=
  Text.trim line = "" ∨ startsWith (Text.trim line) "#" = true
  ∨ string_forallb (λ c, negb (Ascii.eqb c "=")) line = true.

Definition is_number_key (k : string) : bool :=
  String.eqb k "PORT" || String.eqb k "FTP_PORT" || String.eqb k "MAX_FILE_SIZE_MB".

(** What the parser can have stored under a key. *)
Definition stored (k : string) (v : Value.t) : Prop :=
  v = Undefined
  ∨ (if is_number_key k then numeric v
     else if String.eqb k "FTP_SECURE" then ∃ b, v = Bool b
     else ∃ s, v = Str s ∧ clean s).

Definition text (v : Value.t) : Prop := ∃ s, v = Str s ∧ clean s.
Definition optional_text (v : Value.t) : Prop := v = Undefined ∨ text v.
Definition number (v : Value.t) : Prop := ∃ n, v = Num n ∧ n ≠ 0.

(** The configuration that validateAndFixConfig returns. *)
Definition complete (config : gmap string Value.t) : Prop :=
  text (get config "SAVE_PATH") ∧ text (get config "PRINT_PATH")
  ∧ number (get config "PORT") ∧ text (get config "API_KEY")
  ∧ number (get config "MAX_FILE_SIZE_MB")
  ∧ optional_text (get config "FTP_HOST") ∧ number (get config "FTP_PORT")
  ∧ optional_text (get config "FTP_USERNAME")
  ∧ optional_text (get config "FTP_PASSWORD")
  ∧ text (get config "FTP_REMOTE_PATH")
  ∧ (∃ b, get config "FTP_SECURE" = Bool b)
  ∧ optional_text (get config "FTP_DIRECTORY").

(** The keys of the configuration, in the order of the file. *)
Definition CONFIG_KEYS : list string :=
  ["SAVE_PATH"; "PRINT_PATH"; "PORT"; "API_KEY"; "MAX_FILE_SIZE_MB"; "FTP_HOST";
   "FTP_PORT"; "FTP_USERNAME"; "FTP_PASSWORD"; "FTP_REMOTE_PATH"; "FTP_SECURE";
   "FTP_DIRECTORY"].

(** The keys that updateConfigValue writes. *)
Definition UPDATED_KEYS : list string :=
  ["SAVE_PATH"; "PORT"; "API_KEY"; "FTP_HOST"; "FTP_PORT"; "FTP_USERNAME"; "FTP_PASSWORD";
   "FTP_REMOTE_PATH"; "FTP_SECURE"; "FTP_DIRECTORY"].

(** A line that assigns one of the keys. *)
Definition assigns (keys : list string) (line : string) : Prop :=
  ∃ k rest, In k keys ∧ line = k +:+ String "=" rest.

(** A value of the shape that the key holds. *)
Definition fits (k : string) (v : Value.t) : Prop :=
  if is_number_key k then number v
  else if String.eqb k "FTP_SECURE" then ∃ b, v = Bool b
  else text v.

End ConfigShape.

(** ** A sample runtime and sample requests, on which the handlers are run *)

Module Sample.

Definition sextet (c : ascii) : option N :=
  let n := N_of_ascii c in
  if RegExp.in_range "A" "Z" c then Some (n - 65)%N
  else if RegExp.in_range "a" "z" c then Some (n - 71)%N
  else if RegExp.in_range "0" "9" c then Some (n + 4)%N
  else if Ascii.eqb c "+" then Some 62%N
  else if Ascii.eqb c "/" then Some 63%N
  else None.

(** The base64 digits up to the padding; other characters are skipped. *)
Fixpoint sextets (s : string) : list N :=
  match s with
  | "" => []
  | String c s' =>
      if Ascii.eqb c "=" then []
      else match sextet c with
           | Some n => n :: sextets s'
           | None => sextets s'
           end
  end.

Definition octet (n : N) : byte := default x00 (Byte.of_N n).

Fixpoint octets (l : list N) : list byte :=
  match l with
  | a :: b :: c :: d :: r =>
      octet (a * 4 + b / 16) :: octet ((b mod 16) * 16 + c / 4)
      :: octet ((c mod 4) * 64 + d) :: octets r
  | [a; b; c] => [octet (a * 4 + b / 16); octet ((b mod 16) * 16 + c / 4)]
  | [a; b] => [octet (a * 4 + b / 16)]
  | _ => []
  end%N.

Definition base64_decode (s : string) : list byte := octets (sextets s).

Definition join (a b : string) : string := a +:+ "/" +:+ b.

Definition dirname (p : string) : string :=
  match Text.split_last "/" p with
  | Some ("", _) => "/"
  | Some (d, _) => d
  | None => "."
  end.

Definition last_segment (p : string) : string :=
  match Text.split_last "/" p with
  | Some (_, b) => b
  | None => p
  end.

Definition extname (p : string) : string :=
  match Text.split_last "." (last_segment p) with
  | Some ("", _) => ""
  | Some (_, e) => "." +:+ e
  | None => ""
  end.

Definition basename (p ext : string) : string :=
  let b := last_segment p in
  let n := (String.length b - String.length ext)%nat in
  if negb (String.eqb ext "") && negb (String.eqb b ext)
     && String.eqb (RegExp.string_drop n b) ext
  then RegExp.string_take n b else b.

(** The digest is a fixed stand-in: the samples do not depend on it. *)
Definition digest (_ : string) : string :=
  "9f86d081884c7d659a2feaa0c55ad015a3bf4f1b2b0b822cd15d6c15b0f00a08".

#[global] Instance runtime : Runtime := {|
  path_join := join;
  path_dirname := dirname;
  path_extname := extname;
  path_basename := basename;
  Buffer_from_base64 := base64_decode;
  sha256_hex := digest
|}.

Definition date : Date :=
  {| getDate := 22; monthShort := "Dec"; getFullYear := 2025;
     getHours := 22; getMinutes := 0; getSeconds := 0 |}.

Definition no_ftp : Config.t :=
  Config.mk (Some 50) None (Some 21) None None (Some "/") (Some false) None.

Definition with_ftp : Config.t :=
  Config.mk (Some 50) (Some "ftp.example.com") (Some 21) (Some "user") (Some "secret")
            (Some "/") (Some false) None.

Definition one_megabyte : Config.t :=
  Config.mk (Some 1) None (Some 21) None None (Some "/") (Some false) None.

(** MAX_FILE_SIZE_MB=-1: a limit below every size. *)
Definition nothing_fits : Config.t :=
  Config.mk (Some (-1)) None (Some 21) None None (Some "/") (Some false) None.

Definition env (c : Config.t) (session : list ClientEvent) : Env :=
  {| now := date; configs := c;
     SAVE_PATH := "/srv/SAVE_IMAGES"; PRINT_PATH := "/srv/PRINT_IMAGES";
     fs_fault := λ _, None;
     ftp_session := {| connect_throws := None; script := session |} |}.

(** The server at rest: both roots exist, nothing stored, no client lent. *)
Definition idle : State :=
  {| fs_dirs := {["/srv/SAVE_IMAGES"; "/srv/PRINT_IMAGES"; "/srv"; "/"]};
     fs_files := ∅; ftpPool := Pool.empty; error_log := [] |}.

Definition no_headers : string → option string := λ _, None.

(** The example of the specification: a PNG signature, prefix "test". *)
Definition png (folder : option string) (ftp print : option bool) : Request :=
  {| headers := no_headers;
     body := Parsed {| base64 := Some "data:image/png;base64,iVBORw0KGgo=";
                       prefix_name := Some "test"; folder := folder;
                       ftp := ftp; print := print |} |}.

Definition not_an_image : Request :=
  {| headers := no_headers;
     body := Parsed {| base64 := Some "data:text/plain;base64,aGVsbG8=";
                       prefix_name := None; folder := None;
                       ftp := None; print := None |} |}.

(** One byte more than a megabyte. *)
Definition oversized : list byte := repeat x00 (Z.to_nat 1048577).

Definition multipart (bytes : list byte) (folder ftp : option string) : MultipartRequest :=
  {| form_headers := no_headers;
     formData := inr (FormData.mk (Some (File.mk "photo.jpg" "image/jpeg" bytes))
                                  folder None ftp None) |}.

(** A data URL that the pattern admits: the subtype holds a slash. *)
Definition slash_in_subtype : Request :=
  {| headers := no_headers;
     body := Parsed {| base64 := Some "data:image/a/b;base64,QUJD";
                       prefix_name := None; folder := None;
                       ftp := None; print := None |} |}.

(** The path that the handler builds for it under the save root. *)
Definition slash_path : string := "/srv/SAVE_IMAGES/image-22_Dec_2025-22_0_0.a/b".

(** The save root holds no directory image-22_Dec_2025-22_0_0.a: the write
    of that path is rejected. *)
Definition no_such_directory : Env :=
  {| now := date; configs := no_ftp;
     SAVE_PATH := "/srv/SAVE_IMAGES"; PRINT_PATH := "/srv/PRINT_IMAGES";
     fs_fault := λ call,
       match call with
       | FsWriteFile p =>
           if String.eqb p slash_path
           then Some ("ENOENT: no such file or directory, open '" +:+ slash_path +:+ "'")
           else None
       | FsMkdir _ => None
       end;
     ftp_session := {| connect_throws := None; script := [] |} |}.

End Sample.

(** ** A sample host, configuration file and log *)

Module ConfigSample.

(** A conversion for decimal integers: the empty string is 0, digits
    with an optional minus sign are their value, anything else is NaN. *)
Fixpoint digits (acc : Z) (s : string) : option Z :=
  match s with
  | "" => Some acc
  | String c s' =>
      let n := N_of_ascii c in
      if ((48 <=? n) && (n <=? 57))%N then digits (10 * acc + Z.of_N (n - 48)) s'
      else None
  end.

Definition number (s : string) : Value.t :=
  match s with
  | "" => Value.Num 0
  | String "-" (String c s') =>
      match digits 0 (String c s') with
      | Some n => Value.Num (- n)
      | None => Value.NaN
      end
  | _ =>
      match digits 0 s with
      | Some n => Value.Num n
      | None => Value.NaN
      end
  end.

Definition host (write_fault : option string) : Host :=
  {| DEFAULT_SAVE_PATH := "/srv/SAVE_IMAGES";
     DEFAULT_PRINT_PATH := "/srv/PRINT_IMAGES";
     Number := number;
     toISOString := "2025-12-22T22:00:00.000Z";
     write_fault := write_fault;
     unlink_fault := "ENOENT: no such file or directory, unlink '/srv/config.txt'" |}.

(** A config.txt with an FTP destination, a comment and a key that
    holds an equals sign. *)
Definition file_with_ftp : string :=
  Line.join (String Line.LF "")
    ["# my server";
     "PORT = 8080";
     "API_KEY=c2VjcmV0=";
     "MAX_FILE_SIZE_MB=20";
     "FTP_HOST=ftp.example.com";
     "FTP_USERNAME=user";
     "FTP_PASSWORD=secret"].

(** A config.txt with FTP settings but no host. *)
Definition file_without_host : string :=
  Line.join (String Line.LF "")
    ["PRINT_PATH=/srv/print";
     "FTP_PORT=2121";
     "FTP_USERNAME=user"].

Definition request (method pathname : string) (key : option string)
    (json : string + (Value.t * Value.t)) : HttpRequest :=
  {| method := method; pathname := pathname;
     http_headers := λ h, if String.eqb h "api-key" then key else None;
     text_body := Unreadable "not read";
     form_body := inl "not read";
     json_body := json |}.

(** A log that has reached the size at which it is rotated. *)
Definition full_log : list byte := repeat x00 (Z.to_nat (10 * 1024 * 1024)).

End ConfigSample.

(** These are unfolded by name in the proofs, never by [simpl]. *)
Arguments RegExp.match_ : simpl never.
Arguments getClientIdentifier : simpl never.
Arguments validateFileSize : simpl never.
Arguments maxSize : simpl never.
Arguments image_filename : simpl never.
Arguments file_filename : simpl never.
Arguments exists_path : simpl never.
Arguments Forwarder.session : simpl never.
Arguments Pool.acquire : simpl never.

(** * Properties *)

#[local] Set Warnings "-clear-no-such-hyp".

(** ** The connection pool *)

Module PoolFacts.
Import Pool.


Lemma acquire_None p : acquire p = None ↔ FTP_POOL_SIZE ≤ activeConnections p.
Proof.
  unfold acquire. destruct (Z.ltb_spec (activeConnections p) FTP_POOL_SIZE); split;
    (discriminate || lia || reflexivity).
Qed.
















End PoolFacts.



(** ** The forwarder *)

Module ForwarderFacts.
Import Forwarder.

Section Call.
Variables (configs : Config.t) (buffer : list byte) (filename : string).

Lemma executor_invariant thrown p log :
  invariant configs filename (executor configs thrown (init p log)).
Proof.
  unfold executor, invariant, known_result.
  destruct (missing_configuration configs); [|destruct thrown as [msg|]]; simpl.
  - split; [left; eauto|]. split; [discriminate|].
    intros r [= <-]. split; [auto|lia].
  - split; [left; eauto|]. split; [discriminate|].
    intros r [= <-]. split; [right; right; left; eauto|lia].
  - split; [right; reflexivity|]. split; [auto|discriminate].
Qed.

Lemma handle_invariant f e :
  invariant configs filename f → invariant configs filename (handle configs buffer filename f e).
Proof.
  intros Hinv. pose proof Hinv as (Hs & Ht & Hr).
  destruct e as [| |err|msg]; simpl.
  - destruct (timeoutHandle f) eqn:Htimer; [|exact Hinv].
    destruct (Ht eq_refl) as [Hnone Hzero].
    unfold invariant, known_result. simpl. rewrite Hnone.
    split; [left; eauto|]. split; [discriminate|].
    intros r [= <-]. split; [auto|lia].
  - destruct (listening f); [|exact Hinv]. exact Hinv.
  - destruct (pending_puts f); [exact Hinv|].
    unfold invariant, known_result in *.
    destruct err as [msg|]; simpl.
    + split; [left; destruct (settled f); eauto|]. split; [discriminate|].
      intros r Hset. split; [|lia]. destruct (settled f) as [r0|] eqn:Hf.
      * apply Hr. exact Hset.
      * injection Hset as <-. right; right; left; eauto.
    + split; [left; destruct (settled f); eauto|]. split; [discriminate|].
      intros r Hset. split; [|lia]. destruct (settled f) as [r0|] eqn:Hf.
      * apply Hr. exact Hset.
      * injection Hset as <-. auto 6.
  - destruct (listening f); [|exact Hinv].
    unfold invariant, known_result in *. simpl.
    split; [left; destruct (settled f); eauto|]. split; [discriminate|].
    intros r Hset. split; [|lia]. destruct (settled f) as [r0|] eqn:Hf.
    + apply Hr. exact Hset.
    + injection Hset as <-. right; right; right; left; eauto.
Qed.

Lemma deliver_invariant es f :
  invariant configs filename f → invariant configs filename (deliver configs buffer filename es f).
Proof.
  revert f. induction es as [|e es IH]; intros f Hf; [exact Hf|].
  apply IH, handle_invariant, Hf.
Qed.

(** The call always resolves, to one of the results of the source. *)
Lemma session_settles s p log :
  ∃ r, settled (session configs buffer filename s (init p log)) = Some r
       ∧ known_result configs filename r.
Proof.
  pose proof (deliver_invariant (script s) _
                (executor_invariant (connect_throws s) p log)) as (Hs & Ht & Hr).
  unfold session, expire.
  set (f := deliver configs buffer filename (script s)
              (executor configs (connect_throws s) (init p log))) in *.
  simpl. destruct (timeoutHandle f) eqn:Htimer.
  - destruct (Ht eq_refl) as [Hnone _]. simpl. rewrite Hnone.
    exists TIMED_OUT. split; [reflexivity|]. unfold known_result. auto.
  - destruct Hs as [[r Hset]|Hs]; [|discriminate].
    exists r. split; [exact Hset|]. apply Hr, Hset.
Qed.

(** Every failure carries a reason, and only a success carries a URL. *)
Lemma known_result_message r :
  known_result configs filename r →
  (ForwardResult.success r = false →
     ForwardResult.message r ≠ "" ∧ ForwardResult.url r = None)
  ∧ (ForwardResult.success r = true →
     ForwardResult.url r = Some (publicUrl configs filename)).
Proof.
  intros [-> | [-> | [[msg ->] | [[msg ->] | ->]]]]; simpl;
    (split; [intros _; split; [discriminate|reflexivity] | discriminate])
    || (split; [discriminate | reflexivity]).
Qed.

(** With a complete configuration and a connect that does not throw, the
    timer stays pending as long as the client only becomes ready: it is a
    put callback or an error that clears it. *)
Lemma timer_pending_until_callback es p log :
  missing_configuration configs = false →
  Forall (λ e, e = Ready) es →
  timeoutHandle (deliver configs buffer filename es (executor configs None (init p log)))
  = true.
Proof.
  intros Hc Hes. unfold executor. rewrite Hc.
  assert (Hstart : timeoutHandle (listen (setTimeout (init p log))) = true) by reflexivity.
  revert Hstart. generalize (listen (setTimeout (init p log))).
  induction Hes as [|e es He Hes IH]; intros f Hf; [exact Hf|].
  subst e. apply IH. simpl. destruct (listening f); exact Hf.
Qed.

Lemma handle_count f e :
  Pool.activeConnections (ftpPool (handle configs buffer filename f e))
  ≤ Pool.activeConnections (ftpPool f).
Proof.
  destruct e as [| |err|msg]; simpl.
  - destruct (timeoutHandle f); simpl; lia.
  - destruct (listening f); simpl; lia.
  - destruct (pending_puts f); [lia|]. destruct err; simpl; lia.
  - destruct (listening f); simpl; lia.
Qed.

Lemma deliver_count es f :
  Pool.activeConnections (ftpPool (deliver configs buffer filename es f))
  ≤ Pool.activeConnections (ftpPool f).
Proof.
  revert f. induction es as [|e es IH]; intros f; [simpl; lia|].
  simpl. etransitivity; [apply IH|apply handle_count].
Qed.

Lemma executor_count thrown f :
  Pool.activeConnections (ftpPool (executor configs thrown f))
  ≤ Pool.activeConnections (ftpPool f).
Proof.
  unfold executor. destruct (missing_configuration configs); [simpl; lia|].
  destruct thrown; simpl; lia.
Qed.

End Call.

End ForwarderFacts.

(** C7. When the timer of a forward fires while it is still pending (the
    session has completed neither with a put callback nor with an error),
    the call resolves with the timeout failure, the client is destroyed and
    released: the live count drops by one, below the capacity, so that the
    next getConnection is served at once. *)
Theorem timeout_resolves_and_releases
    (configs : Config.t) (buffer : list byte) (filename : string)
    (s : FtpSession) (p : Pool.t) (log : list string) :
  Pool.activeConnections p ≤ FTP_POOL_SIZE →
  let f := Forwarder.deliver configs buffer filename (script s)
             (Forwarder.executor configs (connect_throws s) (Forwarder.init p log)) in
  Forwarder.timeoutHandle f = true →
  let f' := Forwarder.handle configs buffer filename f Timeout in
  Forwarder.settled f' = Some Forwarder.TIMED_OUT
  ∧ ForwardResult.success Forwarder.TIMED_OUT = false
  ∧ ForwardResult.message Forwarder.TIMED_OUT = "FTP connection timeout"
  ∧ Forwarder.resolutions f' = 1%nat
  ∧ Forwarder.destroyed f' = true
  ∧ Pool.activeConnections (Forwarder.ftpPool f')
    = Pool.activeConnections (Forwarder.ftpPool f) - 1
  ∧ is_Some (Pool.acquire (Forwarder.ftpPool f')).
Proof.
  intros Hp f Htimer f'.
  pose proof (ForwarderFacts.deliver_invariant configs buffer filename (script s) _
                (ForwarderFacts.executor_invariant configs filename
                   (connect_throws s) p log)) as (_ & Ht & _).
  fold f in Ht. destruct (Ht Htimer) as [Hnone Hzero].
  assert (Hc : Pool.activeConnections (Forwarder.ftpPool f) ≤ FTP_POOL_SIZE).
  { etransitivity; [apply ForwarderFacts.deliver_count|].
    etransitivity; [apply ForwarderFacts.executor_count|exact Hp]. }
  subst f'. simpl. rewrite Htimer. simpl. rewrite Hnone, Hzero.
  repeat (split; [reflexivity|]).
  unfold Pool.acquire. simpl.
  destruct (Z.ltb_spec (Pool.activeConnections (Forwarder.ftpPool f) - 1) FTP_POOL_SIZE);
    [eauto|lia].
Qed.

(** The client connects, becomes ready, and the put never calls back. *)
Lemma timeout_resolves_and_releases_witness :
  let p := {| Pool.pool := []; Pool.activeConnections := 5 |} in
  let s := {| connect_throws := None; script := [Ready] |} in
  let f := Forwarder.deliver Sample.with_ftp [] "a.png" (script s)
             (Forwarder.executor Sample.with_ftp (connect_throws s) (Forwarder.init p [])) in
  Forwarder.timeoutHandle f = true
  ∧ Forwarder.settled (Forwarder.handle Sample.with_ftp [] "a.png" f Timeout)
    = Some Forwarder.TIMED_OUT
  ∧ Pool.activeConnections
      (Forwarder.ftpPool (Forwarder.handle Sample.with_ftp [] "a.png" f Timeout)) = 4
  ∧ is_Some (Pool.acquire
               (Forwarder.ftpPool (Forwarder.handle Sample.with_ftp [] "a.png" f Timeout))).
Proof.
  intros p s f.
  assert (Hp : Pool.activeConnections p ≤ FTP_POOL_SIZE) by (vm_compute; discriminate).
  assert (Htimer : Forwarder.timeoutHandle f = true) by reflexivity.
  destruct (timeout_resolves_and_releases Sample.with_ftp [] "a.png" s p [] Hp Htimer)
    as (Hset & _ & _ & _ & _ & Hcount & Hacquire).
  split; [exact Htimer|]. split; [exact Hset|]. split; [exact Hcount|exact Hacquire].
Defined.

(** C6 (the code at the failing input). For every configuration, input
    and behaviour of the client the call resolves, to one of the results
    that the source constructs, and a failure carries a reason. But the
    resolution paths are not exclusive: when the client raises an event
    after the timer has fired (here its own connect timeout, as an 'error'),
    the timer path and the error path both run; the promise keeps the first
    result, and the client is released twice. *)
Theorem forward_resolves_but_two_paths_may_run :
  (∀ configs buffer filename s p log,
     ∃ r, Forwarder.settled
            (Forwarder.session configs buffer filename s (Forwarder.init p log)) = Some r
          ∧ Forwarder.known_result configs filename r
          ∧ (ForwardResult.success r = false → ForwardResult.message r ≠ ""))
  ∧ (let p := {| Pool.pool := []; Pool.activeConnections := 1 |} in
     let s := {| connect_throws := None;
                 script := [Timeout; Error "Timeout while connecting to server"] |} in
     let f := Forwarder.session Sample.with_ftp [] "a.png" s (Forwarder.init p []) in
     Forwarder.settled f = Some Forwarder.TIMED_OUT
     ∧ Forwarder.resolutions f = 2%nat
     ∧ Pool.activeConnections (Forwarder.ftpPool f) = -1).
Proof.
  split; [|repeat split].
  intros configs buffer filename s p log.
  destruct (ForwarderFacts.session_settles configs buffer filename s p log)
    as (r & Hr & Hk).
  exists r. split; [exact Hr|]. split; [exact Hk|].
  intros Hfail. apply (ForwarderFacts.known_result_message configs filename r Hk), Hfail.
Qed.

(** ** The data URL pattern *)

Module RegExpFacts.
Import RegExp.

Lemma append_String c a b : String c a +:+ b = String c (a +:+ b).
Proof. reflexivity. Qed.

Lemma append_empty a : a +:+ "" = a.
Proof.
  induction a as [|c a IH]; [reflexivity|]. rewrite append_String. f_equal. exact IH.
Qed.

Lemma strip_prefix_app p s : strip_prefix p (p +:+ s) = Some s.
Proof.
  induction p as [|a p IH]; [reflexivity|].
  rewrite append_String. simpl. rewrite Ascii.eqb_refl. exact IH.
Qed.

Lemma strip_prefix_Some p s r : strip_prefix p s = Some r → s = p +:+ r.
Proof.
  revert s. induction p as [|a p IH]; intros s; simpl.
  - intros [= ->]. reflexivity.
  - destruct s as [|b s]; [discriminate|].
    destruct (Ascii.eqb_spec a b) as [->|]; [|discriminate].
    intros H. apply IH in H. subst. reflexivity.
Qed.

Lemma take_drop n s : string_take n s +:+ string_drop n s = s.
Proof.
  revert s. induction n as [|n IH]; intros s; [reflexivity|].
  destruct s as [|c s]; [reflexivity|]. simpl. rewrite append_String. f_equal. apply IH.
Qed.

Lemma take_length a b : string_take (String.length a) (a +:+ b) = a.
Proof.
  induction a as [|c a IH]; [destruct b; reflexivity|].
  rewrite append_String. simpl. f_equal. exact IH.
Qed.

Lemma drop_length a b : string_drop (String.length a) (a +:+ b) = b.
Proof.
  induction a as [|c a IH]; [reflexivity|]. rewrite append_String. simpl. exact IH.
Qed.

Lemma take_nonempty n s : string_take (S n) s = "" → s = "".
Proof. destruct s; [reflexivity|discriminate]. Qed.

(** A prefix no longer than the run consists of characters of the class. *)
Lemma take_in_class cls s n :
  (n ≤ run_length cls s)%nat → string_forallb cls (string_take n s) = true.
Proof.
  revert s. induction n as [|n IH]; intros s Hn; [reflexivity|].
  destruct s as [|c s]; [reflexivity|]. simpl in *.
  destruct (cls c); [|lia]. simpl. apply IH. lia.
Qed.

Lemma run_length_app cls a b :
  string_forallb cls a = true →
  run_length cls (a +:+ b) = (String.length a + run_length cls b)%nat.
Proof.
  induction a as [|c a IH]; intros Ha; [reflexivity|].
  rewrite append_String. simpl in *.
  apply andb_true_iff in Ha as [Hc Ha]. rewrite Hc. f_equal. apply IH, Ha.
Qed.

Lemma run_length_all cls a :
  string_forallb cls a = true → run_length cls a = String.length a.
Proof.
  induction a as [|c a IH]; intros Ha; [reflexivity|].
  simpl in *. apply andb_true_iff in Ha as [Hc Ha]. rewrite Hc. f_equal. apply IH, Ha.
Qed.

Lemma backtrack_Some k s N l :
  backtrack k s N = Some l →
  ∃ n caps, (n < N)%nat ∧ k (string_drop (S n) s) = Some caps
            ∧ l = string_take (S n) s :: caps.
Proof.
  induction N as [|N IH]; [discriminate|]. cbn [backtrack].
  destruct (k (string_drop (S N) s)) as [caps|] eqn:Hk.
  - intros [= <-]. exists N, caps. auto.
  - intros H. apply IH in H as (n & caps & Hn & Hc & Hl).
    exists n, caps. split; [lia|auto].
Qed.

Lemma backtrack_first k s n caps :
  k (string_drop (S n) s) = Some caps →
  backtrack k s (S n) = Some (string_take (S n) s :: caps).
Proof. intros Hk. cbn [backtrack]. rewrite Hk. reflexivity. Qed.

Lemma eqb_empty s : String.eqb s "" = true ↔ s = "".
Proof. apply String.eqb_eq. Qed.

(** What a match of the data URL pattern says about the string. *)
Lemma match_DATA_URL_sound s l :
  match_ DATA_URL s = Some l →
  ∃ type data,
    l = [s; type; data]
    ∧ s = "data:image/" +:+ type +:+ ";base64," +:+ data
    ∧ type ≠ "" ∧ string_forallb subtype_char type = true
    ∧ data ≠ "" ∧ string_forallb dot data = true.
Proof.
  unfold match_, DATA_URL. cbn [exec].
  destruct (strip_prefix "data:image/" s) as [r1|] eqn:H1; [|discriminate].
  apply strip_prefix_Some in H1.
  destruct (backtrack _ r1 _) as [caps|] eqn:H2; [|discriminate].
  intros [= <-].
  apply backtrack_Some in H2 as (n & caps2 & Hn & H2 & ->).
  destruct (strip_prefix ";base64," (string_drop (S n) r1)) as [r2|] eqn:H3;
    [|discriminate].
  apply strip_prefix_Some in H3.
  apply backtrack_Some in H2 as (m & caps3 & Hm & H4 & ->).
  destruct (String.eqb (string_drop (S m) r2) "") eqn:H5; [|discriminate].
  injection H4 as <-. apply eqb_empty in H5.
  pose proof (take_drop (S m) r2) as Hr2. rewrite H5, append_empty in Hr2.
  rename Hr2 into Hdata.
  exists (string_take (S n) r1), r2. rewrite Hdata.
  split; [reflexivity|]. split.
  - rewrite H1 at 1. f_equal. rewrite <- H3. symmetry. apply take_drop.
  - split; [intros He; apply take_nonempty in He; subst r1; simpl in Hn; lia|].
    split; [apply take_in_class; lia|].
    split; [intros ->; simpl in Hm; lia|].
    rewrite <- Hdata. apply take_in_class. lia.
Qed.

(** Every string of the form of the pattern matches, with these captures. *)
Lemma match_DATA_URL_complete type data :
  type ≠ "" → string_forallb subtype_char type = true →
  data ≠ "" → string_forallb dot data = true →
  let s := "data:image/" +:+ type +:+ ";base64," +:+ data in
  match_ DATA_URL s = Some [s; type; data].
Proof.
  intros Ht Htc Hd Hdc s. unfold match_, DATA_URL. cbn [exec].
  unfold s. rewrite strip_prefix_app.
  rewrite (run_length_app _ type _ Htc). simpl (run_length _ (";base64," +:+ data)).
  rewrite Nat.add_0_r.
  destruct type as [|c type]; [done|].
  remember (String c type) as ty.
  assert (Hlen : String.length ty = S (String.length type)) by (subst; reflexivity).
  rewrite Hlen.
  rewrite (backtrack_first _ _ _ [data]).
  - rewrite <- Hlen, take_length. reflexivity.
  - rewrite <- Hlen, drop_length, strip_prefix_app.
    rewrite (run_length_all _ data Hdc).
    destruct data as [|d data]; [done|].
    remember (String d data) as da.
    assert (Hlen' : String.length da = S (String.length data)) by (subst; reflexivity).
    rewrite Hlen'. rewrite (backtrack_first _ _ _ []).
    + rewrite <- Hlen'. f_equal. f_equal.
      pose proof (take_length da "") as Htl. rewrite append_empty in Htl. exact Htl.
    + rewrite <- Hlen'.
      pose proof (drop_length da "") as Hdl. rewrite append_empty in Hdl.
      rewrite Hdl. reflexivity.
Qed.

End RegExpFacts.

(** ** Running a handler *)

Module Run.

Lemma bind_run {A B} (m : M A) (k : A → M B) s o s' t :
  bind m k s = (o, s', t) →
  (∃ a s1 t1 t2, m s = (Returned a, s1, t1) ∧ k a s1 = (o, s', t2) ∧ t = (t1 ++ t2)%list)
  ∨ (∃ e, m s = (Thrown e, s', t) ∧ o = Thrown e)
  ∨ (m s = (Pending, s', t) ∧ o = Pending).
Proof.
  unfold bind. destruct (m s) as [[[a|e|] s1] t1].
  - destruct (k a s1) as [[o2 s2] t2] eqn:Hk. intros [= <- <- <-].
    left. exists a, s1, t1, t2. auto.
  - intros [= <- <- <-]. right. left. eauto.
  - intros [= <- <- <-]. right. right. auto.
Qed.

Lemma try_catch_run {A} (body : M A) (handler : string → M A) s o s' t :
  try_catch body handler s = (o, s', t) →
  (∃ e s1 t1 t2, body s = (Thrown e, s1, t1) ∧ handler e s1 = (o, s', t2)
                 ∧ t = (t1 ++ t2)%list)
  ∨ (body s = (o, s', t) ∧ ∀ e, o ≠ Thrown e).
Proof.
  unfold try_catch. destruct (body s) as [[[a|e|] s1] t1].
  - intros [= <- <- <-]. right. split; [reflexivity|discriminate].
  - destruct (handler e s1) as [[o2 s2] t2] eqn:Hh. intros [= <- <- <-].
    left. exists e, s1, t1, t2. auto.
  - intros [= <- <- <-]. right. split; [reflexivity|discriminate].
Qed.

Section Calls.
Context {RT : Runtime} (env : Env).

Lemma mkdir_run p s o s' t :
  mkdir env p s = (o, s', t) →
  t = [Mkdir p true]
  ∧ ((∃ e, fs_fault env (FsMkdir p) = Some e ∧ o = Thrown e ∧ s' = s)
     ∨ (fs_fault env (FsMkdir p) = None ∧ o = Returned tt
        ∧ s' = {| fs_dirs := {[p]} ∪ list_to_set (ancestors (String.length p) p)
                              ∪ fs_dirs s;
                  fs_files := fs_files s; ftpPool := ftpPool s;
                  error_log := error_log s |})).
Proof.
  unfold mkdir. destruct (fs_fault env (FsMkdir p)) as [e|]; intros [= <- <- <-];
    (split; [reflexivity|]); [left|right]; eauto.
Qed.

Lemma writeFile_run p data s o s' t :
  writeFile env p data s = (o, s', t) →
  t = [WriteFile p data]
  ∧ ((∃ e, fs_fault env (FsWriteFile p) = Some e ∧ o = Thrown e ∧ s' = s)
     ∨ (fs_fault env (FsWriteFile p) = None ∧ o = Returned tt
        ∧ s' = {| fs_dirs := fs_dirs s; fs_files := <[p := data]> (fs_files s);
                  ftpPool := ftpPool s; error_log := error_log s |})).
Proof.
  unfold writeFile. destruct (fs_fault env (FsWriteFile p)) as [e|];
    intros [= <- <- <-]; (split; [reflexivity|]); [left|right]; eauto.
Qed.

(** An awaited forward never throws: it resolves to one of the results
    of the source, or the caller is still waiting for a client. *)
Lemma uploadToFtp_run buffer filename s o s' t :
  uploadToFtp env buffer filename s = (o, s', t) →
  (Pool.acquire (ftpPool s) = None ∧ o = Pending ∧ s' = s
   ∧ t = [UploadToFtp buffer filename])
  ∨ (∃ p r,
       Pool.acquire (ftpPool s) = Some p ∧ o = Returned r
       ∧ Forwarder.known_result (configs env) filename r
       ∧ t = [UploadToFtp buffer filename; Forwarded r]
       ∧ s' = {| fs_dirs := fs_dirs s; fs_files := fs_files s;
                 ftpPool := Forwarder.ftpPool
                              (Forwarder.session (configs env) buffer filename
                                 (ftp_session env) (Forwarder.init p (error_log s)));
                 error_log := Forwarder.error_log
                                (Forwarder.session (configs env) buffer filename
                                   (ftp_session env) (Forwarder.init p (error_log s))) |}).
Proof.
  unfold uploadToFtp. destruct (Pool.acquire (ftpPool s)) as [p|].
  - destruct (ForwarderFacts.session_settles (configs env) buffer filename
                (ftp_session env) p (error_log s)) as (r & Hr & Hk).
    rewrite Hr. intros [= <- <- <-]. right. exists p, r. auto 6.
  - intros [= <- <- <-]. left. auto.
Qed.

End Calls.

End Run.

(** Follow the run [H : handler s = (o, s', t)] through the handler, one
    case for each way the run can go. *)
Ltac run1 H :=
  cbv beta zeta in H;
  lazymatch type of H with
  | ret _ _ = _ => unfold ret in H; simplify_eq
  | throw _ _ = _ => unfold throw in H; simplify_eq
  | access _ _ = _ => unfold access in H; simplify_eq
  | logErrorToFile _ _ = _ => unfold logErrorToFile in H; simplify_eq
  | mkdir _ _ _ = _ =>
      apply Run.mkdir_run in H as [? [(? & ? & ? & ?)|(? & ? & ?)]]; simplify_eq
  | writeFile _ _ _ _ = _ =>
      apply Run.writeFile_run in H as [? [(? & ? & ? & ?)|(? & ? & ?)]]; simplify_eq
  | uploadToFtp _ _ _ _ = _ =>
      apply Run.uploadToFtp_run in H
        as [(? & ? & ? & ?)|(? & ? & ? & ? & ? & ? & ?)]; simplify_eq
  | read_payload _ _ = _ => unfold read_payload in H; run1 H
  | JSON_parse _ _ = _ => unfold JSON_parse in H; run1 H
  | bind _ _ _ = _ =>
      let Hm := fresh "Hm" in let Hk := fresh "Hk" in
      apply Run.bind_run in H
        as [(? & ? & ? & ? & Hm & Hk & ?)|[(? & Hm & ?)|(Hm & ?)]];
      simplify_eq; run1 Hm; try run1 Hk
  | try_catch _ _ _ = _ =>
      let Hm := fresh "Hb" in let Hk := fresh "Hh" in
      let Hn := fresh "Hnt" in
      apply Run.try_catch_run in H
        as [(? & ? & ? & ? & Hm & Hk & ?)|(Hm & Hn)];
      [ simplify_eq; run1 Hm; try run1 Hk
      | simplify_eq; run1 Hm; try solve [exfalso; eapply Hn; reflexivity]; clear Hn ]
  | (if ?c then _ else _) _ = _ =>
      let Hc := fresh "Hc" in destruct c eqn:Hc; run1 H
  | (match RegExp.match_ ?re ?b with _ => _ end) _ = _ =>
      let Hr := fresh "Hmatch" in
      destruct (RegExp.match_ re b) eqn:Hr;
      [ let Hs := fresh "Hurl" in
        pose proof Hr as Hs;
        apply RegExpFacts.match_DATA_URL_sound in Hs as (? & ? & ? & Hs);
        simplify_eq; cbv iota in H; run1 H
      | run1 H ]
  | (match ?x with _ => _ end) _ = _ =>
      let Hx := fresh "Hx" in destruct x eqn:Hx; run1 H
  | _ => idtac
  end.

(** ** The handlers *)

Module HandlerFacts.

Lemma exists_path_true s p :
  exists_path s p = true ↔ p ∈ fs_dirs s ∨ is_Some (fs_files s !! p).
Proof.
  unfold exists_path. rewrite orb_true_iff, !bool_decide_eq_true. reflexivity.
Qed.

End HandlerFacts.

(** In a leaf of a run: decide membership of a call in the trace. *)
Ltac trace_in H :=
  simpl in H; repeat (destruct H as [H|H]; try discriminate H); try contradiction H.

(** C2. When the forward of an inline or multipart upload resolves with a
    failure (the file has then been written, the ftp flag was set), the
    response still reports success, carries the local path and a message
    that ends with the reason of the failure; when the forward of a
    remote-only upload fails, the response reports failure, with the reason. *)
Theorem forward_failure_downgrades_only_the_message
    `{RT : Runtime} (env : Env) (r : ForwardResult.t) :
  ForwardResult.success r = false →
  (∀ req savePath printPath s o s' t,
     uploadImage env req savePath printPath s = (o, s', t) → In (Forwarded r) t →
     ∃ jsonObj filePath data resp,
       body req = Parsed jsonObj ∧ Js.truthy_bool (ftp jsonObj) = true
       ∧ In (WriteFile filePath data) t ∧ fs_files s' !! filePath = Some data
       ∧ ForwardResult.message r ≠ ""
       ∧ o = Returned resp
       ∧ Response.success resp = true ∧ Response.status resp = HTTP_STATUS_OK
       ∧ Response.local_path resp = Some filePath
       ∧ Response.message resp
         = "Image uploaded locally but FTP upload failed: " +:+ ForwardResult.message r)
  ∧ (∀ req s o s' t,
       uploadFile env req s = (o, s', t) → In (Forwarded r) t →
       ∃ form file filePath resp,
         formData req = inr form ∧ is_true (FormData.ftp form) = true
         ∧ FormData.file form = Some file
         ∧ In (WriteFile filePath (File.bytes file)) t
         ∧ fs_files s' !! filePath = Some (File.bytes file)
         ∧ ForwardResult.message r ≠ ""
         ∧ o = Returned resp
         ∧ Response.success resp = true ∧ Response.status resp = HTTP_STATUS_OK
         ∧ Response.local_path resp = Some filePath
         ∧ Response.message resp
           = "File uploaded locally but FTP upload failed: " +:+ ForwardResult.message r)
  ∧ (∀ req s o s' t,
       uploadImageToFtp env req s = (o, s', t) → In (Forwarded r) t →
       ∃ resp,
         o = Returned resp
         ∧ Response.success resp = false
         ∧ Response.status resp = HTTP_STATUS_SERVER_ERROR
         ∧ Response.message resp = ForwardResult.message r
         ∧ ForwardResult.message r ≠ ""
         ∧ Response.local_path resp = None
         ∧ fs_files s' = fs_files s ∧ ∀ p d, ¬ In (WriteFile p d) t).
Proof.
  intros Hfail. split; [|split].
  - intros req savePath printPath s o s' t Hrun Hin.
    unfold uploadImage in Hrun. run1 Hrun; trace_in Hin; simplify_eq.
    all: try congruence.
    all: match goal with
         | Hk : Forwarder.known_result _ _ _ |- _ =>
             apply ForwarderFacts.known_result_message in Hk as [Hk _];
             destruct (Hk Hfail) as [Hmsg _]
         end.
    all: eexists _, _, _, _; split; [reflexivity|]; split; [assumption|].
    all: split; [simpl; eauto 10|]; split; [simpl; apply lookup_insert_eq|].
    all: split; [exact Hmsg|]; split; [reflexivity|]; repeat split.
  - intros req s o s' t Hrun Hin.
    unfold uploadFile in Hrun. run1 Hrun; trace_in Hin; simplify_eq.
    all: try congruence.
    all: match goal with
         | Hk : Forwarder.known_result _ _ _ |- _ =>
             apply ForwarderFacts.known_result_message in Hk as [Hk _];
             destruct (Hk Hfail) as [Hmsg _]
         end.
    all: eexists _, _, _, _; split; [reflexivity|]; split; [assumption|].
    all: split; [eassumption|].
    all: split; [simpl; eauto 10|]; split; [simpl; apply lookup_insert_eq|].
    all: split; [exact Hmsg|]; split; [reflexivity|]; repeat split.
  - intros req s o s' t Hrun Hin.
    unfold uploadImageToFtp in Hrun. run1 Hrun; trace_in Hin; simplify_eq.
    all: try congruence.
    all: match goal with
         | Hk : Forwarder.known_result _ _ _ |- _ =>
             apply ForwarderFacts.known_result_message in Hk as [Hk _];
             destruct (Hk Hfail) as [Hmsg _]
         end.
    all: eexists; split; [reflexivity|]; repeat (split; [reflexivity || exact Hmsg|]).
    all: intros p d Hw; trace_in Hw.
Qed.

(** The outcome and the calls of a run on sample data, by computation. *)
Ltac known_calls Hrun :=
  let Ht := fresh "Ht" in
  pose proof (f_equal snd Hrun) as Ht; vm_compute in Ht; subst.

Ltac known_outcome Hrun :=
  let Ho := fresh "Ho" in
  pose proof (f_equal (λ r, fst (fst r)) Hrun) as Ho; vm_compute in Ho; subst.

(** No FTP destination is configured: the forward fails before it connects. *)
Lemma forward_failure_downgrades_only_the_message_witness :
  let env := Sample.env Sample.no_ftp [] in
  (∃ resp s' t,
     uploadImage env (Sample.png None (Some true) None)
       "/srv/SAVE_IMAGES" "/srv/PRINT_IMAGES" Sample.idle = (Returned resp, s', t)
     ∧ Response.success resp = true
     ∧ Response.local_path resp = Some "/srv/SAVE_IMAGES/test-22_Dec_2025-22_0_0.png")
  ∧ (∃ resp s' t,
       uploadFile env (Sample.multipart [x01%byte] None (Some "true")) Sample.idle
       = (Returned resp, s', t)
       ∧ Response.success resp = true
       ∧ Response.local_path resp
         = Some "/srv/SAVE_IMAGES/photo_9f86d081884c_22_Dec_2025-22_0_0.jpg")
  ∧ (∃ resp s' t,
       uploadImageToFtp env (Sample.png None None None) Sample.idle = (Returned resp, s', t)
       ∧ Response.success resp = false
       ∧ Response.status resp = 500).
Proof.
  intros env.
  destruct (forward_failure_downgrades_only_the_message env
              Forwarder.MISSING_CONFIGURATION eq_refl) as (Hinline & Hfile & Hremote).
  split; [|split].
  - destruct (uploadImage env (Sample.png None (Some true) None)
                "/srv/SAVE_IMAGES" "/srv/PRINT_IMAGES" Sample.idle)
      as [[o s'] t] eqn:Hrun.
    known_calls Hrun. known_outcome Hrun.
    destruct (Hinline _ _ _ _ _ _ _ Hrun)
      as (j & p & d & resp & _ & _ & _ & _ & _ & Ho & Hs & _ & Hp & _);
      [simpl; auto 10|].
    injection Ho as <-. eexists _, _, _. split; [reflexivity|]. split; [exact Hs|reflexivity].
  - destruct (uploadFile env (Sample.multipart [x01%byte] None (Some "true")) Sample.idle)
      as [[o s'] t] eqn:Hrun.
    known_calls Hrun. known_outcome Hrun.
    destruct (Hfile _ _ _ _ _ Hrun)
      as (f & fl & p & resp & _ & _ & _ & _ & _ & _ & Ho & Hs & _ & Hp & _);
      [simpl; auto 10|].
    injection Ho as <-. eexists _, _, _. split; [reflexivity|]. split; [exact Hs|reflexivity].
  - destruct (uploadImageToFtp env (Sample.png None None None) Sample.idle)
      as [[o s'] t] eqn:Hrun.
    known_calls Hrun. known_outcome Hrun.
    destruct (Hremote _ _ _ _ _ Hrun) as (resp & Ho & Hs & Hst & _); [simpl; auto 10|].
    injection Ho as <-. eexists _, _, _. split; [reflexivity|]. split; [exact Hs|exact Hst].
Defined.

Module TargetFacts.

Lemma made_self `{RT : Runtime} p (ds : gset string) :
  p ∈ ({[p]} ∪ list_to_set (ancestors (String.length p) p) ∪ ds : gset string).
Proof. set_solver. Qed.

Lemma made_ancestor `{RT : Runtime} p d (ds : gset string) :
  In d (ancestors (String.length p) p) →
  d ∈ ({[p]} ∪ list_to_set (ancestors (String.length p) p) ∪ ds : gset string).
Proof.
  intros Hd. apply elem_of_union_l, elem_of_union_r, elem_of_list_to_set.
  apply list_elem_of_In, Hd.
Qed.

End TargetFacts.

(** In a leaf of a run: the path exists in the final state. *)
Ltac path_exists :=
  try reflexivity;
  apply HandlerFacts.exists_path_true; simpl;
  first
    [ left; set_solver
    | match goal with
      | H : exists_path _ _ = true |- _ =>
          apply HandlerFacts.exists_path_true in H as [H|H];
          [ left; set_solver
          | right; rewrite ?lookup_insert; repeat case_decide; eauto ]
      end ].

(** ** What the handlers check *)

Module ValidationFacts.

Lemma maxSize_configured configs m :
  Config.MAX_FILE_SIZE_MB configs = Some m → m ≠ 0 → maxSize configs = m * 1048576.
Proof.
  intros Hm Hnz. unfold maxSize, Js.or_number. rewrite Hm.
  destruct (Z.eqb_spec m 0); [contradiction|lia].
Qed.

Lemma maxSize_default configs :
  Config.MAX_FILE_SIZE_MB configs = None → maxSize configs = 50 * 1048576.
Proof. intros Hm. unfold maxSize, Js.or_number. rewrite Hm. reflexivity. Qed.

Lemma valid_iff configs size :
  valid (validateFileSize configs size) = true ↔ size ≤ maxSize configs.
Proof.
  unfold validateFileSize. destruct (Z.ltb_spec (maxSize configs) size); simpl;
    split; (discriminate || lia || reflexivity).
Qed.

Lemma invalid_iff configs size :
  negb (valid (validateFileSize configs size)) = true ↔ maxSize configs < size.
Proof.
  rewrite negb_true_iff. pose proof (valid_iff configs size) as Hv.
  destruct (valid (validateFileSize configs size)); split; intros H;
    (discriminate || reflexivity || idtac).
  - assert (size ≤ maxSize configs) by (apply Hv; reflexivity). lia.
  - destruct (Z.le_gt_cases size (maxSize configs)) as [Hle|Hgt]; [|exact Hgt].
    apply Hv in Hle. discriminate.
Qed.

Lemma matched_is_truthy b l :
  RegExp.match_ RegExp.DATA_URL (default "" b) = Some l → Js.truthy_string b = true.
Proof.
  intros Hm. apply RegExpFacts.match_DATA_URL_sound in Hm as (ty & da & _ & Hb & _).
  destruct b as [b|]; simpl in *; [|discriminate Hb]. subst b. reflexivity.
Qed.

End ValidationFacts.

(** In a leaf of a run: confront the run with what is known of the request. *)
Ltac known_request :=
  repeat match goal with
    | H : negb (Js.truthy_string ?b) = true,
      Hm : RegExp.match_ RegExp.DATA_URL (default "" ?b) = Some _ |- _ =>
        apply ValidationFacts.matched_is_truthy in Hm; rewrite Hm in H; discriminate H
    | H : negb (valid (validateFileSize _ _)) = false |- _ =>
        apply negb_false_iff, ValidationFacts.valid_iff in H
    | H : negb (valid (validateFileSize _ _)) = true |- _ =>
        apply ValidationFacts.invalid_iff in H
    end;
  try lia; try congruence.

(** ** The target directory *)

(** In a leaf of a run: the run is the one that the policy describes. *)
Ltac follow_policy :=
  repeat match goal with
    | x := _ |- _ => subst x
    | H : negb _ = _ |- _ => rewrite ?negb_true_iff, ?negb_false_iff in H
    end;
  unfold follows_target_policy, resolved_target; cbv zeta;
  repeat match goal with
    | H : Js.truthy_bool _ = _ |- _ => rewrite H
    | H : is_true _ = _ |- _ => rewrite H
    | H : Js.truthy_string _ = _ |- _ => rewrite H
    | H : exists_path _ _ = _ |- _ => rewrite H
    | H : fs_fault _ (FsMkdir _) = _ |- _ => rewrite H
    end;
  cbn [orb negb];
  (split; [intros ? ? Hin; trace_in Hin; simplify_eq; auto|]);
  first
    [ eexists; reflexivity
    | split; [reflexivity|]; split; [reflexivity|]; split; reflexivity
    | split; [eexists; reflexivity|]; split; [path_exists|];
      intros;
      first
        [ congruence
        | split; [apply TargetFacts.made_self|];
          intros; apply TargetFacts.made_ancestor; assumption ] ].

(** C3. An upload that passed validation persists into the resolved
    directory. With the print flag set this is the print root, whatever the
    folder, and the write is the first call. Otherwise, with a folder (a
    non-empty string: the source tests it for truthiness), it is
    <save root>/<folder>_<client id>: the handler first looks that directory
    up and, when it is absent, creates it together with its parents; then it
    writes into it (when the creation is rejected, the request is answered
    with the error and nothing is written). Otherwise it is the save root,
    and the write is the first call. No upload, valid or not, writes
    anywhere else. *)
Theorem upload_writes_into_resolved_target `{RT : Runtime} (env : Env) :
  (∀ req jsonObj whole type data savePath printPath s o s' t,
     body req = Parsed jsonObj →
     RegExp.match_ RegExp.DATA_URL (default "" (base64 jsonObj)) = Some [whole; type; data] →
     Z.of_nat (length (Buffer_from_base64 data)) ≤ maxSize (configs env) →
     uploadImage env req savePath printPath s = (o, s', t) →
     follows_target_policy env (Js.truthy_bool (print jsonObj)) (folder jsonObj)
       (getClientIdentifier (headers req)) savePath printPath
       (image_filename env (Js.or_string (prefix_name jsonObj) "image") type)
       (Buffer_from_base64 data) s o s' t)
  ∧ (∀ req form file s o s' t,
       formData req = inr form →
       FormData.file form = Some file →
       File.size file ≤ maxSize (configs env) →
       uploadFile env req s = (o, s', t) →
       let fileExtension := Js.or_string (Some (path_extname (File.name file))) "" in
       let baseName :=
         Js.or_string (FormData.prefix_name form)
           (Js.or_string (Some (path_basename (File.name file) fileExtension)) "file") in
       follows_target_policy env (is_true (FormData.print form)) (FormData.folder form)
         (getClientIdentifier (form_headers req)) (SAVE_PATH env) (PRINT_PATH env)
         (file_filename env baseName (getClientIdentifier (form_headers req)) fileExtension)
         (File.bytes file) s o s' t)
  ∧ (∀ req jsonObj savePath printPath s o s' t p data,
       body req = Parsed jsonObj →
       uploadImage env req savePath printPath s = (o, s', t) →
       In (WriteFile p data) t →
       ∃ filename,
         p = path_join
               (resolved_target (Js.truthy_bool (print jsonObj)) (folder jsonObj)
                  (getClientIdentifier (headers req)) savePath printPath)
               filename)
  ∧ (∀ req form s o s' t p data,
       formData req = inr form →
       uploadFile env req s = (o, s', t) →
       In (WriteFile p data) t →
       ∃ filename,
         p = path_join
               (resolved_target (is_true (FormData.print form)) (FormData.folder form)
                  (getClientIdentifier (form_headers req)) (SAVE_PATH env) (PRINT_PATH env))
               filename).
Proof.
  split; [|split; [|split]].
  - intros req jsonObj whole type data savePath printPath s o s' t Hbody Hm Hsize Hrun.
    unfold uploadImage in Hrun. run1 Hrun; simplify_eq; known_request.
    all: follow_policy.
  - intros req form file s o s' t Hform Hfile Hsize Hrun fileExtension baseName.
    unfold uploadFile in Hrun. run1 Hrun; simplify_eq; known_request.
    all: follow_policy.
  - intros req jsonObj savePath printPath s o s' t p data Hbody Hrun Hin.
    unfold uploadImage in Hrun. run1 Hrun; trace_in Hin; simplify_eq.
    all: unfold resolved_target.
    all: repeat match goal with
           | H : Js.truthy_bool _ = _ |- _ => rewrite H
           | H : Js.truthy_string _ = _ |- _ => rewrite H
           end.
    all: eexists; reflexivity.
  - intros req form s o s' t p data Hform Hrun Hin.
    unfold uploadFile in Hrun. run1 Hrun; trace_in Hin; simplify_eq.
    all: unfold resolved_target.
    all: repeat match goal with
           | H : is_true _ = _ |- _ => rewrite H
           | H : Js.truthy_string _ = _ |- _ => rewrite H
           end.
    all: eexists; reflexivity.
Qed.

(** The folder "album" of a client whose directory does not exist yet, in
    an inline and in a multipart upload. *)
Lemma upload_writes_into_resolved_target_witness :
  let env := Sample.env Sample.no_ftp [] in
  let target := "/srv/SAVE_IMAGES/album_9f86d081884c" in
  (∃ o s' rest,
     uploadImage env (Sample.png (Some "album") None None)
       "/srv/SAVE_IMAGES" "/srv/PRINT_IMAGES" Sample.idle
     = (o, s',
        ([Access target; Mkdir target true;
          WriteFile "/srv/SAVE_IMAGES/album_9f86d081884c/test-22_Dec_2025-22_0_0.png"
            [x89; x50; x4e; x47; x0d; x0a; x1a; x0a]%byte] ++ rest)%list)
     ∧ target ∈ fs_dirs s'
     ∧ exists_path s' target = true)
  ∧ (∃ o s' rest,
       uploadFile env (Sample.multipart [x01%byte] (Some "album") None) Sample.idle
       = (o, s',
          ([Access target; Mkdir target true;
            WriteFile
              "/srv/SAVE_IMAGES/album_9f86d081884c/photo_9f86d081884c_22_Dec_2025-22_0_0.jpg"
              [x01%byte]] ++ rest)%list)
       ∧ target ∈ fs_dirs s'
       ∧ exists_path s' target = true).
Proof.
  intros env target.
  destruct (upload_writes_into_resolved_target env) as (Hinline & Hfile & _).
  split.
  - destruct (uploadImage env (Sample.png (Some "album") None None)
                "/srv/SAVE_IMAGES" "/srv/PRINT_IMAGES" Sample.idle)
      as [[o s'] t] eqn:Hrun.
    specialize (Hinline (Sample.png (Some "album") None None) _
                  "data:image/png;base64,iVBORw0KGgo=" "png" "iVBORw0KGgo="
                  _ _ _ _ _ _ eq_refl eq_refl ltac:(vm_compute; discriminate) Hrun).
    destruct Hinline as (_ & (rest & Ht) & Hexists & Hmade).
    destruct Hmade as [Hdir _]; [reflexivity|].
    exists o, s', rest. split; [rewrite Ht; reflexivity|]. split; [exact Hdir|exact Hexists].
  - destruct (uploadFile env (Sample.multipart [x01%byte] (Some "album") None) Sample.idle)
      as [[o s'] t] eqn:Hrun.
    specialize (Hfile (Sample.multipart [x01%byte] (Some "album") None) _ _
                  _ _ _ _ eq_refl eq_refl ltac:(vm_compute; discriminate) Hrun).
    destruct Hfile as (_ & (rest & Ht) & Hexists & Hmade).
    destruct Hmade as [Hdir _]; [reflexivity|].
    exists o, s', rest. split; [rewrite Ht; reflexivity|]. split; [exact Hdir|exact Hexists].
Defined.

(** ** Lines, and decimal numbers *)

Module LineFacts.
Import RegExp Text Line.

Lemma forallb_app P a b : string_forallb P (a +:+ b) = string_forallb P a && string_forallb P b.
Proof.
  induction a as [|c a IH]; [reflexivity|].
  rewrite RegExpFacts.append_String. simpl. rewrite IH, andb_assoc. reflexivity.
Qed.

Lemma forallb_impl (P Q : ascii → bool) s :
  (∀ c, P c = true → Q c = true) → string_forallb P s = true → string_forallb Q s = true.
Proof.
  intros HPQ. induction s as [|c s IH]; [reflexivity|]. simpl.
  intros [Hc Hs]%andb_true_iff. rewrite (HPQ c Hc), IH by exact Hs. reflexivity.
Qed.

(** *** split and join *)

Lemma split_nonempty sep s : split sep s ≠ [].
Proof.
  destruct s as [|c s]; [discriminate|]. simpl.
  destruct (Ascii.eqb c sep); [discriminate|]. destruct (split sep s); discriminate.
Qed.

Lemma split_no_sep sep s :
  string_forallb (λ c, negb (Ascii.eqb c sep)) s = true → split sep s = [s].
Proof.
  induction s as [|c s IH]; [reflexivity|]. simpl.
  intros [Hc Hs]%andb_true_iff. apply negb_true_iff in Hc. rewrite Hc, IH by exact Hs.
  reflexivity.
Qed.

Lemma split_app sep a b :
  split sep (a +:+ String sep b) = (split sep a ++ split sep b)%list.
Proof.
  induction a as [|c a IH].
  - simpl. rewrite Ascii.eqb_refl. reflexivity.
  - rewrite RegExpFacts.append_String. simpl. destruct (Ascii.eqb c sep).
    + rewrite IH. reflexivity.
    + rewrite IH. pose proof (split_nonempty sep a) as Hne.
      destruct (split sep a); [congruence|reflexivity].
Qed.

Lemma split_forall P sep s :
  string_forallb P s = true → Forall (λ piece, string_forallb P piece = true) (split sep s).
Proof.
  induction s as [|c s IH]; [repeat constructor|]. simpl.
  intros [Hc Hs]%andb_true_iff. specialize (IH Hs).
  destruct (Ascii.eqb c sep); [constructor; [reflexivity|exact IH]|].
  destruct (split sep s) as [|piece rest].
  - repeat constructor. simpl. rewrite Hc. reflexivity.
  - inversion IH; subst. constructor; [|assumption]. simpl. rewrite Hc. assumption.
Qed.

(** The pieces of a split do not hold the separator. *)
Lemma split_pieces sep s :
  Forall (λ piece, string_forallb (λ c, negb (Ascii.eqb c sep)) piece = true) (split sep s).
Proof.
  induction s as [|c s IH]; [repeat constructor|]. simpl.
  destruct (Ascii.eqb c sep) eqn:Hc; [constructor; [reflexivity|exact IH]|].
  destruct (split sep s) as [|piece rest].
  - repeat constructor. simpl. rewrite Hc. reflexivity.
  - inversion IH; subst. constructor; [|assumption]. simpl. rewrite Hc. assumption.
Qed.

Lemma split_join sep lines :
  lines ≠ [] →
  Forall (λ line, string_forallb (λ c, negb (Ascii.eqb c sep)) line = true) lines →
  split sep (join (String sep "") lines) = lines.
Proof.
  intros Hne Hall. induction Hall as [|line rest Hline Hrest IH]; [congruence|].
  destruct rest as [|line' rest'].
  - simpl. apply split_no_sep, Hline.
  - change (join (String sep "") (line :: line' :: rest'))
      with (line +:+ String sep "" +:+ join (String sep "") (line' :: rest')).
    change (String sep "" +:+ join (String sep "") (line' :: rest'))
      with (String sep (join (String sep "") (line' :: rest'))).
    rewrite split_app, split_no_sep by exact Hline.
    rewrite IH by discriminate. reflexivity.
Qed.

(** *** trim *)

Lemma trimStart_forall P s : string_forallb P s = true → string_forallb P (trimStart s) = true.
Proof.
  induction s as [|c s IH]; [reflexivity|]. intros H. simpl.
  destruct (is_space c); [|exact H]. simpl in H. apply andb_true_iff in H as [_ H]. auto.
Qed.

Lemma trimEnd_forall P s : string_forallb P s = true → string_forallb P (trimEnd s) = true.
Proof.
  induction s as [|c s IH]; [reflexivity|]. simpl.
  intros [Hc Hs]%andb_true_iff. specialize (IH Hs).
  destruct (trimEnd s) as [|d t].
  - destruct (is_space c); [reflexivity|]. simpl. rewrite Hc. reflexivity.
  - simpl in IH |- *. rewrite Hc. exact IH.
Qed.

Lemma trim_forall P s : string_forallb P s = true → string_forallb P (trim s) = true.
Proof. intros H. apply trimEnd_forall, trimStart_forall, H. Qed.

Lemma trimStart_keeps c s : is_space c = false → trimStart (String c s) = String c s.
Proof. intros Hc. simpl. rewrite Hc. reflexivity. Qed.

(** Up to a character that is not white space, nothing is trimmed at the end. *)
Lemma trimEnd_app a c b :
  is_space c = false → trimEnd (a +:+ String c b) = a +:+ String c (trimEnd b).
Proof.
  intros Hc. induction a as [|x a IH].
  - simpl. rewrite Hc. destruct (trimEnd b); reflexivity.
  - rewrite !RegExpFacts.append_String. cbn [trimEnd]. rewrite IH.
    destruct (a +:+ String c (trimEnd b)) eqn:Ha; [destruct a; discriminate Ha|].
    reflexivity.
Qed.

Lemma trimEnd_idem s : trimEnd (trimEnd s) = trimEnd s.
Proof.
  induction s as [|c s IH]; [reflexivity|]. cbn [trimEnd].
  destruct (trimEnd s) as [|d t] eqn:Hs.
  - destruct (is_space c) eqn:Hc; [reflexivity|]. simpl. rewrite Hc. reflexivity.
  - cbn [trimEnd]. cbn [trimEnd] in IH. rewrite IH. reflexivity.
Qed.

Lemma trimEnd_head c s t : trimEnd (String c s) = t → t = "" ∨ ∃ t', t = String c t'.
Proof.
  cbn [trimEnd]. destruct (trimEnd s); [destruct (is_space c)|]; intros <-; eauto.
Qed.

Lemma trimStart_head s :
  trimStart s = "" ∨ ∃ c t, trimStart s = String c t ∧ is_space c = false.
Proof.
  induction s as [|c s IH]; [auto|]. simpl. destruct (is_space c) eqn:Hc; [exact IH|].
  right. eauto.
Qed.

Lemma trim_idem s : trim (trim s) = trim s.
Proof.
  unfold trim. destruct (trimStart_head s) as [->|(c & t & -> & Hc)]; [reflexivity|].
  destruct (trimEnd_head c t _ eq_refl) as [->|[t' Ht]]; [reflexivity|].
  rewrite Ht, trimStart_keeps by exact Hc. rewrite <- Ht. apply trimEnd_idem.
Qed.

(** A string without white space is not trimmed. *)
Lemma trimEnd_no_space s :
  string_forallb (λ c, negb (is_space c)) s = true → trimEnd s = s.
Proof.
  induction s as [|c s IH]; [reflexivity|]. simpl.
  intros [Hc Hs]%andb_true_iff. apply negb_true_iff in Hc. rewrite IH, Hc by exact Hs.
  destruct s; reflexivity.
Qed.

Lemma trim_no_space s :
  string_forallb (λ c, negb (is_space c)) s = true → trim s = s.
Proof.
  intros H. unfold trim. destruct s as [|c s]; [reflexivity|].
  pose proof H as H'. simpl in H'. apply andb_true_iff in H' as [Hc _].
  apply negb_true_iff in Hc. rewrite trimStart_keeps by exact Hc.
  apply trimEnd_no_space, H.
Qed.

(** *** remove *)

Lemma remove_app c a b : remove c (a +:+ b) = remove c a +:+ remove c b.
Proof.
  induction a as [|x a IH]; [reflexivity|].
  rewrite RegExpFacts.append_String. simpl. destruct (Ascii.eqb x c); [exact IH|].
  rewrite RegExpFacts.append_String, IH. reflexivity.
Qed.

Lemma remove_none c s :
  string_forallb (λ x, negb (Ascii.eqb x c)) s = true → remove c s = s.
Proof.
  induction s as [|x s IH]; [reflexivity|]. simpl.
  intros [Hx Hs]%andb_true_iff. apply negb_true_iff in Hx. rewrite Hx, IH by exact Hs.
  reflexivity.
Qed.

Lemma remove_forall P c s : string_forallb P s = true → string_forallb P (remove c s) = true.
Proof.
  induction s as [|x s IH]; [reflexivity|]. simpl.
  intros [Hx Hs]%andb_true_iff. destruct (Ascii.eqb x c); [auto|].
  simpl. rewrite Hx. auto.
Qed.

Lemma remove_removed c s : string_forallb (λ x, negb (Ascii.eqb x c)) (remove c s) = true.
Proof.
  induction s as [|x s IH]; [reflexivity|]. simpl.
  destruct (Ascii.eqb x c) eqn:Hx; [exact IH|]. simpl. rewrite Hx. exact IH.
Qed.

(** *** Decimal numbers *)

Lemma pretty_N_go_digits x s :
  string_forallb digit_or_minus s = true → string_forallb digit_or_minus (pretty_N_go x s) = true.
Proof.
  revert s. induction (N.lt_wf_0 x) as [x _ IH]; intros s Hs.
  assert (x = 0 ∨ 0 < x)%N as [->|Hx] by lia; [rewrite pretty_N_go_0; exact Hs|].
  rewrite pretty_N_go_step by exact Hx. apply IH; [apply N.div_lt; lia|].
  simpl. rewrite Hs, andb_true_r.
  unfold pretty_N_char. repeat case_match; reflexivity.
Qed.

Lemma pretty_N_go_nonempty x s : s ≠ "" → pretty_N_go x s ≠ "".
Proof.
  revert s. induction (N.lt_wf_0 x) as [x _ IH]; intros s Hs.
  assert (x = 0 ∨ 0 < x)%N as [->|Hx] by lia; [rewrite pretty_N_go_0; exact Hs|].
  rewrite pretty_N_go_step by exact Hx. apply IH; [apply N.div_lt; lia|discriminate].
Qed.

Lemma pretty_N_digits (x : N) :
  string_forallb digit_or_minus (pretty x) = true ∧ pretty x ≠ "".
Proof.
  unfold pretty, pretty_N.
  destruct (decide (x = 0)%N) as [->|Hx]; [split; [reflexivity|discriminate]|].
  split; [apply pretty_N_go_digits; reflexivity|].
  rewrite pretty_N_go_step by lia. apply pretty_N_go_nonempty. discriminate.
Qed.

Lemma pretty_Z_digits (n : Z) :
  string_forallb digit_or_minus (pretty n) = true ∧ pretty n ≠ "".
Proof.
  unfold pretty, pretty_Z. destruct n as [|p|p].
  - split; [reflexivity|discriminate].
  - apply (pretty_N_digits (Npos p)).
  - change (pretty p) with (pretty (Npos p)).
    destruct (pretty_N_digits (Npos p)) as [Hd _]. split; [|discriminate].
    change ("-" +:+ pretty (N.pos p)) with (String "-" (pretty (N.pos p))).
    simpl. exact Hd.
Qed.

End LineFacts.

(** ** File names *)

Module NameFacts.
Import Text.

Lemma append_assoc (a b c : string) : (a +:+ b) +:+ c = a +:+ (b +:+ c).
Proof.
  induction a as [|x a IH]; [reflexivity|].
  rewrite !RegExpFacts.append_String. f_equal. exact IH.
Qed.

Lemma split_last_None sep s :
  RegExp.string_forallb (λ c, negb (Ascii.eqb c sep)) s = true →
  split_last sep s = None.
Proof.
  induction s as [|c s IH]; [reflexivity|]. simpl.
  intros H. apply andb_true_iff in H as [Hc Hs]. rewrite (IH Hs).
  apply negb_true_iff in Hc. rewrite Hc. reflexivity.
Qed.

Lemma split_last_app sep a b :
  RegExp.string_forallb (λ c, negb (Ascii.eqb c sep)) b = true →
  split_last sep (a +:+ String sep b) = Some (a, b).
Proof.
  intros Hb. induction a as [|c a IH].
  - change ("" +:+ String sep b) with (String sep b). simpl.
    rewrite (split_last_None _ _ Hb), Ascii.eqb_refl. reflexivity.
  - rewrite RegExpFacts.append_String. simpl. rewrite IH. reflexivity.
Qed.

(** Text without the separator, appended, goes to the last piece. *)
Lemma split_last_app_r sep a b :
  RegExp.string_forallb (λ c, negb (Ascii.eqb c sep)) b = true →
  split_last sep (a +:+ b)
  = match split_last sep a with
    | Some (d, e) => Some (d, e +:+ b)
    | None => None
    end.
Proof.
  intros Hb. induction a as [|c a IH].
  - apply split_last_None, Hb.
  - rewrite RegExpFacts.append_String. cbn [split_last]. rewrite IH.
    destruct (split_last sep a) as [[d e]|]; [reflexivity|].
    destruct (Ascii.eqb c sep); reflexivity.
Qed.

Lemma last_segment_app a b :
  RegExp.string_forallb (λ c, negb (Ascii.eqb c "/")) b = true →
  last_segment (a +:+ b) = last_segment a +:+ b.
Proof.
  intros Hb. unfold last_segment. rewrite (split_last_app_r "/" a b Hb).
  destruct (split_last "/" a) as [[d e]|]; reflexivity.
Qed.

Lemma append_nonempty a b : b ≠ "" → a +:+ b ≠ "".
Proof. destruct a; [exact id|discriminate]. Qed.

Lemma subtype_has_no_dot type :
  RegExp.string_forallb RegExp.subtype_char type = true →
  RegExp.string_forallb (λ c, negb (Ascii.eqb c ".")) type = true.
Proof.
  induction type as [|c type IH]; [reflexivity|]. simpl.
  intros H. apply andb_true_iff in H as [Hc Ht]. rewrite (IH Ht), andb_true_r.
  destruct (Ascii.eqb_spec c ".") as [->|]; [discriminate Hc|reflexivity].
Qed.

(** A decimal number is not empty and holds no slash. *)
Lemma pretty_segment (n : Z) :
  pretty n ≠ "" ∧ RegExp.string_forallb (λ c, negb (Ascii.eqb c "/")) (pretty n) = true.
Proof.
  destruct (LineFacts.pretty_Z_digits n) as [Hd Hne]. split; [exact Hne|].
  revert Hd. apply LineFacts.forallb_impl.
  intros c. unfold Line.digit_or_minus, RegExp.in_range.
  destruct (Ascii.eqb_spec c "/") as [->|]; [discriminate|reflexivity].
Qed.

(** The last segment of a generated name, up to the dot, is not empty: it
    ends with the seconds of the date. *)
Lemma image_filename_segment env prefixName :
  last_segment (prefixName +:+ "-" +:+ dateString (now env)) ≠ "".
Proof.
  destruct (pretty_segment (getSeconds (now env))) as [Hne Hslash].
  unfold dateString. rewrite <- !append_assoc.
  rewrite last_segment_app by exact Hslash. apply append_nonempty, Hne.
Qed.

(** The extension of a generated image name is the subtype, when the
    subtype holds no slash. *)
Lemma image_filename_extension env prefixName type :
  RegExp.string_forallb RegExp.subtype_char type = true →
  RegExp.string_forallb (λ c, negb (Ascii.eqb c "/")) type = true →
  extension (image_filename env prefixName type) = type.
Proof.
  intros Ht Hslash. unfold extension, image_filename.
  change ("." +:+ type) with (String "." type).
  rewrite <- !append_assoc. rewrite !append_assoc.
  change (prefixName +:+ "-" +:+ dateString (now env) +:+ String "." type)
    with (prefixName +:+ "-" +:+ (dateString (now env) +:+ String "." type)).
  rewrite <- !append_assoc.
  rewrite (last_segment_app _ (String "." type)) by exact Hslash.
  rewrite (split_last_app "." _ type (subtype_has_no_dot type Ht)).
  rewrite append_assoc.
  pose proof (image_filename_segment env prefixName) as Hseg.
  destruct (last_segment (prefixName +:+ "-" +:+ dateString (now env)));
    [contradiction|reflexivity].
Qed.

End NameFacts.

(** C4 (counterexample). The pattern admits a slash in the subtype. For
    data:image/a/b;base64,QUJD the generated name is image-<date>.a/b: it
    names the file b in a directory image-<date>.a, and that file has no
    extension. The handler writes the decoded bytes to that path; the save
    root holds no such directory, so the write is rejected, the request is
    answered 400 and nothing is stored. *)
Lemma subtype_with_a_slash_is_not_the_extension :
  let url := "data:image/a/b;base64,QUJD" in
  let filename := "image-22_Dec_2025-22_0_0.a/b" in
  let rejected := uploadImage Sample.no_such_directory Sample.slash_in_subtype
                    "/srv/SAVE_IMAGES" "/srv/PRINT_IMAGES" Sample.idle in
  RegExp.match_ RegExp.DATA_URL url = Some [url; "a/b"; "QUJD"]
  ∧ image_filename (Sample.env Sample.no_ftp []) "image" "a/b" = filename
  ∧ Text.last_segment filename = "b"
  ∧ Text.extension filename = ""
  ∧ path_extname (path_join "/srv/SAVE_IMAGES" filename) = ""
  ∧ snd rejected = [WriteFile Sample.slash_path [x41; x42; x43]%byte]
  ∧ fs_files (snd (fst rejected)) = ∅
  ∧ ∃ resp, fst (fst rejected) = Returned resp
            ∧ Response.status resp = HTTP_STATUS_BAD_REQUEST
            ∧ Response.success resp = false.
Proof.
  repeat (split; [vm_compute; reflexivity|]).
  eexists. repeat split; vm_compute; reflexivity.
Qed.

(** C4 (as amended). An inline upload whose base64 field is
    data:image/<subtype>;base64,<payload> (a subtype of one or more of the
    characters A-Z a-z - + /, a payload of one or more characters other
    than line terminators) writes nothing but the decoding of <payload>, to
    the path <directory>/<prefix>-<date>.<subtype>; when the response
    reports success that file holds exactly those bytes. When the subtype
    holds no slash, the extension of the generated name is <subtype>. *)
Theorem inline_upload_persists_decoded_payload `{RT : Runtime}
    (env : Env) (req : Request) (jsonObj : JsonBody) (type payload : string)
    (savePath printPath : string) (s s' : State) (o : Outcome Response.t)
    (t : list Effect) :
  body req = Parsed jsonObj →
  base64 jsonObj = Some ("data:image/" +:+ type +:+ ";base64," +:+ payload) →
  type ≠ "" → RegExp.string_forallb RegExp.subtype_char type = true →
  payload ≠ "" → RegExp.string_forallb RegExp.dot payload = true →
  uploadImage env req savePath printPath s = (o, s', t) →
  let filename := image_filename env (Js.or_string (prefix_name jsonObj) "image") type in
  (RegExp.string_forallb (λ c, negb (Ascii.eqb c "/")) type = true →
   Text.extension filename = type)
  ∧ (∀ p data, In (WriteFile p data) t →
       data = Buffer_from_base64 payload
       ∧ length data = length (Buffer_from_base64 payload)
       ∧ ∃ directory, p = path_join directory filename)
  ∧ (∀ resp, o = Returned resp → Response.success resp = true →
       ∃ directory,
         In (WriteFile (path_join directory filename) (Buffer_from_base64 payload)) t
         ∧ fs_files s' !! path_join directory filename = Some (Buffer_from_base64 payload)
         ∧ (Response.local_path resp = Some (path_join directory filename)
            ∨ Response.local_path resp = None ∧ is_Some (Response.public_url resp))).
Proof.
  intros Hbody Hb64 Hty Htc Hpl Hpc Hrun filename.
  split; [apply NameFacts.image_filename_extension, Htc|].
  pose proof (RegExpFacts.match_DATA_URL_complete type payload Hty Htc Hpl Hpc) as Hm.
  cbv zeta in Hm.
  unfold uploadImage in Hrun.
  split.
  - intros p data Hin.
    run1 Hrun; trace_in Hin; simplify_eq.
    all: match goal with
         | H : RegExp.match_ _ _ = Some _ |- _ =>
             rewrite Hb64 in H; simpl in H; rewrite Hm in H; simplify_eq
         end.
    all: split; [reflexivity|]; split; [reflexivity|]; eexists; reflexivity.
  - intros resp -> Hok.
    run1 Hrun; simplify_eq; try discriminate Hok.
    all: try match goal with
         | H : RegExp.match_ _ _ = Some _ |- _ =>
             rewrite Hb64 in H; simpl in H; rewrite Hm in H; simplify_eq
         end.
    all: eexists; split; [simpl; eauto 10|]; split; [simpl; apply lookup_insert_eq|].
    all: simpl; first [left; reflexivity | right; split; [reflexivity|]].
    all: match goal with
         | Hk : Forwarder.known_result _ _ ?r, Hs : ForwardResult.success ?r = true |- _ =>
             apply ForwarderFacts.known_result_message in Hk as [_ Hk];
             rewrite (Hk Hs); eauto
         end.
Qed.

(** The example of the specification: data:image/png;base64,iVBORw0KGgo=
    with prefix "test", no folder, no print, no ftp. *)
Lemma inline_upload_persists_decoded_payload_witness :
  let env := Sample.env Sample.no_ftp [] in
  let path := "/srv/SAVE_IMAGES/test-22_Dec_2025-22_0_0.png" in
  ∃ resp s' t,
    uploadImage env (Sample.png None None None)
      "/srv/SAVE_IMAGES" "/srv/PRINT_IMAGES" Sample.idle = (Returned resp, s', t)
    ∧ Response.success resp = true
    ∧ Response.local_path resp = Some path
    ∧ fs_files s' !! path = Some [x89; x50; x4e; x47; x0d; x0a; x1a; x0a]%byte
    ∧ Text.extension "test-22_Dec_2025-22_0_0.png" = "png".
Proof.
  intros env path.
  destruct (uploadImage env (Sample.png None None None)
              "/srv/SAVE_IMAGES" "/srv/PRINT_IMAGES" Sample.idle)
    as [[o s'] t] eqn:Hrun.
  known_outcome Hrun.
  destruct (inline_upload_persists_decoded_payload env (Sample.png None None None)
              _ "png" "iVBORw0KGgo=" _ _ _ _ _ _ eq_refl eq_refl
              ltac:(discriminate) eq_refl ltac:(discriminate) eq_refl Hrun)
    as (Hext & _ & Hok).
  destruct (Hok _ eq_refl eq_refl) as (directory & Hin & Hfile & Hpath).
  known_calls Hrun. simpl in Hin. destruct Hin as [Hin|[]].
  injection Hin as Hdir.
  eexists _, _, _. split; [reflexivity|]. split; [reflexivity|]. split; [reflexivity|].
  split; [unfold path; rewrite Hdir; exact Hfile|exact (Hext eq_refl)].
Defined.

(** ** Validation *)

(** C5. The threshold is the configured number of megabytes times
    1,048,576, and 50 MB when it is unset (a configured 0 counts as unset:
    the source tests the value for truthiness); a size is accepted exactly
    when it does not exceed the threshold, so the threshold itself is
    accepted. A request whose base64 field does not match the pattern is
    answered 400 and changes nothing; an inline, remote-only or multipart
    request whose bytes exceed the threshold is answered 400 and no file is
    written. *)
Theorem rejects_unmatched_and_oversized `{RT : Runtime} (env : Env) :
  let limit := maxSize (configs env) in
  (∀ m, Config.MAX_FILE_SIZE_MB (configs env) = Some m → m ≠ 0 → limit = m * 1048576)
  ∧ (Config.MAX_FILE_SIZE_MB (configs env) = None → limit = 50 * 1048576)
  ∧ (∀ size, valid (validateFileSize (configs env) size) = true ↔ size ≤ limit)
  ∧ valid (validateFileSize (configs env) limit) = true
  ∧ (∀ req jsonObj savePath printPath s,
       body req = Parsed jsonObj →
       RegExp.match_ RegExp.DATA_URL (default "" (base64 jsonObj)) = None →
       (∃ resp, uploadImage env req savePath printPath s = (Returned resp, s, [])
                ∧ Response.status resp = HTTP_STATUS_BAD_REQUEST
                ∧ Response.success resp = false)
       ∧ (∃ resp, uploadImageToFtp env req s = (Returned resp, s, [])
                  ∧ Response.status resp = HTTP_STATUS_BAD_REQUEST
                  ∧ Response.success resp = false))
  ∧ (∀ req jsonObj whole type data savePath printPath s,
       body req = Parsed jsonObj →
       RegExp.match_ RegExp.DATA_URL (default "" (base64 jsonObj))
       = Some [whole; type; data] →
       limit < Z.of_nat (length (Buffer_from_base64 data)) →
       (∀ o s' t, uploadImage env req savePath printPath s = (o, s', t) →
          ∃ resp, o = Returned resp
                  ∧ Response.status resp = HTTP_STATUS_BAD_REQUEST
                  ∧ Response.success resp = false
                  ∧ fs_files s' = fs_files s
                  ∧ ∀ p d, ¬ In (WriteFile p d) t)
       ∧ (∃ resp, uploadImageToFtp env req s = (Returned resp, s, [])
                  ∧ Response.status resp = HTTP_STATUS_BAD_REQUEST
                  ∧ Response.success resp = false))
  ∧ (∀ req form file s,
       formData req = inr form → FormData.file form = Some file →
       limit < File.size file →
       ∃ resp, uploadFile env req s = (Returned resp, s, [])
               ∧ Response.status resp = HTTP_STATUS_BAD_REQUEST
               ∧ Response.success resp = false).
Proof.
  intros limit.
  split; [apply ValidationFacts.maxSize_configured|].
  split; [apply ValidationFacts.maxSize_default|].
  split; [apply ValidationFacts.valid_iff|].
  split; [apply ValidationFacts.valid_iff; unfold limit; lia|].
  split; [|split].
  - intros req jsonObj savePath printPath s Hbody Hno. split.
    + destruct (uploadImage env req savePath printPath s) as [[o s'] t] eqn:Hrun.
      unfold uploadImage in Hrun. run1 Hrun; simplify_eq; try congruence.
      all: eexists; split; [reflexivity|]; split; reflexivity.
    + destruct (uploadImageToFtp env req s) as [[o s'] t] eqn:Hrun.
      unfold uploadImageToFtp in Hrun. run1 Hrun; simplify_eq; try congruence.
      all: eexists; split; [reflexivity|]; split; reflexivity.
  - intros req jsonObj whole type data savePath printPath s Hbody Hm Hbig. split.
    + intros o s' t Hrun.
      unfold uploadImage in Hrun. run1 Hrun; simplify_eq; known_request.
      all: eexists; split; [reflexivity|]; split; [reflexivity|]; split; [reflexivity|].
      all: split; [reflexivity|]; intros p d Hw; trace_in Hw.
    + destruct (uploadImageToFtp env req s) as [[o s'] t] eqn:Hrun.
      unfold uploadImageToFtp in Hrun. run1 Hrun; simplify_eq; known_request.
      all: eexists; split; [reflexivity|]; split; reflexivity.
  - intros req form file s Hform Hfile Hbig.
    destruct (uploadFile env req s) as [[o s'] t] eqn:Hrun.
    unfold uploadFile in Hrun. run1 Hrun; simplify_eq; known_request.
    all: eexists; split; [reflexivity|]; split; reflexivity.
Qed.

Lemma oversized_length : Z.of_nat (length Sample.oversized) = 1048577.
Proof. unfold Sample.oversized. rewrite repeat_length. apply Z2Nat.id. lia. Qed.

(** A limit of 1 MB: a file of 1,048,577 bytes, and a data URL that is not
    an image. *)
Lemma rejects_unmatched_and_oversized_witness :
  let env := Sample.env Sample.one_megabyte [] in
  maxSize (configs env) = 1048576
  ∧ (∃ resp,
       uploadFile env (Sample.multipart Sample.oversized None None)
         Sample.idle = (Returned resp, Sample.idle, [])
       ∧ Response.status resp = 400 ∧ Response.success resp = false)
  ∧ (∃ resp,
       uploadImage env Sample.not_an_image "/srv/SAVE_IMAGES" "/srv/PRINT_IMAGES"
         Sample.idle = (Returned resp, Sample.idle, [])
       ∧ Response.status resp = 400 ∧ Response.success resp = false).
Proof.
  intros env.
  destruct (rejects_unmatched_and_oversized env)
    as (Hlimit & _ & _ & _ & Hunmatched & _ & Hfile).
  split; [apply (Hlimit 1); [reflexivity|lia]|]. split.
  - apply (Hfile (Sample.multipart Sample.oversized None None) _ _
             Sample.idle eq_refl eq_refl).
    change (maxSize (configs env) < Z.of_nat (length Sample.oversized)).
    rewrite oversized_length. reflexivity.
  - destruct (Hunmatched Sample.not_an_image _ "/srv/SAVE_IMAGES" "/srv/PRINT_IMAGES"
                Sample.idle eq_refl eq_refl) as [Hinline _].
    exact Hinline.
Defined.

(** C8 (counterexample). An empty file in a multipart upload is present and
    within the limit: it is written, empty, and the response reports
    success. *)
Lemma empty_file_is_persisted :
  let run := uploadFile (Sample.env Sample.no_ftp []) (Sample.multipart [] None None)
               Sample.idle in
  let path := "/srv/SAVE_IMAGES/photo_9f86d081884c_22_Dec_2025-22_0_0.jpg" in
  In (WriteFile path []) (snd run)
  ∧ fs_files (snd (fst run)) !! path = Some []
  ∧ ∃ resp, fst (fst run) = Returned resp ∧ Response.success resp = true.
Proof.
  split; [vm_compute; auto|]. split; [vm_compute; reflexivity|].
  eexists. split; vm_compute; reflexivity.
Qed.

(** In a leaf of a run: the base64 field is the string that matched. *)
Ltac matched_field :=
  match goal with
  | Hu : default "" (base64 ?j) = _ ∧ _, Hm : RegExp.match_ _ (default "" (base64 ?j)) = _
    |- _ =>
      let Hb := fresh "Hb" in
      let b := fresh "b" in
      destruct Hu as (Hu & ? & ? & ? & ?);
      destruct (base64 j) as [b|] eqn:Hb; simpl in Hu, Hm; [|discriminate Hu];
      rewrite Hu in Hm; subst b
  end.

(** C8 (as amended). Whenever an upload attempts to persist (or, for a
    remote-only upload, to forward) a byte buffer, the request has passed
    validation: for an inline or remote-only upload the base64 field matched
    the pattern (a subtype of one or more characters of its class, a
    non-empty payload text without line terminators), the buffer is the
    decoding of the payload, and for a multipart upload a file was present
    of which the buffer is the content; in each case the length of the
    buffer does not exceed the threshold. The buffer itself may be empty. *)
Theorem persistence_follows_validation `{RT : Runtime} (env : Env) :
  (∀ req savePath printPath s o s' t p data,
     uploadImage env req savePath printPath s = (o, s', t) →
     In (WriteFile p data) t →
     ∃ jsonObj type payload,
       let url := "data:image/" +:+ type +:+ ";base64," +:+ payload in
       body req = Parsed jsonObj
       ∧ base64 jsonObj = Some url
       ∧ RegExp.match_ RegExp.DATA_URL url = Some [url; type; payload]
       ∧ type ≠ "" ∧ RegExp.string_forallb RegExp.subtype_char type = true
       ∧ payload ≠ "" ∧ RegExp.string_forallb RegExp.dot payload = true
       ∧ data = Buffer_from_base64 payload
       ∧ Z.of_nat (length data) ≤ maxSize (configs env))
  ∧ (∀ req s o s' t data filename,
       uploadImageToFtp env req s = (o, s', t) →
       In (UploadToFtp data filename) t →
       ∃ jsonObj type payload,
         let url := "data:image/" +:+ type +:+ ";base64," +:+ payload in
         body req = Parsed jsonObj
         ∧ base64 jsonObj = Some url
         ∧ RegExp.match_ RegExp.DATA_URL url = Some [url; type; payload]
         ∧ type ≠ "" ∧ RegExp.string_forallb RegExp.subtype_char type = true
         ∧ payload ≠ "" ∧ RegExp.string_forallb RegExp.dot payload = true
         ∧ data = Buffer_from_base64 payload
         ∧ Z.of_nat (length data) ≤ maxSize (configs env))
  ∧ (∀ req s o s' t p data,
       uploadFile env req s = (o, s', t) →
       In (WriteFile p data) t →
       ∃ form file,
         formData req = inr form ∧ FormData.file form = Some file
         ∧ data = File.bytes file
         ∧ File.size file ≤ maxSize (configs env)).
Proof.
  split; [|split].
  - intros req savePath printPath s o s' t p data Hrun Hin.
    unfold uploadImage in Hrun. run1 Hrun; trace_in Hin; simplify_eq; known_request.
    all: matched_field.
    all: eexists _, _, _; cbv zeta; split; [reflexivity|]; split; [eassumption|].
    all: repeat (split; [assumption|]).
    all: split; [reflexivity|assumption].
  - intros req s o s' t data filename Hrun Hin.
    unfold uploadImageToFtp in Hrun. run1 Hrun; trace_in Hin; simplify_eq; known_request.
    all: matched_field.
    all: eexists _, _, _; cbv zeta; split; [reflexivity|]; split; [eassumption|].
    all: repeat (split; [assumption|]).
    all: split; [reflexivity|assumption].
  - intros req s o s' t p data Hrun Hin.
    unfold uploadFile in Hrun. run1 Hrun; trace_in Hin; simplify_eq; known_request.
    all: eexists _, _; split; [reflexivity|]; split; [eassumption|].
    all: split; [reflexivity|assumption].
Qed.

(** The example of the specification is persisted after validation. *)
Lemma persistence_follows_validation_witness :
  let env := Sample.env Sample.no_ftp [] in
  ∃ jsonObj type payload,
    body (Sample.png None None None) = Parsed jsonObj
    ∧ base64 jsonObj = Some ("data:image/" +:+ type +:+ ";base64," +:+ payload)
    ∧ RegExp.match_ RegExp.DATA_URL ("data:image/" +:+ type +:+ ";base64," +:+ payload)
      = Some ["data:image/" +:+ type +:+ ";base64," +:+ payload; type; payload]
    ∧ payload ≠ ""
    ∧ Buffer_from_base64 payload = [x89; x50; x4e; x47; x0d; x0a; x1a; x0a]%byte
    ∧ Z.of_nat (length (Buffer_from_base64 payload)) ≤ maxSize (configs env).
Proof.
  intros env.
  destruct (persistence_follows_validation env) as [Hinline _].
  destruct (uploadImage env (Sample.png None None None)
              "/srv/SAVE_IMAGES" "/srv/PRINT_IMAGES" Sample.idle)
    as [[o s'] t] eqn:Hrun.
  pose proof Hrun as Hrun'. known_calls Hrun'.
  destruct (Hinline _ _ _ _ _ _ _
              "/srv/SAVE_IMAGES/test-22_Dec_2025-22_0_0.png"
              [x89; x50; x4e; x47; x0d; x0a; x1a; x0a]%byte Hrun)
    as (j & type & payload & Hbody & Hb64 & Hm & _ & _ & Hne & _ & Hdata & Hlen);
    [simpl; auto|].
  exists j, type, payload. rewrite <- Hdata. auto 10.
Defined.

(** C9 (the code at the failing input). An inline upload that is stored
    and forwarded: the response carries the remote URL and no local path,
    although the file was written; the multipart handler returns both. *)
Lemma forwarded_image_response_has_no_local_path :
  let env := Sample.env Sample.with_ftp [Ready; PutDone None] in
  let image := uploadImage env (Sample.png None (Some true) None)
                 "/srv/SAVE_IMAGES" "/srv/PRINT_IMAGES" Sample.idle in
  let file := uploadFile env (Sample.multipart [x01%byte] None (Some "true"))
                Sample.idle in
  (∃ resp,
     fst (fst image) = Returned resp
     ∧ Response.success resp = true
     ∧ Response.local_path resp = None
     ∧ Response.public_url resp
       = Some "https://ftp.example.com/test-22_Dec_2025-22_0_0.png")
  ∧ fs_files (snd (fst image)) !! "/srv/SAVE_IMAGES/test-22_Dec_2025-22_0_0.png"
    = Some [x89; x50; x4e; x47; x0d; x0a; x1a; x0a]%byte
  ∧ (∃ resp,
       fst (fst file) = Returned resp
       ∧ Response.success resp = true
       ∧ Response.local_path resp
         = Some "/srv/SAVE_IMAGES/photo_9f86d081884c_22_Dec_2025-22_0_0.jpg"
       ∧ Response.public_url resp
         = Some "https://ftp.example.com/photo_9f86d081884c_22_Dec_2025-22_0_0.jpg").
Proof.
  split; [eexists; repeat split; vm_compute; reflexivity|].
  split; [vm_compute; reflexivity|].
  eexists; repeat split; vm_compute; reflexivity.
Qed.

(** C10. An inline upload with a folder and without the print flag whose
    decoded payload exceeds the threshold is answered 400 with the size
    message and writes no file; yet its directory
    <save root>/<folder>_<client id> exists afterwards, and when it was
    absent it has been created by this request: the directory is checked and
    made before the size is validated. (The creation itself is taken not to
    fail.) *)
Theorem oversized_inline_upload_leaves_its_folder `{RT : Runtime}
    (env : Env) (req : Request) (jsonObj : JsonBody) (whole type data : string)
    (savePath printPath : string) (s s' : State) (o : Outcome Response.t)
    (t : list Effect) :
  body req = Parsed jsonObj →
  Js.truthy_bool (print jsonObj) = false →
  Js.truthy_string (folder jsonObj) = true →
  RegExp.match_ RegExp.DATA_URL (default "" (base64 jsonObj)) = Some [whole; type; data] →
  maxSize (configs env) < Z.of_nat (length (Buffer_from_base64 data)) →
  let target :=
    path_join savePath
      (default "" (folder jsonObj) +:+ "_" +:+ getClientIdentifier (headers req)) in
  fs_fault env (FsMkdir target) = None →
  uploadImage env req savePath printPath s = (o, s', t) →
  (∃ resp,
     o = Returned resp
     ∧ Response.status resp = HTTP_STATUS_BAD_REQUEST
     ∧ Response.success resp = false
     ∧ Some (Response.message resp)
       = validation_message
           (validateFileSize (configs env) (Z.of_nat (length (Buffer_from_base64 data)))))
  ∧ fs_files s' = fs_files s
  ∧ (∀ p d, ¬ In (WriteFile p d) t)
  ∧ exists_path s' target = true
  ∧ (exists_path s target = false →
       t = [Access target; Mkdir target true]
       ∧ target ∈ fs_dirs s'
       ∧ ∀ d, In d (ancestors (String.length target) target) → d ∈ fs_dirs s').
Proof.
  intros Hbody Hprint Hfolder Hm Hbig target Hmk Hrun. subst target.
  unfold uploadImage in Hrun. run1 Hrun; simplify_eq; known_request.
  all: repeat match goal with
         | H : negb _ = _ |- _ => rewrite ?negb_true_iff, ?negb_false_iff in H
         end.
  all: (split; [eexists; split; [reflexivity|]; split; [reflexivity|];
                split; [reflexivity|]|]).
  all: try (unfold validateFileSize;
            match goal with
            | H : maxSize _ < ?n |- context [maxSize _ <? ?n] =>
                apply Z.ltb_lt in H; rewrite H; reflexivity
            end).
  all: split; [reflexivity|]; split; [intros p d Hw; trace_in Hw|].
  all: split; [path_exists|]; intros Habsent; try congruence.
  all: split; [reflexivity|]; split; [apply TargetFacts.made_self|].
  all: intros; apply TargetFacts.made_ancestor; assumption.
Qed.

(** With a limit below every size the example of the specification, sent
    with the folder "album", is refused, and its directory is made. *)
Lemma oversized_inline_upload_leaves_its_folder_witness :
  let env := Sample.env Sample.nothing_fits [] in
  let target := "/srv/SAVE_IMAGES/album_9f86d081884c" in
  ∃ resp s',
    uploadImage env (Sample.png (Some "album") None None)
      "/srv/SAVE_IMAGES" "/srv/PRINT_IMAGES" Sample.idle
    = (Returned resp, s', [Access target; Mkdir target true])
    ∧ Response.status resp = 400
    ∧ fs_files s' = fs_files Sample.idle
    ∧ target ∈ fs_dirs s'.
Proof.
  intros env target.
  destruct (uploadImage env (Sample.png (Some "album") None None)
              "/srv/SAVE_IMAGES" "/srv/PRINT_IMAGES" Sample.idle)
    as [[o s'] t] eqn:Hrun.
  destruct (oversized_inline_upload_leaves_its_folder (RT := Sample.runtime) env
              (Sample.png (Some "album") None None) _ _ "png" "iVBORw0KGgo="
              "/srv/SAVE_IMAGES" "/srv/PRINT_IMAGES" Sample.idle s' o t
              eq_refl eq_refl eq_refl eq_refl ltac:(vm_compute; reflexivity) eq_refl Hrun)
    as ((resp & -> & Hstatus & _) & Hfiles & _ & _ & Hmade).
  destruct Hmade as (-> & Hdir & _); [reflexivity|].
  exists resp, s'. auto.
Defined.

(** * Further properties of the code *)

(** X1. No handler lets an exception escape, and a handler answers unless
    it waits for an FTP client: that happens only when the pool was at
    capacity when the request arrived. *)
Theorem handlers_answer_unless_pool_is_full `{RT : Runtime} (env : Env) :
  (∀ req savePath printPath s o s' t,
     uploadImage env req savePath printPath s = (o, s', t) →
     (∀ e, o ≠ Thrown e)
     ∧ (o = Pending →
        FTP_POOL_SIZE ≤ Pool.activeConnections (ftpPool s)
        ∧ ∃ buffer filename, In (UploadToFtp buffer filename) t))
  ∧ (∀ req s o s' t,
       uploadFile env req s = (o, s', t) →
       (∀ e, o ≠ Thrown e)
       ∧ (o = Pending →
          FTP_POOL_SIZE ≤ Pool.activeConnections (ftpPool s)
          ∧ ∃ buffer filename, In (UploadToFtp buffer filename) t))
  ∧ (∀ req s o s' t,
       uploadImageToFtp env req s = (o, s', t) →
       (∀ e, o ≠ Thrown e)
       ∧ (o = Pending →
          FTP_POOL_SIZE ≤ Pool.activeConnections (ftpPool s)
          ∧ ∃ buffer filename, In (UploadToFtp buffer filename) t)).
Proof.
  split; [|split].
  - intros req savePath printPath s o s' t Hrun.
    unfold uploadImage in Hrun. run1 Hrun.
    all: split; [discriminate|]; intros Hp; try discriminate Hp.
    all: match goal with
         | H : Pool.acquire _ = None |- _ => apply PoolFacts.acquire_None in H; simpl in H
         end.
    all: split; [assumption|]; eexists _, _; simpl; eauto 10.
  - intros req s o s' t Hrun.
    unfold uploadFile in Hrun. run1 Hrun.
    all: split; [discriminate|]; intros Hp; try discriminate Hp.
    all: match goal with
         | H : Pool.acquire _ = None |- _ => apply PoolFacts.acquire_None in H; simpl in H
         end.
    all: split; [assumption|]; eexists _, _; simpl; eauto 10.
  - intros req s o s' t Hrun.
    unfold uploadImageToFtp in Hrun. run1 Hrun.
    all: split; [discriminate|]; intros Hp; try discriminate Hp.
    all: match goal with
         | H : Pool.acquire _ = None |- _ => apply PoolFacts.acquire_None in H; simpl in H
         end.
    all: split; [assumption|]; eexists _, _; simpl; eauto 10.
Qed.


(** ** What a forward leaves behind *)

Module SessionFacts.
Import Forwarder.

Section Call.
Variables (configs : Config.t) (buffer : list byte) (filename : string).

Lemma handle_log f e :
  ∃ more, error_log (handle configs buffer filename f e) = (error_log f ++ more)%list.
Proof.
  destruct e as [| |err|msg]; simpl.
  - destruct (timeoutHandle f); exists []; simpl; rewrite app_nil_r; reflexivity.
  - destruct (listening f); exists []; simpl; rewrite app_nil_r; reflexivity.
  - destruct (pending_puts f); [exists []; rewrite app_nil_r; reflexivity|].
    destruct err as [msg|]; simpl; [exists [msg]; reflexivity|].
    exists []; rewrite app_nil_r; reflexivity.
  - destruct (listening f); [exists [msg]; reflexivity|].
    exists []; rewrite app_nil_r; reflexivity.
Qed.

Lemma deliver_log es f :
  ∃ more, error_log (deliver configs buffer filename es f) = (error_log f ++ more)%list.
Proof.
  revert f. induction es as [|e es IH]; intros f.
  - exists []. simpl. rewrite app_nil_r. reflexivity.
  - destruct (IH (handle configs buffer filename f e)) as [m2 H2].
    destruct (handle_log f e) as [m1 H1].
    exists (m1 ++ m2)%list. unfold deliver in *. cbn [fold_left].
    rewrite H2, H1, app_assoc. reflexivity.
Qed.

Lemma executor_log thrown f :
  ∃ more, error_log (executor configs thrown f) = (error_log f ++ more)%list.
Proof.
  unfold executor. destruct (missing_configuration configs).
  - exists []. simpl. rewrite app_nil_r. reflexivity.
  - destruct thrown as [msg|]; simpl; [exists [msg]; reflexivity|].
    exists []. rewrite app_nil_r. reflexivity.
Qed.

Lemma session_log s f :
  ∃ more, error_log (session configs buffer filename s f) = (error_log f ++ more)%list.
Proof.
  unfold session, expire.
  destruct (handle_log (deliver configs buffer filename (script s)
                          (executor configs (connect_throws s) f)) Timeout) as [m3 H3].
  destruct (deliver_log (script s) (executor configs (connect_throws s) f)) as [m2 H2].
  destruct (executor_log (connect_throws s) f) as [m1 H1].
  exists (m1 ++ m2 ++ m3)%list. rewrite H3, H2, H1, !app_assoc. reflexivity.
Qed.

End Call.

End SessionFacts.

(** X3. A forward is attempted only for a request that set the ftp flag,
    and only after the local write succeeded: what is forwarded is the
    buffer that was stored, under the file name it was stored with. *)
Theorem forward_follows_the_local_write `{RT : Runtime} (env : Env) :
  (∀ req savePath printPath s o s' t buffer filename,
     uploadImage env req savePath printPath s = (o, s', t) →
     In (UploadToFtp buffer filename) t →
     ∃ jsonObj dir pre rest,
       body req = Parsed jsonObj ∧ Js.truthy_bool (ftp jsonObj) = true
       ∧ t = (pre ++ WriteFile (path_join dir filename) buffer
                  :: UploadToFtp buffer filename :: rest)%list
       ∧ fs_fault env (FsWriteFile (path_join dir filename)) = None
       ∧ fs_files s' !! path_join dir filename = Some buffer)
  ∧ (∀ req s o s' t buffer filename,
       uploadFile env req s = (o, s', t) →
       In (UploadToFtp buffer filename) t →
       ∃ form file dir pre rest,
         formData req = inr form ∧ is_true (FormData.ftp form) = true
         ∧ FormData.file form = Some file ∧ buffer = File.bytes file
         ∧ t = (pre ++ WriteFile (path_join dir filename) buffer
                    :: Access (path_join dir filename)
                    :: UploadToFtp buffer filename :: rest)%list
         ∧ fs_fault env (FsWriteFile (path_join dir filename)) = None
         ∧ fs_files s' !! path_join dir filename = Some buffer).
Proof.
  split.
  - intros req savePath printPath s o s' t buffer filename Hrun Hin.
    unfold uploadImage in Hrun. run1 Hrun; trace_in Hin; simplify_eq.
    all: eexists _, _, _, _; split; [reflexivity|]; split; [assumption|].
    all: split;
      [ first [ instantiate (1 := []); reflexivity
              | instantiate (1 := [_]); reflexivity
              | instantiate (1 := [_; _]); reflexivity ] |].
    all: split; [assumption|]; simpl; apply lookup_insert_eq.
  - intros req s o s' t buffer filename Hrun Hin.
    unfold uploadFile in Hrun. run1 Hrun; trace_in Hin; simplify_eq.
    all: eexists _, _, _, _, _; split; [reflexivity|]; split; [assumption|].
    all: split; [eassumption|]; split; [reflexivity|].
    all: split;
      [ first [ instantiate (1 := []); reflexivity
              | instantiate (1 := [_]); reflexivity
              | instantiate (1 := [_; _]); reflexivity ] |].
    all: split; [assumption|]; simpl; apply lookup_insert_eq.
Qed.


(** X4. A request that does not set the ftp flag never reaches FTP: no
    forward is attempted and the pool is left as it was. For the inline
    endpoint the flag is the truthiness of the JSON field, for the
    multipart endpoint the form field must be the text "true". *)
Theorem without_the_flag_nothing_is_forwarded `{RT : Runtime} (env : Env) :
  (∀ req jsonObj savePath printPath s o s' t,
     body req = Parsed jsonObj → Js.truthy_bool (ftp jsonObj) = false →
     uploadImage env req savePath printPath s = (o, s', t) →
     ftpPool s' = ftpPool s
     ∧ (∀ buffer filename, ¬ In (UploadToFtp buffer filename) t)
     ∧ ∀ resp, o = Returned resp → Response.public_url resp = None)
  ∧ (∀ req form s o s' t,
       formData req = inr form → FormData.ftp form ≠ Some "true" →
       uploadFile env req s = (o, s', t) →
       ftpPool s' = ftpPool s
       ∧ (∀ buffer filename, ¬ In (UploadToFtp buffer filename) t)
       ∧ ∀ resp, o = Returned resp → Response.public_url resp = None).
Proof.
  split.
  - intros req jsonObj savePath printPath s o s' t Hbody Hflag Hrun.
    unfold uploadImage in Hrun. run1 Hrun; simplify_eq.
    all: try congruence.
    all: split; [reflexivity|]; split; [intros b f Hin; trace_in Hin|].
    all: intros resp [= <-]; reflexivity.
  - intros req form s o s' t Hform Hflag Hrun.
    assert (Hft : is_true (FormData.ftp form) = false).
    { unfold is_true. destruct (FormData.ftp form) as [v|]; [|reflexivity].
      destruct (String.eqb_spec v "true"); [congruence|reflexivity]. }
    unfold uploadFile in Hrun. run1 Hrun; simplify_eq.
    all: try congruence.
    all: split; [reflexivity|]; split; [intros b f Hin; trace_in Hin|].
    all: intros resp [= <-]; reflexivity.
Qed.

(** In a leaf of a run: the fault met by the run is the one assumed. *)
Ltac same_fault :=
  try match goal with
    | H1 : fs_fault _ _ = ?a, H2 : fs_fault _ _ = Some ?e |- _ =>
        let H := fresh in
        pose proof (eq_trans (eq_sym H1) H2) as H;
        first [discriminate H | injection H as ->]
    end.

(** X6. When the file system rejects the write, or the creation of the
    client's folder, the upload is answered with status 400 and the error's
    message, the error is appended to the log, no file is stored and no
    forward is attempted. *)
Theorem failed_write_is_logged_and_answered `{RT : Runtime} (env : Env) (e : string) :
  (∀ req savePath printPath s o s' t p,
     uploadImage env req savePath printPath s = (o, s', t) →
     ((∃ data, In (WriteFile p data) t) ∧ fs_fault env (FsWriteFile p) = Some e
      ∨ In (Mkdir p true) t ∧ fs_fault env (FsMkdir p) = Some e) →
     o = Returned (createErrorResponse e HTTP_STATUS_BAD_REQUEST)
     ∧ error_log s' = (error_log s ++ [e])%list
     ∧ fs_files s' = fs_files s
     ∧ ftpPool s' = ftpPool s
     ∧ ∀ buffer filename, ¬ In (UploadToFtp buffer filename) t)
  ∧ (∀ req s o s' t p,
       uploadFile env req s = (o, s', t) →
       ((∃ data, In (WriteFile p data) t) ∧ fs_fault env (FsWriteFile p) = Some e
        ∨ In (Mkdir p true) t ∧ fs_fault env (FsMkdir p) = Some e) →
       o = Returned (createErrorResponse e HTTP_STATUS_BAD_REQUEST)
       ∧ error_log s' = (error_log s ++ [e])%list
       ∧ fs_files s' = fs_files s
       ∧ ftpPool s' = ftpPool s
       ∧ ∀ buffer filename, ¬ In (UploadToFtp buffer filename) t).
Proof.
  split.
  - intros req savePath printPath s o s' t p Hrun Hfail.
    unfold uploadImage in Hrun. run1 Hrun.
    all: destruct Hfail as [[[data Hin] Hf]|[Hin Hf]]; trace_in Hin; simplify_eq.
    all: same_fault.
    all: repeat (split; [reflexivity|]).
    all: intros b f Hin; trace_in Hin.
  - intros req s o s' t p Hrun Hfail.
    unfold uploadFile in Hrun. run1 Hrun.
    all: destruct Hfail as [[[data Hin] Hf]|[Hin Hf]]; trace_in Hin; simplify_eq.
    all: same_fault.
    all: repeat (split; [reflexivity|]).
    all: intros b f Hin; trace_in Hin.
Qed.

(** X7. A body that cannot be read or parsed. The inline endpoint answers
    400 with the error's message and logs it, for both kinds of failure;
    so does the multipart endpoint when the form cannot be read. The
    remote-only endpoint answers a JSON syntax error with 400 and the
    message prefix "Parse error: ", without logging it, and an unreadable body
    with 500 and the prefix "FTP upload failed: ", logged. In every case nothing
    is stored and no call is made. *)
Theorem unreadable_body_is_answered (e : string) `{RT : Runtime} (env : Env) :
  (∀ req savePath printPath s,
     body req = Unreadable e ∨ body req = Malformed e →
     uploadImage env req savePath printPath s
     = (Returned (createErrorResponse e HTTP_STATUS_BAD_REQUEST),
        {| fs_dirs := fs_dirs s; fs_files := fs_files s; ftpPool := ftpPool s;
           error_log := error_log s ++ [e] |}, []))
  ∧ (∀ req s,
       formData req = inl e →
       uploadFile env req s
       = (Returned (createErrorResponse e HTTP_STATUS_BAD_REQUEST),
          {| fs_dirs := fs_dirs s; fs_files := fs_files s; ftpPool := ftpPool s;
             error_log := error_log s ++ [e] |}, []))
  ∧ (∀ req s,
       body req = Malformed e →
       uploadImageToFtp env req s
       = (Returned (createErrorResponse ("Parse error: " +:+ e) HTTP_STATUS_BAD_REQUEST),
          s, []))
  ∧ (∀ req s,
       body req = Unreadable e →
       uploadImageToFtp env req s
       = (Returned (createErrorResponse ("FTP upload failed: " +:+ e)
                      HTTP_STATUS_SERVER_ERROR),
          {| fs_dirs := fs_dirs s; fs_files := fs_files s; ftpPool := ftpPool s;
             error_log := error_log s ++ [e] |}, [])).
Proof.
  split; [|split; [|split]].
  - intros req savePath printPath s [Hb|Hb];
      unfold uploadImage, try_catch, bind, read_payload, JSON_parse; rewrite Hb; reflexivity.
  - intros req s Hf. unfold uploadFile, try_catch, bind. rewrite Hf. reflexivity.
  - intros req s Hb.
    unfold uploadImageToFtp, try_catch, bind, read_payload, JSON_parse. rewrite Hb.
    reflexivity.
  - intros req s Hb.
    unfold uploadImageToFtp, try_catch, bind, read_payload, JSON_parse. rewrite Hb.
    reflexivity.
Qed.


Module SlotFacts.
Import Forwarder ForwardInvariant.

Section Call.
Variables (configs : Config.t) (buffer : list byte) (filename : string).

Lemma executor_balanced thrown p log :
  balanced p (executor configs thrown (init p log)).
Proof.
  unfold executor, balanced.
  destruct (missing_configuration configs); [|destruct thrown]; simpl; split; (lia || reflexivity).
Qed.

Lemma handle_balanced p0 f e :
  balanced p0 f → balanced p0 (handle configs buffer filename f e).
Proof.
  intros [Hc Hp]. unfold balanced.
  destruct e as [| |err|msg]; simpl.
  - destruct (timeoutHandle f); simpl; split; (lia || assumption).
  - destruct (listening f); simpl; split; (lia || assumption).
  - destruct (pending_puts f); [split; assumption|].
    destruct err; simpl; split; (lia || assumption).
  - destruct (listening f); simpl; split; (lia || assumption).
Qed.

Lemma deliver_balanced p0 es f :
  balanced p0 f → balanced p0 (deliver configs buffer filename es f).
Proof.
  revert f. induction es as [|e es IH]; intros f Hf; [exact Hf|].
  apply IH, handle_balanced, Hf.
Qed.

Lemma session_balanced s p log :
  balanced p (session configs buffer filename s (init p log))
  ∧ (1 ≤ resolutions (session configs buffer filename s (init p log)))%nat.
Proof.
  split.
  - unfold session, expire. apply handle_balanced, deliver_balanced, executor_balanced.
  - destruct (ForwarderFacts.session_settles configs buffer filename s p log)
      as (r & Hr & _).
    pose proof (ForwarderFacts.handle_invariant configs buffer filename _ Timeout
                  (ForwarderFacts.deliver_invariant configs buffer filename (script s) _
                     (ForwarderFacts.executor_invariant configs filename
                        (connect_throws s) p log))) as (_ & _ & Hres).
    apply (Hres r). exact Hr.
Qed.

(** A callback that is not armed does nothing. *)
Lemma handle_inert f e :
  timeoutHandle f = false → listening f = false → pending_puts f = O →
  handle configs buffer filename f e = f.
Proof.
  intros Ht Hl Hp. destruct e; simpl; rewrite ?Ht, ?Hl, ?Hp; reflexivity.
Qed.

Lemma deliver_inert es f :
  timeoutHandle f = false → listening f = false → pending_puts f = O →
  deliver configs buffer filename es f = f.
Proof.
  intros Ht Hl Hp. induction es as [|e es IH]; [reflexivity|].
  unfold deliver in *. cbn [fold_left]. rewrite handle_inert by assumption. exact IH.
Qed.

(** While the client only becomes ready, nothing is resolved. *)
Lemma ready_only es f :
  Forall (λ e, e = Ready) es →
  timeoutHandle f = true → listening f = true → resolutions f = O →
  let f' := deliver configs buffer filename es f in
  timeoutHandle f' = true ∧ listening f' = true ∧ resolutions f' = O.
Proof.
  intros Hes. revert f. induction Hes as [|e es He Hes IH]; intros f Ht Hl Hr; [auto|].
  subst e. unfold deliver in *. cbn [fold_left]. apply IH; simpl; rewrite Hl; assumption.
Qed.

Lemma deliver_app es1 es2 f :
  deliver configs buffer filename (es1 ++ es2) f
  = deliver configs buffer filename es2 (deliver configs buffer filename es1 f).
Proof. unfold deliver. apply fold_left_app. Qed.

Lemma one_event f e :
  timeoutHandle f = true → listening f = true → resolutions f = O →
  resolutions (expire configs buffer filename (handle configs buffer filename f e)) = 1%nat.
Proof.
  intros Ht Hl Hr. unfold expire.
  destruct e as [| |err|msg]; simpl; rewrite ?Ht, ?Hl; simpl; rewrite ?Hr; try reflexivity.
  - rewrite Ht. simpl. rewrite Hr. reflexivity.
  - destruct (pending_puts f); [simpl; rewrite Ht; simpl; rewrite Hr; reflexivity|].
    destruct err; simpl; rewrite Hr; reflexivity.
Qed.

Lemma handle_puts_ok f e :
  puts_ok configs buffer filename f →
  puts_ok configs buffer filename (handle configs buffer filename f e).
Proof.
  intros [Hall Hpend]. unfold puts_ok.
  destruct e as [| |err|msg]; simpl.
  - destruct (timeoutHandle f); simpl; auto.
  - destruct (listening f); simpl; [|auto]. split.
    + intros c Hc. apply in_app_or in Hc as [Hc|[<-|[]]]; auto.
    + intros _. destruct (put_calls f); discriminate.
  - destruct (pending_puts f) as [|n] eqn:Hn; [rewrite Hn; auto|].
    assert (Hne : put_calls f ≠ []) by (apply Hpend; lia).
    destruct err; simpl; auto.
  - destruct (listening f); simpl; auto.
Qed.

Lemma deliver_puts_ok es f :
  puts_ok configs buffer filename f →
  puts_ok configs buffer filename (deliver configs buffer filename es f).
Proof.
  revert f. induction es as [|e es IH]; intros f Hf; [exact Hf|].
  apply IH, handle_puts_ok, Hf.
Qed.

Lemma handle_puts_grow f e :
  put_calls f ≠ [] → put_calls (handle configs buffer filename f e) ≠ [].
Proof.
  intros Hne. destruct e as [| |err|msg]; simpl.
  - destruct (timeoutHandle f); exact Hne.
  - destruct (listening f); [|exact Hne]. simpl. destruct (put_calls f); [congruence|discriminate].
  - destruct (pending_puts f); [exact Hne|]. destruct err; exact Hne.
  - destruct (listening f); exact Hne.
Qed.

Lemma deliver_puts_grow es f :
  put_calls f ≠ [] → put_calls (deliver configs buffer filename es f) ≠ [].
Proof.
  revert f. induction es as [|e es IH]; intros f Hf; [exact Hf|].
  apply IH, handle_puts_grow, Hf.
Qed.

(** A success comes from a put callback without an error. *)
Lemma handle_success f e r :
  puts_ok configs buffer filename f →
  settled (handle configs buffer filename f e) = Some r →
  ForwardResult.success r = true →
  settled f = Some r
  ∨ (e = PutDone None ∧ r = uploaded configs filename
     ∧ put_calls (handle configs buffer filename f e) ≠ []).
Proof.
  intros [_ Hpend] Hset Hs.
  destruct e as [| |err|msg]; simpl in Hset.
  - destruct (timeoutHandle f); [|auto]. simpl in Hset.
    destruct (settled f); [auto|]. injection Hset as <-. discriminate Hs.
  - destruct (listening f); auto.
  - simpl. destruct (pending_puts f) as [|n] eqn:Hn; [auto|].
    assert (Hne : put_calls f ≠ []) by (apply Hpend; lia).
    destruct err as [msg|]; simpl in Hset |- *.
    + destruct (settled f); [auto|]. injection Hset as <-. discriminate Hs.
    + destruct (settled f); [auto|]. injection Hset as <-. auto.
  - destruct (listening f); [|auto]. simpl in Hset.
    destruct (settled f); [auto|]. injection Hset as <-. discriminate Hs.
Qed.

Lemma deliver_success es f r :
  puts_ok configs buffer filename f →
  settled (deliver configs buffer filename es f) = Some r →
  ForwardResult.success r = true →
  settled f = Some r
  ∨ (In (PutDone None) es ∧ r = uploaded configs filename
     ∧ put_calls (deliver configs buffer filename es f) ≠ []).
Proof.
  revert f. induction es as [|e es IH]; intros f Hok Hset Hs; [auto|].
  unfold deliver in *. cbn [fold_left] in *.
  destruct (IH _ (handle_puts_ok f e Hok) Hset Hs) as [Hh|(Hin & Hr & Hne)].
  - destruct (handle_success f e r Hok Hh Hs) as [Hf|(-> & Hr & Hne)]; [auto|].
    right. split; [left; reflexivity|]. split; [exact Hr|].
    apply (deliver_puts_grow es), Hne.
  - right. split; [right; exact Hin|]. auto.
Qed.

End Call.

(** [s.endsWith("/")] after a slash was appended. *)
Lemma endsWith_app_slash r : Js.endsWith (r +:+ "/") "/" = true.
Proof.
  induction r as [|c r IH]; [reflexivity|].
  rewrite RegExpFacts.append_String. cbn [Js.endsWith].
  destruct (r +:+ "/") eqn:Hr; [destruct r; discriminate Hr|exact IH].
Qed.

End SlotFacts.

(** X8. A forward never keeps its slot of the pool. Of the count with
    which the call started, the pool is down by the number of resolution
    paths that ran, and at least one ran; so after any upload, answered or
    not, the live count is at most what it was when the request came in, and
    the pool's list of clients is untouched. *)
Theorem forward_gives_its_slot_back `{RT : Runtime} (env : Env) :
  (∀ configs buffer filename session p log,
     let f := Forwarder.session configs buffer filename session (Forwarder.init p log) in
     Pool.activeConnections (Forwarder.ftpPool f)
     = Pool.activeConnections p - Z.of_nat (Forwarder.resolutions f)
     ∧ (1 ≤ Forwarder.resolutions f)%nat
     ∧ Pool.pool (Forwarder.ftpPool f) = Pool.pool p)
  ∧ (∀ req savePath printPath s o s' t,
       uploadImage env req savePath printPath s = (o, s', t) →
       Pool.activeConnections (ftpPool s') ≤ Pool.activeConnections (ftpPool s)
       ∧ Pool.pool (ftpPool s') = Pool.pool (ftpPool s))
  ∧ (∀ req s o s' t,
       uploadFile env req s = (o, s', t) →
       Pool.activeConnections (ftpPool s') ≤ Pool.activeConnections (ftpPool s)
       ∧ Pool.pool (ftpPool s') = Pool.pool (ftpPool s))
  ∧ (∀ req s o s' t,
       uploadImageToFtp env req s = (o, s', t) →
       Pool.activeConnections (ftpPool s') ≤ Pool.activeConnections (ftpPool s)
       ∧ Pool.pool (ftpPool s') = Pool.pool (ftpPool s)).
Proof.
  assert (Hsession : ∀ configs buffer filename session p p0 log,
            Pool.acquire p0 = Some p →
            let f := Forwarder.session configs buffer filename session
                       (Forwarder.init p log) in
            Pool.activeConnections (Forwarder.ftpPool f) ≤ Pool.activeConnections p0
            ∧ Pool.pool (Forwarder.ftpPool f) = Pool.pool p0).
  { intros configs buffer filename session p p0 log Hacq f.
    destruct (SlotFacts.session_balanced configs buffer filename session p log)
      as [[Hc Hp] Hone].
    fold f in Hc, Hp, Hone.
    unfold Pool.acquire in Hacq.
    destruct (Pool.activeConnections p0 <? FTP_POOL_SIZE); [|discriminate].
    injection Hacq as <-. simpl in Hc, Hp. split; [lia|exact Hp]. }
  split; [|split; [|split]].
  - intros configs buffer filename session p log f.
    destruct (SlotFacts.session_balanced configs buffer filename session p log)
      as [[Hc Hp] Hone].
    auto.
  - intros req savePath printPath s o s' t Hrun.
    unfold uploadImage in Hrun. run1 Hrun.
    all: simpl; try (split; [lia|reflexivity]).
    all: match goal with
         | H : Pool.acquire _ = Some _ |- _ => simpl in H; eapply Hsession in H; exact H
         end.
  - intros req s o s' t Hrun.
    unfold uploadFile in Hrun. run1 Hrun.
    all: simpl; try (split; [lia|reflexivity]).
    all: match goal with
         | H : Pool.acquire _ = Some _ |- _ => simpl in H; eapply Hsession in H; exact H
         end.
  - intros req s o s' t Hrun.
    unfold uploadImageToFtp in Hrun. run1 Hrun.
    all: simpl; try (split; [lia|reflexivity]).
    all: match goal with
         | H : Pool.acquire _ = Some _ |- _ => simpl in H; eapply Hsession in H; exact H
         end.
Qed.

(** X9. When connect does not throw and the client, besides becoming
    ready, raises at most one event (a put callback, an error, or none
    before the timer fires), exactly one resolution path runs and the slot
    is given back exactly once. *)
Theorem one_event_one_resolution
    (configs : Config.t) (buffer : list byte) (filename : string)
    (readies last : list ClientEvent) (p : Pool.t) (log : list string) :
  Forall (λ e, e = Ready) readies →
  (length last ≤ 1)%nat →
  let f := Forwarder.session configs buffer filename
             {| connect_throws := None; script := readies ++ last |}
             (Forwarder.init p log) in
  Forwarder.resolutions f = 1%nat
  ∧ Pool.activeConnections (Forwarder.ftpPool f) = Pool.activeConnections p - 1.
Proof.
  intros Hr Hlast f.
  assert (Hone : Forwarder.resolutions f = 1%nat).
  { subst f. unfold Forwarder.session. cbn [connect_throws script].
    unfold Forwarder.executor.
    destruct (Forwarder.missing_configuration configs).
    - rewrite SlotFacts.deliver_inert by reflexivity.
      unfold Forwarder.expire. rewrite SlotFacts.handle_inert by reflexivity. reflexivity.
    - rewrite SlotFacts.deliver_app.
      destruct (SlotFacts.ready_only configs buffer filename readies
                  (Forwarder.listen (Forwarder.setTimeout (Forwarder.init p log))) Hr
                  eq_refl eq_refl eq_refl) as (Ht & Hl & Hz).
      set (f1 := Forwarder.deliver configs buffer filename readies _) in *.
      destruct last as [|e [|e' last]]; [| |simpl in Hlast; lia].
      + unfold Forwarder.expire. simpl. rewrite Ht. simpl. rewrite Hz. reflexivity.
      + apply SlotFacts.one_event; assumption. }
  split; [exact Hone|].
  destruct (SlotFacts.session_balanced configs buffer filename
              {| connect_throws := None; script := readies ++ last |} p log)
    as [[Hc _] _].
  fold f in Hc. rewrite Hc, Hone. reflexivity.
Qed.

(** X10. A forward resolves with success only through a put callback that
    reports no error: the configuration was complete, the client called the
    callback of a put, that put carried the buffer and the remote path of
    this call (as does every put of the call), and the result carries the
    public URL. *)
Theorem success_means_the_put_went_through
    (configs : Config.t) (buffer : list byte) (filename : string)
    (s : FtpSession) (p : Pool.t) (log : list string) (r : ForwardResult.t) :
  let f := Forwarder.session configs buffer filename s (Forwarder.init p log) in
  Forwarder.settled f = Some r →
  ForwardResult.success r = true →
  r = Forwarder.uploaded configs filename
  ∧ Forwarder.missing_configuration configs = false
  ∧ In (PutDone None) (script s)
  ∧ In (buffer, Forwarder.remoteFilePath configs filename) (Forwarder.put_calls f)
  ∧ ∀ c, In c (Forwarder.put_calls f) →
         c = (buffer, Forwarder.remoteFilePath configs filename).
Proof.
  intros f Hset Hs.
  set (f0 := Forwarder.executor configs (connect_throws s) (Forwarder.init p log)).
  assert (Hok0 : ForwardInvariant.puts_ok configs buffer filename f0).
  { subst f0. unfold Forwarder.executor, ForwardInvariant.puts_ok.
    destruct (Forwarder.missing_configuration configs); [|destruct (connect_throws s)];
      simpl; (split; [intros c []|lia]). }
  assert (Hexp : ∀ g, Forwarder.put_calls (Forwarder.expire configs buffer filename g)
                      = Forwarder.put_calls g).
  { intros g. unfold Forwarder.expire. simpl. destruct (Forwarder.timeoutHandle g); reflexivity. }
  assert (Hok : ForwardInvariant.puts_ok configs buffer filename f).
  { subst f. unfold Forwarder.session, Forwarder.expire.
    apply SlotFacts.handle_puts_ok, SlotFacts.deliver_puts_ok, Hok0. }
  subst f. unfold Forwarder.session in *. fold f0 in Hset, Hok |- *.
  set (f1 := Forwarder.deliver configs buffer filename (script s) f0) in *.
  assert (Hset1 : Forwarder.settled f1 = Some r).
  { unfold Forwarder.expire in Hset. simpl in Hset.
    destruct (Forwarder.timeoutHandle f1); [|exact Hset]. simpl in Hset.
    destruct (Forwarder.settled f1); [exact Hset|].
    injection Hset as <-. discriminate Hs. }
  destruct (SlotFacts.deliver_success configs buffer filename (script s) f0 r Hok0 Hset1 Hs)
    as [H0|(Hin & Hr & Hne)].
  - exfalso. subst f0. unfold Forwarder.executor in H0.
    destruct (Forwarder.missing_configuration configs); [|destruct (connect_throws s)];
      simpl in H0; try discriminate H0; injection H0 as <-; discriminate Hs.
  - split; [exact Hr|].
    split.
    { destruct (Forwarder.missing_configuration configs) eqn:Hm; [|reflexivity].
      exfalso. subst f1 f0. unfold Forwarder.executor in Hset1. rewrite Hm in Hset1.
      rewrite SlotFacts.deliver_inert in Hset1 by reflexivity.
      simpl in Hset1. injection Hset1 as <-. discriminate Hs. }
    split; [exact Hin|].
    destruct Hok as [Hall _]. rewrite Hexp in Hall |- *. fold f1 in Hne.
    split; [|exact Hall].
    destruct (Forwarder.put_calls f1) as [|c l] eqn:Hp; [congruence|].
    rewrite <- (Hall c (or_introl eq_refl)). left. reflexivity.
Qed.

(** X11. With an incomplete FTP configuration (no host, port, user or
    password; a port 0 or an empty string count as absent) the forward is
    rejected before anything is set up, whatever the client would have
    done: no timer, no listener, no put, nothing logged, the slot released
    once, and the result is the missing-configuration failure. *)
Theorem missing_configuration_never_connects
    (configs : Config.t) (buffer : list byte) (filename : string)
    (s : FtpSession) (p : Pool.t) (log : list string) :
  Forwarder.missing_configuration configs = true →
  Forwarder.session configs buffer filename s (Forwarder.init p log)
  = {| Forwarder.ftpPool := Pool.releaseConnection p;
       Forwarder.error_log := log;
       Forwarder.timeoutHandle := false;
       Forwarder.listening := false;
       Forwarder.put_calls := [];
       Forwarder.pending_puts := 0;
       Forwarder.destroyed := false;
       Forwarder.settled := Some Forwarder.MISSING_CONFIGURATION;
       Forwarder.resolutions := 1 |}.
Proof.
  intros Hm. unfold Forwarder.session, Forwarder.executor. rewrite Hm.
  rewrite SlotFacts.deliver_inert by reflexivity.
  unfold Forwarder.expire. rewrite SlotFacts.handle_inert by reflexivity. reflexivity.
Qed.

(** X12. A trailing slash on the configured remote path makes no
    difference to the remote file path: FTP_REMOTE_PATH=r/ and
    FTP_REMOTE_PATH=r (r not itself ending in a slash; the empty r stands for
    the default "/") give the same path, with or without FTP_DIRECTORY. *)
Theorem remote_path_trailing_slash (configs : Config.t) (r filename : string) :
  Js.endsWith r "/" = false →
  let with_remote (v : string) :=
    {| Config.MAX_FILE_SIZE_MB := Config.MAX_FILE_SIZE_MB configs;
       Config.FTP_HOST := Config.FTP_HOST configs;
       Config.FTP_PORT := Config.FTP_PORT configs;
       Config.FTP_USERNAME := Config.FTP_USERNAME configs;
       Config.FTP_PASSWORD := Config.FTP_PASSWORD configs;
       Config.FTP_REMOTE_PATH := Some v;
       Config.FTP_SECURE := Config.FTP_SECURE configs;
       Config.FTP_DIRECTORY := Config.FTP_DIRECTORY configs |} in
  Forwarder.remoteFilePath (with_remote (r +:+ "/")) filename
  = Forwarder.remoteFilePath (with_remote r) filename.
Proof.
  intros Hr with_remote. unfold Forwarder.remoteFilePath.
  cbn [Config.FTP_REMOTE_PATH Config.FTP_DIRECTORY with_remote].
  assert (Hne : String.eqb (r +:+ "/") "" = false) by (destruct r; reflexivity).
  unfold Js.or_string. rewrite Hne, SlotFacts.endsWith_app_slash.
  destruct (String.eqb_spec r "") as [->|Hnr]; [reflexivity|].
  rewrite Hr, !NameFacts.append_assoc. reflexivity.
Qed.


Module IdentifierFacts.

Lemma take_length_le n s : (String.length (RegExp.string_take n s) ≤ n)%nat.
Proof.
  revert s. induction n as [|n IH]; intros [|c s]; simpl; try lia.
  specialize (IH s). lia.
Qed.

Lemma before_comma_app a rest :
  RegExp.string_forallb (λ c, negb (Ascii.eqb c ",")) a = true →
  Text.before_comma (a +:+ "," +:+ rest) = a.
Proof.
  induction a as [|c a IH]; intros Ha; [reflexivity|].
  simpl in Ha. apply andb_true_iff in Ha as [Hc Ha].
  rewrite RegExpFacts.append_String. cbn [Text.before_comma].
  apply negb_true_iff in Hc. rewrite Hc, IH by exact Ha. reflexivity.
Qed.

Lemma before_comma_none a :
  RegExp.string_forallb (λ c, negb (Ascii.eqb c ",")) a = true →
  Text.before_comma a = a.
Proof.
  induction a as [|c a IH]; intros Ha; [reflexivity|].
  simpl in Ha. apply andb_true_iff in Ha as [Hc Ha].
  cbn [Text.before_comma]. apply negb_true_iff in Hc. rewrite Hc, IH by exact Ha.
  reflexivity.
Qed.

Lemma or_string_truthy o d : Js.truthy_string o = true → Js.or_string o d = default "" o.
Proof.
  destruct o as [s|]; [|discriminate]. simpl. destruct (String.eqb s ""); [discriminate|].
  reflexivity.
Qed.

Lemma or_string_falsy o d : Js.truthy_string o = false → Js.or_string o d = d.
Proof.
  destruct o as [s|]; [|reflexivity]. simpl. destruct (String.eqb s ""); [|discriminate].
  reflexivity.
Qed.

End IdentifierFacts.

(** X13. The client identifier has at most 12 characters, and the
    address headers are read by priority: a non-empty cf-connecting-ip
    decides alone (x-real-ip and x-forwarded-for are not looked at), and
    without it (absent or empty) a non-empty x-real-ip decides. The user
    agent always counts, an absent or empty one as "unknown". *)
Theorem client_identifier_header_priority `{RT : Runtime}
    (get get' : string → option string) :
  Js.or_string (get' "user-agent") "unknown" = Js.or_string (get "user-agent") "unknown" →
  (String.length (getClientIdentifier get) ≤ CLIENT_ID_HASH_LENGTH)%nat
  ∧ (Js.truthy_string (get "cf-connecting-ip") = true →
     get' "cf-connecting-ip" = get "cf-connecting-ip" →
     getClientIdentifier get' = getClientIdentifier get)
  ∧ (Js.truthy_string (get "cf-connecting-ip") = false →
     Js.truthy_string (get' "cf-connecting-ip") = false →
     Js.truthy_string (get "x-real-ip") = true →
     get' "x-real-ip" = get "x-real-ip" →
     getClientIdentifier get' = getClientIdentifier get).
Proof.
  intros Hagent. split; [apply IdentifierFacts.take_length_le|]. split.
  - intros Hcf Hsame. unfold getClientIdentifier. rewrite Hagent, Hsame.
    rewrite !(IdentifierFacts.or_string_truthy (get "cf-connecting-ip")) by exact Hcf.
    reflexivity.
  - intros Hcf Hcf' Hreal Hsame. unfold getClientIdentifier. rewrite Hagent, Hsame.
    rewrite !(IdentifierFacts.or_string_falsy _ _ Hcf), !(IdentifierFacts.or_string_falsy _ _ Hcf').
    rewrite !(IdentifierFacts.or_string_truthy (get "x-real-ip")) by exact Hreal.
    reflexivity.
Qed.

(** X14. Of x-forwarded-for only the first address counts, without the
    white space around it: two requests that agree on the other headers and
    whose lists start with the same address (up to surrounding white space)
    get the same identifier, whatever follows the first comma. *)
Theorem client_identifier_first_forwarded_address `{RT : Runtime}
    (get get' : string → option string) (a a' rest : string) :
  RegExp.string_forallb (λ c, negb (Ascii.eqb c ",")) a = true →
  RegExp.string_forallb (λ c, negb (Ascii.eqb c ",")) a' = true →
  Text.trim a' = Text.trim a →
  get "x-forwarded-for" = Some (a +:+ "," +:+ rest) →
  get' "x-forwarded-for" = Some a' →
  get' "cf-connecting-ip" = get "cf-connecting-ip" →
  get' "x-real-ip" = get "x-real-ip" →
  get' "user-agent" = get "user-agent" →
  getClientIdentifier get' = getClientIdentifier get.
Proof.
  intros Ha Ha' Htrim Hx Hx' Hcf Hreal Hagent.
  unfold getClientIdentifier. rewrite Hx, Hx', Hcf, Hreal, Hagent. simpl option_map.
  rewrite (IdentifierFacts.before_comma_app a rest Ha),
          (IdentifierFacts.before_comma_none a' Ha'), Htrim.
  reflexivity.
Qed.


(** With room in the pool the sample upload is answered. *)
Lemma handlers_answer_unless_pool_is_full_witness :
  ∃ resp s' t,
    uploadImage (Sample.env Sample.no_ftp []) (Sample.png None (Some true) None)
      "/srv/SAVE_IMAGES" "/srv/PRINT_IMAGES" Sample.idle = (Returned resp, s', t).
Proof.
  destruct (handlers_answer_unless_pool_is_full (Sample.env Sample.no_ftp []))
    as (Hinline & _ & _).
  destruct (uploadImage (Sample.env Sample.no_ftp []) (Sample.png None (Some true) None)
              "/srv/SAVE_IMAGES" "/srv/PRINT_IMAGES" Sample.idle)
    as [[o s'] t] eqn:Hrun.
  destruct (Hinline _ _ _ _ _ _ _ Hrun) as [Hnt Hp].
  destruct o as [resp|e|].
  - eexists _, _, _. reflexivity.
  - exfalso. apply (Hnt e). reflexivity.
  - exfalso. destruct (Hp eq_refl) as [Hfull _]. vm_compute in Hfull. apply Hfull. reflexivity.
Defined.

(** The sample image with the ftp flag: stored, then forwarded. *)
Lemma forward_follows_the_local_write_witness :
  ∃ o s' t dir,
    uploadImage (Sample.env Sample.with_ftp [Ready; PutDone None])
      (Sample.png None (Some true) None)
      "/srv/SAVE_IMAGES" "/srv/PRINT_IMAGES" Sample.idle = (o, s', t)
    ∧ fs_files s' !! Sample.join dir "test-22_Dec_2025-22_0_0.png"
      = Some [x89; x50; x4e; x47; x0d; x0a; x1a; x0a]%byte.
Proof.
  destruct (forward_follows_the_local_write (Sample.env Sample.with_ftp [Ready; PutDone None]))
    as [Hinline _].
  destruct (uploadImage (Sample.env Sample.with_ftp [Ready; PutDone None])
              (Sample.png None (Some true) None)
              "/srv/SAVE_IMAGES" "/srv/PRINT_IMAGES" Sample.idle)
    as [[o s'] t] eqn:Hrun.
  known_calls Hrun.
  destruct (Hinline _ _ _ _ _ _ _ [x89; x50; x4e; x47; x0d; x0a; x1a; x0a]%byte
              "test-22_Dec_2025-22_0_0.png" Hrun)
    as (j & dir & pre & rest & _ & _ & _ & _ & Hfile); [simpl; auto|].
  eexists _, _, _, dir. split; [reflexivity|exact Hfile].
Defined.

(** The sample image without the flag leaves the pool empty. *)
Lemma without_the_flag_nothing_is_forwarded_witness :
  ∃ o s' t,
    uploadImage (Sample.env Sample.with_ftp [Ready; PutDone None])
      (Sample.png None None None)
      "/srv/SAVE_IMAGES" "/srv/PRINT_IMAGES" Sample.idle = (o, s', t)
    ∧ ftpPool s' = Pool.empty.
Proof.
  destruct (without_the_flag_nothing_is_forwarded
              (Sample.env Sample.with_ftp [Ready; PutDone None])) as [Hinline _].
  destruct (uploadImage (Sample.env Sample.with_ftp [Ready; PutDone None])
              (Sample.png None None None)
              "/srv/SAVE_IMAGES" "/srv/PRINT_IMAGES" Sample.idle)
    as [[o s'] t] eqn:Hrun.
  destruct (Hinline (Sample.png None None None) _ _ _ _ _ _ _ eq_refl eq_refl Hrun)
    as (Hpool & _).
  exists o, s', t. split; [reflexivity|exact Hpool].
Defined.

(** A disk that rejects every write. *)
Lemma failed_write_is_logged_and_answered_witness :
  let env := {| now := Sample.date; configs := Sample.no_ftp;
                SAVE_PATH := "/srv/SAVE_IMAGES"; PRINT_PATH := "/srv/PRINT_IMAGES";
                fs_fault := λ c, match c with
                                 | FsWriteFile _ => Some "ENOSPC: no space left on device"
                                 | FsMkdir _ => None
                                 end;
                ftp_session := {| connect_throws := None; script := [] |} |} in
  ∃ s' t,
    uploadImage env (Sample.png None (Some true) None)
      "/srv/SAVE_IMAGES" "/srv/PRINT_IMAGES" Sample.idle
    = (Returned (createErrorResponse "ENOSPC: no space left on device" 400), s', t)
    ∧ error_log s' = ["ENOSPC: no space left on device"]
    ∧ fs_files s' = ∅.
Proof.
  intros env.
  destruct (failed_write_is_logged_and_answered env "ENOSPC: no space left on device")
    as [Hinline _].
  destruct (uploadImage env (Sample.png None (Some true) None)
              "/srv/SAVE_IMAGES" "/srv/PRINT_IMAGES" Sample.idle)
    as [[o s'] t] eqn:Hrun.
  known_calls Hrun.
  destruct (Hinline _ _ _ _ _ _ _ "/srv/SAVE_IMAGES/test-22_Dec_2025-22_0_0.png" Hrun)
    as (Ho & Hlog & Hfiles & _).
  { left. split; [eexists; simpl; eauto|reflexivity]. }
  subst o. eexists _, _. split; [reflexivity|]. split; [exact Hlog|exact Hfiles].
Defined.

(** A body that is not JSON. *)
Lemma unreadable_body_is_answered_witness :
  let req := {| headers := Sample.no_headers;
                body := Malformed "Unexpected token h in JSON at position 0" |} in
  (∃ resp s' t,
     uploadImage (Sample.env Sample.no_ftp []) req "/srv/SAVE_IMAGES" "/srv/PRINT_IMAGES"
       Sample.idle = (Returned resp, s', t)
     ∧ Response.status resp = 400 ∧ error_log s' ≠ [])
  ∧ (∃ resp s' t,
       uploadImageToFtp (Sample.env Sample.no_ftp []) req Sample.idle = (Returned resp, s', t)
       ∧ Response.status resp = 400 ∧ error_log s' = []).
Proof.
  intros req.
  destruct (unreadable_body_is_answered "Unexpected token h in JSON at position 0"
              (Sample.env Sample.no_ftp [])) as (Hinline & _ & Hremote & _).
  split.
  - eexists _, _, _. split; [apply (Hinline req); right; reflexivity|].
    split; [reflexivity|discriminate].
  - eexists _, _, _. split; [apply (Hremote req); reflexivity|].
    split; reflexivity.
Defined.

(** The put goes through: one path ran, the count is back to zero. *)
Lemma forward_gives_its_slot_back_witness :
  ∃ o s' t,
    uploadImage (Sample.env Sample.with_ftp [Ready; PutDone None])
      (Sample.png None (Some true) None)
      "/srv/SAVE_IMAGES" "/srv/PRINT_IMAGES" Sample.idle = (o, s', t)
    ∧ Pool.activeConnections (ftpPool s') ≤ 0.
Proof.
  destruct (forward_gives_its_slot_back (Sample.env Sample.with_ftp [Ready; PutDone None]))
    as (_ & Hinline & _).
  destruct (uploadImage (Sample.env Sample.with_ftp [Ready; PutDone None])
              (Sample.png None (Some true) None)
              "/srv/SAVE_IMAGES" "/srv/PRINT_IMAGES" Sample.idle)
    as [[o s'] t] eqn:Hrun.
  destruct (Hinline _ _ _ _ _ _ _ Hrun) as [Hc _].
  exists o, s', t. split; [reflexivity|exact Hc].
Defined.

(** Ready twice, then one put callback with an error. *)
Lemma one_event_one_resolution_witness :
  let f := Forwarder.session Sample.with_ftp [] "a.png"
             {| connect_throws := None;
                script := [Ready; Ready] ++ [PutDone (Some "552 Disk full")] |}
             (Forwarder.init {| Pool.pool := []; Pool.activeConnections := 1 |} []) in
  Forwarder.resolutions f = 1%nat
  ∧ Pool.activeConnections (Forwarder.ftpPool f) = 0.
Proof.
  apply (one_event_one_resolution Sample.with_ftp [] "a.png" [Ready; Ready]
           [PutDone (Some "552 Disk full")]
           {| Pool.pool := []; Pool.activeConnections := 1 |} []).
  - repeat constructor.
  - simpl. lia.
Defined.

(** The put goes through, and an error follows: the success stands. *)
Lemma success_means_the_put_went_through_witness :
  let s := {| connect_throws := None;
              script := [Ready; PutDone None; Error "ECONNRESET"] |} in
  let f := Forwarder.session Sample.with_ftp [x01%byte] "a.png" s
             (Forwarder.init {| Pool.pool := []; Pool.activeConnections := 1 |} []) in
  Forwarder.settled f = Some (Forwarder.uploaded Sample.with_ftp "a.png")
  ∧ In ([x01%byte], "/a.png") (Forwarder.put_calls f).
Proof.
  intros s f.
  assert (Hset : Forwarder.settled f = Some (Forwarder.uploaded Sample.with_ftp "a.png"))
    by reflexivity.
  destruct (success_means_the_put_went_through Sample.with_ftp [x01%byte] "a.png" s
              {| Pool.pool := []; Pool.activeConnections := 1 |} [] _ Hset eq_refl)
    as (_ & _ & _ & Hput & _).
  split; [exact Hset|exact Hput].
Defined.

(** No host is configured: the session of a client that would have
    connected is over before it starts. *)
Lemma missing_configuration_never_connects_witness :
  Forwarder.put_calls
    (Forwarder.session Sample.no_ftp [x01%byte] "a.png"
       {| connect_throws := None; script := [Ready; PutDone None] |}
       (Forwarder.init {| Pool.pool := []; Pool.activeConnections := 1 |} [])) = [].
Proof.
  rewrite (missing_configuration_never_connects Sample.no_ftp [x01%byte] "a.png"
             {| connect_throws := None; script := [Ready; PutDone None] |}
             {| Pool.pool := []; Pool.activeConnections := 1 |} [] eq_refl).
  reflexivity.
Defined.

(** FTP_REMOTE_PATH=/public_html/ and FTP_REMOTE_PATH=/public_html *)
Lemma remote_path_trailing_slash_witness :
  Forwarder.remoteFilePath
    (Config.mk (Some 50) (Some "ftp.example.com") (Some 21) (Some "user") (Some "secret")
       (Some "/public_html/") (Some false) (Some "img")) "a.png"
  = "/public_html/img/a.png"
  ∧ Forwarder.remoteFilePath
      (Config.mk (Some 50) (Some "ftp.example.com") (Some 21) (Some "user") (Some "secret")
         (Some "/public_html") (Some false) (Some "img")) "a.png"
    = "/public_html/img/a.png".
Proof.
  pose proof (remote_path_trailing_slash
                (Config.mk (Some 50) (Some "ftp.example.com") (Some 21) (Some "user")
                   (Some "secret") None (Some false) (Some "img"))
                "/public_html" "a.png" eq_refl) as H.
  split; [etransitivity; [exact H|]|]; reflexivity.
Defined.

(** Behind a proxy that sets all three address headers. *)
Lemma client_identifier_header_priority_witness :
  let get := λ h : string,
    if String.eqb h "cf-connecting-ip" then Some "203.0.113.7"
    else if String.eqb h "x-real-ip" then Some "10.0.0.1"
    else if String.eqb h "x-forwarded-for" then Some "10.0.0.2, 10.0.0.3"
    else None in
  let get' := λ h : string,
    if String.eqb h "cf-connecting-ip" then Some "203.0.113.7" else None in
  getClientIdentifier get' = getClientIdentifier get
  ∧ (String.length (getClientIdentifier get) ≤ 12)%nat.
Proof.
  intros get get'.
  destruct (client_identifier_header_priority (RT := Sample.runtime) get get' eq_refl)
    as (Hlen & Hcf & _).
  split; [apply Hcf; reflexivity|exact Hlen].
Defined.

(** Two proxies in the list, and white space around the first address. *)
Lemma client_identifier_first_forwarded_address_witness :
  let get := λ h : string,
    if String.eqb h "x-forwarded-for" then Some " 198.51.100.4 , 10.0.0.3" else None in
  let get' := λ h : string,
    if String.eqb h "x-forwarded-for" then Some "198.51.100.4" else None in
  getClientIdentifier get' = getClientIdentifier get.
Proof.
  intros get get'.
  apply (client_identifier_first_forwarded_address (RT := Sample.runtime) get get'
           " 198.51.100.4 " "198.51.100.4" " 10.0.0.3"); reflexivity.
Defined.

Module AnswerFacts.

Section Handlers.
Context {RT : Runtime} (env : Env).

Lemma uploadImage_answers req savePath printPath s o s' t :
  uploadImage env req savePath printPath s = (o, s', t) →
  (∀ e, o ≠ Thrown e)
  ∧ (o = Pending →
     FTP_POOL_SIZE ≤ Pool.activeConnections (ftpPool s)
     ∧ ∃ buffer filename, In (UploadToFtp buffer filename) t).
Proof.
  intros Hrun. unfold uploadImage in Hrun. run1 Hrun.
  all: split; [discriminate|]; intros Hp; try discriminate Hp.
  all: match goal with
       | H : Pool.acquire _ = None |- _ => apply PoolFacts.acquire_None in H; simpl in H
       end.
  all: split; [assumption|]; eexists _, _; simpl; eauto 10.
Qed.

Lemma uploadFile_answers req s o s' t :
  uploadFile env req s = (o, s', t) →
  (∀ e, o ≠ Thrown e)
  ∧ (o = Pending →
     FTP_POOL_SIZE ≤ Pool.activeConnections (ftpPool s)
     ∧ ∃ buffer filename, In (UploadToFtp buffer filename) t).
Proof.
  intros Hrun. unfold uploadFile in Hrun. run1 Hrun.
  all: split; [discriminate|]; intros Hp; try discriminate Hp.
  all: match goal with
       | H : Pool.acquire _ = None |- _ => apply PoolFacts.acquire_None in H; simpl in H
       end.
  all: split; [assumption|]; eexists _, _; simpl; eauto 10.
Qed.

Lemma uploadImageToFtp_answers req s o s' t :
  uploadImageToFtp env req s = (o, s', t) →
  (∀ e, o ≠ Thrown e)
  ∧ (o = Pending →
     FTP_POOL_SIZE ≤ Pool.activeConnections (ftpPool s)
     ∧ ∃ buffer filename, In (UploadToFtp buffer filename) t).
Proof.
  intros Hrun. unfold uploadImageToFtp in Hrun. run1 Hrun.
  all: split; [discriminate|]; intros Hp; try discriminate Hp.
  all: match goal with
       | H : Pool.acquire _ = None |- _ => apply PoolFacts.acquire_None in H; simpl in H
       end.
  all: split; [assumption|]; eexists _, _; simpl; eauto 10.
Qed.

End Handlers.

End AnswerFacts.

(** ** The error log *)

Module ErrorLogFacts.
Import ErrorLog.

Lemma append_inj_l (a b c : string) : a +:+ b = a +:+ c → b = c.
Proof.
  induction a as [|x a IH]; [auto|].
  rewrite !RegExpFacts.append_String. intros [= H]. auto.
Qed.

Lemma append_ne_self (a b : string) : b ≠ "" → a ≠ a +:+ b.
Proof.
  intros Hb H. apply Hb. apply (append_inj_l a). rewrite RegExpFacts.append_empty.
  symmetry. exact H.
Qed.

Section Log.
Variable P : string.

Lemma backup_inj i j : backup P i = backup P j → i = j.
Proof.
  unfold backup. intros H. apply append_inj_l in H.
  rewrite !RegExpFacts.append_String in H. injection H as H.
  simpl in H. apply (inj pretty). exact H.
Qed.

Lemma log_ne_backup i : P ≠ backup P i.
Proof. unfold backup. apply append_ne_self. discriminate. Qed.

(** [try { rename } catch { }] at a path. *)
Lemma lookup_try_rename oldPath newPath (files : gmap string (list byte)) q :
  oldPath ≠ newPath →
  match rename oldPath newPath files with Some f => f | None => files end !! q
  = match files !! oldPath with
    | Some data =>
        if decide (q = newPath) then Some data
        else if decide (q = oldPath) then None else files !! q
    | None => files !! q
    end.
Proof.
  intros Hne. unfold rename. destruct (files !! oldPath) as [data|] eqn:Hold; [|reflexivity].
  destruct (decide (q = newPath)) as [->|Hn]; [apply lookup_insert_eq|].
  rewrite lookup_insert_ne by congruence.
  destruct (decide (q = oldPath)) as [->|Ho]; [apply lookup_delete_eq|].
  apply lookup_delete_ne. congruence.
Qed.

(** The loop over the backups, from slot [n] down to slot 1: every
    backup moves up by one slot, slot 1 is left free, and the backup in
    slot [n + 1] survives only when slot [n] was empty. *)
Lemma rotate_backups_spec n (files : gmap string (list byte)) :
  (∀ q, (∀ k, 1 ≤ k ≤ Z.of_nat n + 1 → q ≠ backup P k) →
        rotate_backups P n files !! q = files !! q)
  ∧ ((1 ≤ n)%nat → rotate_backups P n files !! backup P 1 = None)
  ∧ (∀ k, 1 ≤ k ≤ Z.of_nat n →
          rotate_backups P n files !! backup P (k + 1)
          = match files !! backup P k with
            | Some d => Some d
            | None => if k =? Z.of_nat n then files !! backup P (Z.of_nat n + 1) else None
            end).
Proof.
  revert files. induction n as [|m IH]; intros files.
  { split; [reflexivity|]. split; [lia|]. intros k Hk. lia. }
  cbn [rotate_backups]. cbv zeta.
  set (files1 := match rename (backup P (Z.of_nat (S m))) (backup P (Z.of_nat (S m) + 1)) files
                 with Some f => f | None => files end).
  assert (Hstep : ∀ q, files1 !! q
            = match files !! backup P (Z.of_nat (S m)) with
              | Some data =>
                  if decide (q = backup P (Z.of_nat (S m) + 1)) then Some data
                  else if decide (q = backup P (Z.of_nat (S m))) then None else files !! q
              | None => files !! q
              end).
  { intros q. apply lookup_try_rename. intros H. apply backup_inj in H. lia. }
  destruct (IH files1) as (IH1 & IH2 & IH3).
  split; [|split].
  - intros q Hq. rewrite IH1 by (intros k Hk; apply Hq; lia).
    rewrite Hstep. destruct (files !! backup P (Z.of_nat (S m))); [|reflexivity].
    rewrite decide_False by (apply Hq; lia).
    rewrite decide_False by (apply Hq; lia). reflexivity.
  - intros _. destruct m as [|m'].
    + cbn [rotate_backups]. rewrite Hstep.
      change (Z.of_nat 1) with 1.
      destruct (files !! backup P 1) eqn:Hb; [|reflexivity].
      rewrite decide_False by (intros H; apply backup_inj in H; lia).
      rewrite decide_True by reflexivity. reflexivity.
    + apply IH2. lia.
  - intros k Hk. destruct (decide (k = Z.of_nat (S m))) as [->|Hne].
    + rewrite IH1 by (intros j Hj H; apply backup_inj in H; lia).
      rewrite Hstep, Z.eqb_refl.
      destruct (files !! backup P (Z.of_nat (S m))); [|reflexivity].
      rewrite decide_True by reflexivity. reflexivity.
    + rewrite IH3 by lia.
      assert (Hk1 : files1 !! backup P k = files !! backup P k).
      { rewrite Hstep. destruct (files !! backup P (Z.of_nat (S m))); [|reflexivity].
        rewrite decide_False by (intros H; apply backup_inj in H; lia).
        rewrite decide_False by (intros H; apply backup_inj in H; lia). reflexivity. }
      assert (Hm1 : files1 !! backup P (Z.of_nat m + 1) = None).
      { replace (Z.of_nat m + 1) with (Z.of_nat (S m)) by lia.
        rewrite Hstep. destruct (files !! backup P (Z.of_nat (S m))) eqn:Hs; [|reflexivity].
        rewrite decide_False by (intros H; apply backup_inj in H; lia).
        rewrite decide_True by reflexivity. reflexivity. }
      rewrite Hk1, Hm1.
      destruct (files !! backup P k); [reflexivity|].
      destruct (Z.eqb_spec k (Z.of_nat (S m))); [contradiction|].
      destruct (k =? Z.of_nat m); reflexivity.
Qed.

(** The files after a rotation, in terms of the loop over the backups. *)
Lemma rotated_files (files : gmap string (list byte)) data :
  files !! P = Some data →
  MAX_LOG_SIZE_BYTES ≤ Z.of_nat (length data) →
  rotate_backups P 4 files !! P = Some data
  ∧ rotateLogFile P files
    = <[P := []]> (<[backup P 1 := data]> (delete P (rotate_backups P 4 files))).
Proof.
  intros Hlog Hsize.
  destruct (rotate_backups_spec 4 files) as (Hframe & _ & _).
  assert (Hafter : rotate_backups P 4 files !! P = Some data).
  { rewrite Hframe; [exact Hlog|]. intros k _. apply log_ne_backup. }
  split; [exact Hafter|].
  unfold rotateLogFile. rewrite Hlog.
  destruct (Z.leb_spec MAX_LOG_SIZE_BYTES (Z.of_nat (length data))); [|lia].
  change (Z.to_nat (MAX_LOG_BACKUPS - 1)) with 4%nat. cbv zeta.
  unfold rename. rewrite Hafter. reflexivity.
Qed.

Lemma not_rotated (files : gmap string (list byte)) :
  match files !! P with
  | Some data => MAX_LOG_SIZE_BYTES <=? Z.of_nat (length data)
  | None => false
  end = false →
  rotateLogFile P files = files.
Proof.
  unfold rotateLogFile. destruct (files !! P) as [data|]; [|reflexivity].
  intros ->. reflexivity.
Qed.

End Log.

End ErrorLogFacts.

(** X15. When the log has reached 10 MB, rotateLogFile moves it to slot 1
    and starts an empty log; every backup in the slots 1 to 4 moves up by
    one slot, a free slot leaves the next one free, and the backup in slot 5
    is overwritten, so lost, exactly when slot 4 was occupied. No other
    file is touched: in particular there is never a slot 6. *)
Theorem rotation_shifts_the_backups
    (ERROR_LOG_PATH : string) (files : gmap string (list byte)) (data : list byte) :
  files !! ERROR_LOG_PATH = Some data →
  MAX_LOG_SIZE_BYTES ≤ Z.of_nat (length data) →
  let backup := ErrorLog.backup ERROR_LOG_PATH in
  let files' := ErrorLog.rotateLogFile ERROR_LOG_PATH files in
  files' !! ERROR_LOG_PATH = Some []
  ∧ files' !! backup 1 = Some data
  ∧ (∀ k d, 1 ≤ k ≤ 4 → files !! backup k = Some d → files' !! backup (k + 1) = Some d)
  ∧ (∀ k, 1 ≤ k < 4 → files !! backup k = None → files' !! backup (k + 1) = None)
  ∧ (files !! backup 4 = None → files' !! backup 5 = files !! backup 5)
  ∧ (∀ q, q ≠ ERROR_LOG_PATH → (∀ k, 1 ≤ k ≤ 5 → q ≠ backup k) →
          files' !! q = files !! q).
Proof.
  intros Hlog Hsize backup files'.
  destruct (ErrorLogFacts.rotate_backups_spec ERROR_LOG_PATH 4 files) as (Hframe & Hone & Hup).
  destruct (ErrorLogFacts.rotated_files ERROR_LOG_PATH files data Hlog Hsize)
    as [Hafter Hfiles'].
  fold files' in Hfiles'. fold backup in Hfiles'.
  set (after := ErrorLog.rotate_backups ERROR_LOG_PATH 4 files) in *.
  assert (Hslot : ∀ k, 1 ≤ k ≤ 4 → files' !! backup (k + 1) = after !! backup (k + 1)).
  { intros k Hk. rewrite Hfiles'.
    rewrite lookup_insert_ne by apply ErrorLogFacts.log_ne_backup.
    rewrite lookup_insert_ne
      by (intros H; apply ErrorLogFacts.backup_inj in H; lia).
    apply lookup_delete_ne. apply ErrorLogFacts.log_ne_backup. }
  split; [rewrite Hfiles'; apply lookup_insert_eq|].
  split.
  { rewrite Hfiles'. rewrite lookup_insert_ne by apply ErrorLogFacts.log_ne_backup.
    apply lookup_insert_eq. }
  split.
  { intros k d Hk Hd. rewrite Hslot by lia. rewrite Hup by lia. fold backup.
    rewrite Hd. reflexivity. }
  split.
  { intros k Hk Hd. rewrite Hslot by lia. rewrite Hup by lia. fold backup.
    rewrite Hd. destruct (Z.eqb_spec k (Z.of_nat 4)); [lia|reflexivity]. }
  split.
  { intros Hd. change 5 with (4 + 1). rewrite Hslot by lia. rewrite Hup by lia.
    fold backup. rewrite Hd. reflexivity. }
  intros q Hq Hk. rewrite Hfiles'.
  rewrite lookup_insert_ne by congruence.
  rewrite lookup_insert_ne by (intros H; apply (Hk 1); [lia|congruence]).
  rewrite lookup_delete_ne by congruence.
  apply Hframe. intros k Hk'. apply Hk. lia.
Qed.

(** X16. logErrorToFile always ends with the entry at the end of the log:
    after what the log held when it is below 10 MB, alone when the log was
    rotated or did not exist. Without a rotation no other file changes, and
    a rotation changes the five backup slots only. Creating the log first
    (initializeErrorLog) makes no difference to the result. *)
Theorem log_entry_is_appended
    (ERROR_LOG_PATH timestamp error : string) (files : gmap string (list byte)) :
  let entry := ErrorLog.utf8 (ErrorLog.errorMessage timestamp error) in
  let files' := ErrorLog.logErrorToFile ERROR_LOG_PATH timestamp error files in
  let rotated :=
    match files !! ERROR_LOG_PATH with
    | Some data => MAX_LOG_SIZE_BYTES <=? Z.of_nat (length data)
    | None => false
    end in
  files' !! ERROR_LOG_PATH
  = Some ((if rotated then [] else default [] (files !! ERROR_LOG_PATH)) ++ entry)%list
  ∧ (∀ q, q ≠ ERROR_LOG_PATH →
          rotated = false ∨ (∀ k, 1 ≤ k ≤ 5 → q ≠ ErrorLog.backup ERROR_LOG_PATH k) →
          files' !! q = files !! q)
  ∧ ErrorLog.logErrorToFile ERROR_LOG_PATH timestamp error
      (ErrorLog.initializeErrorLog ERROR_LOG_PATH files) = files'.
Proof.
  intros entry files' rotated.
  subst files'. unfold ErrorLog.logErrorToFile, ErrorLog.appendFile. fold entry.
  split; [|split].
  - rewrite lookup_insert_eq. f_equal. f_equal.
    destruct rotated eqn:Hr.
    + subst rotated. destruct (files !! ERROR_LOG_PATH) as [data|] eqn:Hlog; [|discriminate].
      apply Z.leb_le in Hr.
      destruct (ErrorLogFacts.rotated_files ERROR_LOG_PATH files data Hlog Hr) as [_ ->].
      rewrite lookup_insert_eq. reflexivity.
    + rewrite ErrorLogFacts.not_rotated by exact Hr. reflexivity.
  - intros q Hq Hwhich. rewrite lookup_insert_ne by congruence.
    destruct rotated eqn:Hr.
    + destruct Hwhich as [Hf|Hk]; [discriminate Hf|].
      subst rotated. destruct (files !! ERROR_LOG_PATH) as [data|] eqn:Hlog; [|discriminate].
      apply Z.leb_le in Hr.
      destruct (ErrorLogFacts.rotated_files ERROR_LOG_PATH files data Hlog Hr) as [_ ->].
      destruct (ErrorLogFacts.rotate_backups_spec ERROR_LOG_PATH 4 files) as (Hframe & _ & _).
      rewrite lookup_insert_ne by congruence.
      rewrite lookup_insert_ne by (intros H; apply (Hk 1); [lia|congruence]).
      rewrite lookup_delete_ne by congruence.
      apply Hframe. intros k Hk'. apply Hk. lia.
    + rewrite ErrorLogFacts.not_rotated by exact Hr. reflexivity.
  - unfold ErrorLog.initializeErrorLog.
    destruct (files !! ERROR_LOG_PATH) as [data|] eqn:Hlog; [reflexivity|].
    unfold ErrorLog.rotateLogFile. rewrite lookup_insert_eq, Hlog. simpl.
    rewrite lookup_insert_eq, Hlog. simpl. apply insert_insert_eq.
Qed.

(** ** The files when a request is over *)

Module DiskFacts.

Section Disk.
Variables (P : string) (timestamp : nat → string) (stack : string → string).

(** logErrorToFile changes the log and, when it rotates, the five backup
    slots; nothing else. *)
Lemma logErrorToFile_frame stamp e (files : gmap string (list byte)) q :
  q ≠ P → (∀ k, 1 ≤ k ≤ 5 → q ≠ ErrorLog.backup P k) →
  ErrorLog.logErrorToFile P stamp e files !! q = files !! q.
Proof.
  intros Hq Hk. unfold ErrorLog.logErrorToFile, ErrorLog.appendFile.
  rewrite lookup_insert_ne by congruence.
  destruct (files !! P) as [data|] eqn:Hlog.
  - destruct (Z.leb_spec MAX_LOG_SIZE_BYTES (Z.of_nat (length data))) as [Hfull|Hroom].
    + destruct (ErrorLogFacts.rotated_files P files data Hlog Hfull) as [_ ->].
      destruct (ErrorLogFacts.rotate_backups_spec P 4 files) as (Hframe & _ & _).
      rewrite lookup_insert_ne by congruence.
      rewrite lookup_insert_ne by (intros H; apply (Hk 1); [lia|congruence]).
      rewrite lookup_delete_ne by congruence.
      apply Hframe. intros k Hk'. apply Hk. lia.
    + rewrite ErrorLogFacts.not_rotated; [reflexivity|].
      rewrite Hlog. apply Z.leb_gt. exact Hroom.
  - rewrite ErrorLogFacts.not_rotated; [reflexivity|]. rewrite Hlog. reflexivity.
Qed.

Lemma log_errors_frame errors i (files : gmap string (list byte)) q :
  q ≠ P → (∀ k, 1 ≤ k ≤ 5 → q ≠ ErrorLog.backup P k) →
  log_errors P timestamp stack i errors files !! q = files !! q.
Proof.
  intros Hq Hk. revert i files. induction errors as [|e errors IH]; intros i files.
  - reflexivity.
  - cbn [log_errors]. rewrite IH. apply logErrorToFile_frame; assumption.
Qed.

Lemma files_after_frame (s s' : State) q :
  q ≠ P → (∀ k, 1 ≤ k ≤ 5 → q ≠ ErrorLog.backup P k) →
  files_after P timestamp stack s s' !! q = fs_files s' !! q.
Proof. intros Hq Hk. unfold files_after. apply log_errors_frame; assumption. Qed.

(** A request that logs nothing leaves the files of its own calls. *)
Lemma files_after_quiet (s s' : State) :
  error_log s' = error_log s → files_after P timestamp stack s s' = fs_files s'.
Proof. intros Hlog. unfold files_after. rewrite Hlog, drop_all. reflexivity. Qed.

End Disk.

Section Handlers.
Context {RT : Runtime} (env : Env).

(** What the calls of an upload themselves change. *)
Lemma uploadImage_store req savePath printPath s o s' t :
  uploadImage env req savePath printPath s = (o, s', t) →
  fs_dirs s ⊆ fs_dirs s'
  ∧ (∀ q, (∀ data, ¬ In (WriteFile q data) t) → fs_files s' !! q = fs_files s !! q)
  ∧ (∀ p1 d1 p2 d2, In (WriteFile p1 d1) t → In (WriteFile p2 d2) t →
       p1 = p2 ∧ d1 = d2)
  ∧ ∃ more, error_log s' = (error_log s ++ more)%list.
Proof.
  assert (Hlog : ∀ (l : list string), ∃ more, l = (l ++ more)%list).
  { intros l. exists []. rewrite app_nil_r. reflexivity. }
  intros Hrun. unfold uploadImage in Hrun. run1 Hrun.
  all: split; [simpl; set_solver|].
  all: split;
    [ intros q Hq; simpl;
      try reflexivity;
      apply lookup_insert_ne; intros <-; eapply Hq; simpl; eauto 10 |].
  all: split;
    [ intros p1 d1 p2 d2 Hw1 Hw2; trace_in Hw1; trace_in Hw2; simplify_eq; auto |].
  all: simpl;
    first [ apply Hlog
          | eexists [_]; reflexivity
          | apply SessionFacts.session_log ].
Qed.

Lemma uploadFile_store req s o s' t :
  uploadFile env req s = (o, s', t) →
  fs_dirs s ⊆ fs_dirs s'
  ∧ (∀ q, (∀ data, ¬ In (WriteFile q data) t) → fs_files s' !! q = fs_files s !! q)
  ∧ (∀ p1 d1 p2 d2, In (WriteFile p1 d1) t → In (WriteFile p2 d2) t →
       p1 = p2 ∧ d1 = d2)
  ∧ ∃ more, error_log s' = (error_log s ++ more)%list.
Proof.
  assert (Hlog : ∀ (l : list string), ∃ more, l = (l ++ more)%list).
  { intros l. exists []. rewrite app_nil_r. reflexivity. }
  intros Hrun. unfold uploadFile in Hrun. run1 Hrun.
  all: split; [simpl; set_solver|].
  all: split;
    [ intros q Hq; simpl;
      try reflexivity;
      apply lookup_insert_ne; intros <-; eapply Hq; simpl; eauto 10 |].
  all: split;
    [ intros p1 d1 p2 d2 Hw1 Hw2; trace_in Hw1; trace_in Hw2; simplify_eq; auto |].
  all: simpl;
    first [ apply Hlog
          | eexists [_]; reflexivity
          | apply SessionFacts.session_log ].
Qed.

Lemma uploadImageToFtp_store req s o s' t :
  uploadImageToFtp env req s = (o, s', t) →
  fs_dirs s' = fs_dirs s
  ∧ fs_files s' = fs_files s
  ∧ (∀ call, In call t →
       (∃ buffer filename, call = UploadToFtp buffer filename)
       ∨ (∃ r, call = Forwarded r))
  ∧ ∃ more, error_log s' = (error_log s ++ more)%list.
Proof.
  assert (Hlog : ∀ (l : list string), ∃ more, l = (l ++ more)%list).
  { intros l. exists []. rewrite app_nil_r. reflexivity. }
  intros Hrun. unfold uploadImageToFtp in Hrun. run1 Hrun.
  all: split; [reflexivity|]; split; [reflexivity|].
  all: split; [intros call Hin; simpl in Hin; intuition eauto|].
  all: simpl;
    first [ apply Hlog
          | eexists [_]; reflexivity
          | apply SessionFacts.session_log ].
Qed.

End Handlers.

End DiskFacts.

(** X2. The remote-only endpoint stores nothing. Whatever the request and
    however the forward ends, its only calls are those of the forward: no
    access, mkdir or writeFile. The errors it logs (an unreadable body, a
    failed connection or put) are written by logErrorToFile, which may
    rotate the log; so when the request is over the directories are as
    before, and so is every file other than error.log and its five backups.
    A request that logs nothing leaves all files as they were. *)
Theorem remote_only_upload_stores_nothing `{RT : Runtime} (env : Env)
    (ERROR_LOG_PATH : string) (timestamp : nat → string) (stack : string → string)
    (req : Request) (s s' : State) (o : Outcome Response.t) (t : list Effect) :
  uploadImageToFtp env req s = (o, s', t) →
  let files' := files_after ERROR_LOG_PATH timestamp stack s s' in
  fs_dirs s' = fs_dirs s
  ∧ fs_files s' = fs_files s
  ∧ (∀ call, In call t →
       (∃ buffer filename, call = UploadToFtp buffer filename)
       ∨ (∃ r, call = Forwarded r))
  ∧ (∃ more, error_log s' = (error_log s ++ more)%list)
  ∧ (∀ q, q ≠ ERROR_LOG_PATH →
          (∀ k, 1 ≤ k ≤ 5 → q ≠ ErrorLog.backup ERROR_LOG_PATH k) →
          files' !! q = fs_files s !! q)
  ∧ (error_log s' = error_log s → files' = fs_files s).
Proof.
  intros Hrun files'.
  destruct (DiskFacts.uploadImageToFtp_store env _ _ _ _ _ Hrun)
    as (Hdirs & Hfiles & Hcalls & Hlog).
  split; [exact Hdirs|]. split; [exact Hfiles|]. split; [exact Hcalls|].
  split; [exact Hlog|]. split.
  - intros q Hq Hk. subst files'. rewrite DiskFacts.files_after_frame by assumption.
    rewrite Hfiles. reflexivity.
  - intros Hquiet. subst files'. rewrite DiskFacts.files_after_quiet by exact Hquiet.
    exact Hfiles.
Qed.

(** X5. An upload writes one file at most, and its directories only grow.
    The errors it logs are written by logErrorToFile, which may rotate the
    log: so when the request is over, every file other than the one named
    in the write, error.log and the five backups of the log is as before.
    An upload that logs nothing changes the written file only. *)
Theorem upload_leaves_other_files_alone `{RT : Runtime} (env : Env)
    (ERROR_LOG_PATH : string) (timestamp : nat → string) (stack : string → string) :
  (∀ req savePath printPath s o s' t,
     uploadImage env req savePath printPath s = (o, s', t) →
     let files' := files_after ERROR_LOG_PATH timestamp stack s s' in
     fs_dirs s ⊆ fs_dirs s'
     ∧ (∀ q, (∀ data, ¬ In (WriteFile q data) t) → fs_files s' !! q = fs_files s !! q)
     ∧ (∀ p1 d1 p2 d2, In (WriteFile p1 d1) t → In (WriteFile p2 d2) t →
          p1 = p2 ∧ d1 = d2)
     ∧ (∃ more, error_log s' = (error_log s ++ more)%list)
     ∧ (∀ q, (∀ data, ¬ In (WriteFile q data) t) →
             q ≠ ERROR_LOG_PATH →
             (∀ k, 1 ≤ k ≤ 5 → q ≠ ErrorLog.backup ERROR_LOG_PATH k) →
             files' !! q = fs_files s !! q)
     ∧ (error_log s' = error_log s →
        ∀ q, (∀ data, ¬ In (WriteFile q data) t) → files' !! q = fs_files s !! q))
  ∧ (∀ req s o s' t,
       uploadFile env req s = (o, s', t) →
       let files' := files_after ERROR_LOG_PATH timestamp stack s s' in
       fs_dirs s ⊆ fs_dirs s'
       ∧ (∀ q, (∀ data, ¬ In (WriteFile q data) t) → fs_files s' !! q = fs_files s !! q)
       ∧ (∀ p1 d1 p2 d2, In (WriteFile p1 d1) t → In (WriteFile p2 d2) t →
            p1 = p2 ∧ d1 = d2)
       ∧ (∃ more, error_log s' = (error_log s ++ more)%list)
       ∧ (∀ q, (∀ data, ¬ In (WriteFile q data) t) →
               q ≠ ERROR_LOG_PATH →
               (∀ k, 1 ≤ k ≤ 5 → q ≠ ErrorLog.backup ERROR_LOG_PATH k) →
               files' !! q = fs_files s !! q)
       ∧ (error_log s' = error_log s →
          ∀ q, (∀ data, ¬ In (WriteFile q data) t) → files' !! q = fs_files s !! q)).
Proof.
  assert (Hdisk : ∀ (s s' : State) (t : list Effect),
            (∀ q, (∀ data, ¬ In (WriteFile q data) t) →
                  fs_files s' !! q = fs_files s !! q) →
            let files' := files_after ERROR_LOG_PATH timestamp stack s s' in
            (∀ q, (∀ data, ¬ In (WriteFile q data) t) →
                  q ≠ ERROR_LOG_PATH →
                  (∀ k, 1 ≤ k ≤ 5 → q ≠ ErrorLog.backup ERROR_LOG_PATH k) →
                  files' !! q = fs_files s !! q)
            ∧ (error_log s' = error_log s →
               ∀ q, (∀ data, ¬ In (WriteFile q data) t) → files' !! q = fs_files s !! q)).
  { intros s s' t Hother files'. split.
    - intros q Hq Hlog Hk. subst files'. rewrite DiskFacts.files_after_frame by assumption.
      apply Hother, Hq.
    - intros Hquiet q Hq. subst files'. rewrite DiskFacts.files_after_quiet by exact Hquiet.
      apply Hother, Hq. }
  split.
  - intros req savePath printPath s o s' t Hrun files'.
    destruct (DiskFacts.uploadImage_store env _ _ _ _ _ _ _ Hrun)
      as (Hdirs & Hother & Hone & Hlog).
    repeat (split; [assumption|]). apply Hdisk, Hother.
  - intros req s o s' t Hrun files'.
    destruct (DiskFacts.uploadFile_store env _ _ _ _ _ Hrun)
      as (Hdirs & Hother & Hone & Hlog).
    repeat (split; [assumption|]). apply Hdisk, Hother.
Qed.

(** ** Routing *)

(** Decide the comparisons of a route. *)
Ltac absurd_route :=
  match goal with
  | H : @eq string _ _ |- _ => discriminate H
  end.

Ltac routes :=
  repeat match goal with
    | |- context [String.eqb ?a ?b] =>
        destruct (String.eqb_spec a b); subst; try absurd_route; cbn [andb orb negb]
    | H : context [String.eqb ?a ?b] |- _ =>
        destruct (String.eqb_spec a b); subst; try absurd_route; cbn [andb orb negb] in H
    end.

(** X17. Every request is checked for the API key before anything else:
    without the header, or with an empty one, the answer is 401 "Require
    api-key"; with any value other than the built-in key it is 401
    "Unauthorized". This holds for every method, path and body; nothing is
    stored, no call is made, the configuration file is not read: the key
    that counts is the constant, whatever API_KEY the file sets. *)
Theorem request_without_the_key_is_rejected `{RT : Runtime}
    (env : Env) (host : Host) (req : HttpRequest) (server : Server) :
  http_headers req "api-key" ≠ Some AP_KEY →
  handleRequest env host req server
  = (Returned (Plain (createErrorResponse
                        (if Js.truthy_string (http_headers req "api-key")
                         then "Unauthorized" else "Require api-key")
                        HTTP_STATUS_UNAUTHORIZED)),
     server, []).
Proof.
  intros Hkey. unfold handleRequest, checkApiKey.
  destruct (http_headers req "api-key") as [k|]; [|reflexivity].
  unfold Js.truthy_string. destruct (String.eqb_spec k ""); [reflexivity|].
  change (default "" (Some k)) with k. cbn [negb].
  destruct (String.eqb_spec k AP_KEY); [congruence|reflexivity].
Qed.

(** X18. With the key, a request whose method and path are not one of the
    eight routes is answered 404, and nothing happens: the match is exact
    (no trailing slash, no other method), so a GET of an upload path or a
    POST of /check is a 404 as well. *)
Theorem unknown_route_is_not_found `{RT : Runtime}
    (env : Env) (host : Host) (req : HttpRequest) (server : Server) :
  http_headers req "api-key" = Some AP_KEY →
  ¬ In (method req, pathname req)
       [("GET", "/check"); ("GET", "/save_path"); ("POST", "/upload_image");
        ("POST", "/upload_file"); ("POST", "/upload_image_ftp"); ("GET", "/config");
        ("POST", "/config/reset"); ("POST", "/config/update")] →
  handleRequest env host req server
  = (Returned (Plain (createErrorResponse
                        "CANNOT GET: The requested resource was not found"
                        HTTP_STATUS_NOT_FOUND)),
     server, []).
Proof.
  intros Hkey Hroute. unfold handleRequest, checkApiKey. rewrite Hkey.
  change (negb (Js.truthy_string (Some AP_KEY))) with false.
  change (default "" (Some AP_KEY)) with AP_KEY.
  rewrite String.eqb_refl. cbn [negb]. cbv zeta.
  destruct req as [m p hs tb fb jb]. cbn [method pathname] in *.
  routes; try reflexivity.
  all: exfalso; apply Hroute; subst; simpl; auto 10.
Qed.

(** X19. The two halves of the server do not touch each other. Only the
    three upload routes change the uploads (files, directories, pool, error
    log) or make a call; only the three configuration routes change the
    configuration file, among them the GET of /config, which may rewrite it;
    and a request is never left with an exception unless that rewrite fails. *)
Theorem routes_keep_to_their_state `{RT : Runtime}
    (env : Env) (host : Host) (req : HttpRequest) (server server' : Server)
    (o : Outcome Reply) (t : list Effect) :
  handleRequest env host req server = (o, server', t) →
  (¬ In (method req, pathname req)
        [("POST", "/upload_image"); ("POST", "/upload_file"); ("POST", "/upload_image_ftp")] →
   uploads server' = uploads server ∧ t = [])
  ∧ (¬ In (method req, pathname req)
          [("GET", "/config"); ("POST", "/config/reset"); ("POST", "/config/update")] →
     config_file server' = config_file server)
  ∧ (∀ e, o = Thrown e →
          method req = "GET" ∧ pathname req = "/config" ∧ write_fault host = Some e).
Proof.
  intros Hrun. unfold handleRequest in Hrun.
  destruct (checkApiKey (http_headers req)) as [r|].
  { unfold answer in Hrun. injection Hrun as <- <- <-.
    split; [auto|]. split; [auto|]. discriminate. }
  cbv zeta in Hrun.
  destruct req as [m p hs tb fb jb]. cbn [method pathname http_headers] in *.
  assert (Hupload : ∀ handler : M Response.t,
            (∀ s o1 s1 t1, handler s = (o1, s1, t1) → ∀ e, o1 ≠ Thrown e) →
            upload handler server = (o, server', t) →
            config_file server' = config_file server ∧ ∀ e, o ≠ Thrown e).
  { intros handler Hnt H. unfold upload in H.
    destruct (handler (uploads server)) as [[o1 s1] t1] eqn:Hh. injection H as <- <- <-.
    split; [reflexivity|]. intros e. specialize (Hnt _ _ _ _ Hh e).
    destruct o1; congruence. }
  routes.
  all: try (apply Hupload in Hrun as [Hfile Hnt];
            [ split; [intros Hn; exfalso; apply Hn; subst; simpl; auto|];
              split; [intros _; exact Hfile|]; intros e He; destruct (Hnt e He)
            | intros s o1 s1 t1 Hh;
              first [ apply AnswerFacts.uploadImage_answers in Hh
                    | apply AnswerFacts.uploadFile_answers in Hh
                    | apply AnswerFacts.uploadImageToFtp_answers in Hh ];
              apply Hh ]).
  all: unfold answer in Hrun.
  all: try (injection Hrun as <- <- <-;
            split; [intros _; split; reflexivity|];
            split; [intros _; reflexivity|]; discriminate).
  - (* GET /config *)
    unfold ConfigFile.getCurrentConfig, ConfigFile.parseConfigFile in Hrun.
    destruct (ConfigFile.validateAndFixConfig host (config_file server)) as [[e|c] file] eqn:Hv;
      injection Hrun as <- <- <-.
    + split; [intros _; split; reflexivity|].
      split; [intros Hn; exfalso; apply Hn; subst; simpl; auto|].
      intros e' [= <-]. subst. split; [reflexivity|]. split; [reflexivity|].
      unfold ConfigFile.validateAndFixConfig, ConfigFile.writeCompleteConfigFile,
        ConfigFile.writeFileSync in Hv.
      destruct (write_fault host) as [w|]; [|repeat case_match; simplify_eq].
      repeat case_match; simplify_eq; reflexivity.
    + split; [intros _; split; reflexivity|].
      split; [intros Hn; exfalso; apply Hn; subst; simpl; auto|]. discriminate.
  - (* POST /config/reset *)
    destruct (ConfigFile.resetConfigToDefault host (config_file server)) as [[e|u] file];
      injection Hrun as <- <- <-.
    all: split; [intros _; split; reflexivity|].
    all: split; [intros Hn; exfalso; apply Hn; subst; simpl; auto|]; discriminate.
  - (* POST /config/update *)
    destruct jb as [e|[key value]]; cbn [json_body] in Hrun.
    { injection Hrun as <- <- <-. split; [intros _; split; reflexivity|].
      split; [intros Hn; exfalso; apply Hn; subst; simpl; auto|]; discriminate. }
    destruct (negb (Value.truthy key) || Value.is_undefined value).
    { injection Hrun as <- <- <-. split; [intros _; split; reflexivity|].
      split; [intros Hn; exfalso; apply Hn; subst; simpl; auto|]; discriminate. }
    destruct (ConfigFile.updateConfigValue host (Value.to_string key) value
                (config_file server)) as [[|] file];
      injection Hrun as <- <- <-.
    all: split; [intros _; split; reflexivity|].
    all: split; [intros Hn; exfalso; apply Hn; subst; simpl; auto|]; discriminate.
Qed.

(** ** Parsing a line *)

Module ParseFacts.
Import RegExp Text Value Line ConfigFile ConfigShape LineFacts.

Lemma trimStart_length s : (String.length (trimStart s) ≤ String.length s)%nat.
Proof.
  induction s as [|c s IH]; [reflexivity|]. simpl. destruct (is_space c); simpl; lia.
Qed.

Lemma plain_key_head k :
  plain_key k → ∃ c k', k = String c k' ∧ is_space c = false ∧ Ascii.eqb c "#" = false.
Proof.
  intros (Hne & Htrim & Hhash & _). destruct k as [|c k']; [congruence|].
  exists c, k'. split; [reflexivity|]. split; [|exact Hhash].
  destruct (is_space c) eqn:Hc; [|reflexivity].
  simpl in Htrim. rewrite Hc in Htrim.
  pose proof (trimStart_length k') as Hlen. rewrite Htrim in Hlen. simpl in Hlen. lia.
Qed.

(** The trimmed form of a line that starts with a key and an equals sign. *)
Lemma trim_assignment k rest :
  plain_key k → trim (k +:+ String "=" rest) = k +:+ String "=" (trimEnd rest).
Proof.
  intros Hk. destruct (plain_key_head k Hk) as (c & k' & -> & Hc & _).
  unfold trim. rewrite RegExpFacts.append_String, trimStart_keeps by exact Hc.
  rewrite <- RegExpFacts.append_String. apply trimEnd_app. reflexivity.
Qed.

Lemma split_assignment k rest :
  plain_key k → split "=" (k +:+ String "=" rest) = k :: split "=" rest.
Proof.
  intros (_ & _ & _ & Hk). rewrite LineFacts.split_app, LineFacts.split_no_sep by exact Hk.
  reflexivity.
Qed.

Lemma not_a_comment k rest :
  plain_key k →
  String.eqb (k +:+ String "=" rest) "" || startsWith (k +:+ String "=" rest) "#" = false.
Proof.
  intros Hk. destruct (plain_key_head k Hk) as (c & k' & -> & _ & Hc).
  rewrite RegExpFacts.append_String. simpl. exact Hc.
Qed.

(** A line [k=v]: the assignment it makes. *)
Lemma parse_line_assign host d k v :
  plain_key k → v ≠ "" → string_forallb (λ c, negb (Ascii.eqb c "=")) v = true →
  trimEnd v = v →
  parse_line host d (k +:+ String "=" v) = assign host (trim k) (trim (remove QUOTE v)) d.
Proof.
  intros Hk Hv Hno Htrim. unfold parse_line.
  rewrite trim_assignment, Htrim by exact Hk. cbv zeta.
  rewrite not_a_comment, split_assignment by exact Hk.
  rewrite LineFacts.split_no_sep by exact Hno.
  destruct Hk as (Hk & _).
  destruct (String.eqb_spec k ""); [congruence|].
  destruct (String.eqb_spec v ""); [congruence|]. reflexivity.
Qed.

(** A line [k=v=rest]: what follows the second equals sign is dropped. *)
Lemma parse_line_cut host d k v rest :
  plain_key k → v ≠ "" → string_forallb (λ c, negb (Ascii.eqb c "=")) v = true →
  parse_line host d (k +:+ String "=" (v +:+ String "=" rest))
  = assign host (trim k) (trim (remove QUOTE v)) d.
Proof.
  intros Hk Hv Hno. unfold parse_line.
  rewrite trim_assignment by exact Hk. cbv zeta.
  rewrite not_a_comment, split_assignment by exact Hk.
  rewrite LineFacts.trimEnd_app by reflexivity.
  rewrite LineFacts.split_app, LineFacts.split_no_sep by exact Hno.
  pose proof (LineFacts.split_nonempty "=" (trimEnd rest)) as Hne.
  destruct (split "=" (trimEnd rest)) as [|piece pieces]; [congruence|].
  cbn [app]. destruct Hk as (Hk & _).
  destruct (String.eqb_spec k ""); [congruence|].
  destruct (String.eqb_spec v ""); [congruence|]. reflexivity.
Qed.


Lemma parse_line_skipped host d line : skipped line → parse_line host d line = d.
Proof.
  intros [Hblank|[Hhash|Hno]]; unfold parse_line; cbv zeta.
  - rewrite Hblank. reflexivity.
  - rewrite Hhash, orb_true_r. reflexivity.
  - destruct (String.eqb (trim line) "" || startsWith (trim line) "#"); [reflexivity|].
    rewrite LineFacts.split_no_sep; [reflexivity|]. apply LineFacts.trim_forall, Hno.
Qed.

(** A line changes the value of its key at most. *)
Lemma assign_other host k v d k' : k' ≠ k → get (assign host k v d) k' = get d k'.
Proof.
  intros Hne. unfold assign, get.
  repeat case_match; rewrite lookup_insert_ne by congruence; reflexivity.
Qed.

Lemma parse_line_other host d line k' :
  k' ≠ key_of line → get (parse_line host d line) k' = get d k'.
Proof.
  intros Hne. unfold parse_line, key_of in *. cbv zeta.
  destruct (String.eqb (trim line) "" || startsWith (trim line) "#"); [reflexivity|].
  destruct (split "=" (trim line)) as [|key [|value pieces]]; [reflexivity..|].
  destruct (String.eqb key "" || String.eqb value ""); [reflexivity|].
  apply assign_other. exact Hne.
Qed.

Lemma parse_lines_other host lines d k' :
  Forall (λ line, k' ≠ key_of line) lines →
  get (fold_left (parse_line host) lines d) k' = get d k'.
Proof.
  intros Hall. revert d. induction Hall as [|line lines Hline Hlines IH]; intros d;
    [reflexivity|].
  cbn [fold_left]. rewrite IH. apply parse_line_other, Hline.
Qed.

Lemma key_of_assignment k rest : plain_key k → trim k = k → key_of (k +:+ String "=" rest) = k.
Proof.
  intros Hk Htrim. unfold key_of. rewrite trim_assignment, split_assignment by exact Hk.
  exact Htrim.
Qed.

Lemma key_of_skipped host d line k v :
  skipped line → get (parse_line host d line) k = v → get d k = v.
Proof. intros Hs. rewrite parse_line_skipped by exact Hs. auto. Qed.

(** The lines of a file that holds a line [c] between [a] and [b]. *)
Lemma lines_around a c b :
  no_line_feed c →
  split LF (a +:+ String LF (c +:+ String LF b))
  = (split LF a ++ c :: split LF b)%list.
Proof.
  intros Hc. rewrite !LineFacts.split_app, (LineFacts.split_no_sep LF c Hc). reflexivity.
Qed.

End ParseFacts.

(** X20. Comment lines, blank lines and lines without an equals sign do
    not count: such a line can stand anywhere in config.txt without
    changing what is parsed from it. *)
Theorem skipped_lines_do_not_count (host : Host) (before line after : string) :
  ConfigShape.no_line_feed line →
  Text.trim line = "" ∨ Line.startsWith (Text.trim line) "#" = true
  ∨ RegExp.string_forallb (λ c, negb (Ascii.eqb c "=")) line = true →
  ConfigFile.parse host (before +:+ String Line.LF (line +:+ String Line.LF after))
  = ConfigFile.parse host (before +:+ String Line.LF after).
Proof.
  intros Hlf Hskip. unfold ConfigFile.parse.
  rewrite ParseFacts.lines_around by exact Hlf.
  rewrite LineFacts.split_app, !fold_left_app. cbn [fold_left].
  rewrite ParseFacts.parse_line_skipped by exact Hskip. reflexivity.
Qed.

(** X21. A value is cut at its first equals sign: of a line k=v=rest only
    v is kept, exactly as if the line were k=v. (So an API key or password
    that contains an equals sign is silently shortened.) The quotes of v are
    removed and the white space around key and value is trimmed. *)
Theorem value_is_cut_at_the_second_equals_sign
    (host : Host) (configData : gmap string Value.t) (k v rest : string) :
  ConfigShape.plain_key k →
  v ≠ "" →
  RegExp.string_forallb (λ c, negb (Ascii.eqb c "=")) v = true →
  Text.trimEnd v = v →
  ConfigFile.parse_line host configData (k +:+ "=" +:+ v +:+ "=" +:+ rest)
  = ConfigFile.parse_line host configData (k +:+ "=" +:+ v)
  ∧ ConfigFile.parse_line host configData (k +:+ "=" +:+ v)
    = ConfigFile.assign host (Text.trim k) (Text.trim (Line.remove Line.QUOTE v)) configData.
Proof.
  intros Hk Hv Hno Htrim.
  change (k +:+ "=" +:+ v +:+ "=" +:+ rest) with (k +:+ String "=" (v +:+ String "=" rest)).
  change (k +:+ "=" +:+ v) with (k +:+ String "=" v).
  rewrite ParseFacts.parse_line_cut, ParseFacts.parse_line_assign by assumption.
  split; reflexivity.
Qed.

(** ** The shape of a parsed configuration *)

Module ShapeFacts.
Import RegExp Text Value Line ConfigFile ConfigShape LineFacts ParseFacts.

Lemma get_insert_eq (d : gmap string Value.t) k v : get (<[k := v]> d) k = v.
Proof. unfold get. rewrite lookup_insert_eq. reflexivity. Qed.

Lemma get_insert_ne (d : gmap string Value.t) k k' v :
  k ≠ k' → get (<[k := v]> d) k' = get d k'.
Proof. intros H. unfold get. rewrite lookup_insert_ne by exact H. reflexivity. Qed.

Lemma get_empty k : get ∅ k = Undefined.
Proof. unfold get. rewrite lookup_empty. reflexivity. Qed.

(** *** Clean strings *)

Lemma plain_char_spec c :
  plain_char c = true
  ↔ Ascii.eqb c LF = false ∧ Ascii.eqb c QUOTE = false ∧ Ascii.eqb c "=" = false.
Proof.
  unfold plain_char. rewrite !andb_true_iff, !negb_true_iff. tauto.
Qed.

Lemma plain_forall s :
  string_forallb plain_char s = true
  ↔ string_forallb (λ c, negb (Ascii.eqb c LF)) s = true
    ∧ string_forallb (λ c, negb (Ascii.eqb c QUOTE)) s = true
    ∧ string_forallb (λ c, negb (Ascii.eqb c "=")) s = true.
Proof.
  induction s as [|c s IH]; [simpl; tauto|]. simpl.
  rewrite !andb_true_iff, IH, plain_char_spec, !negb_true_iff. tauto.
Qed.

Lemma clean_no_line_feed s : clean s → no_line_feed s.
Proof. intros (_ & H & _). apply plain_forall in H. apply H. Qed.

Lemma clean_trimEnd s : clean s → trimEnd s = s.
Proof.
  intros (_ & _ & H). rewrite <- H at 1. unfold trim. rewrite trimEnd_idem. exact H.
Qed.

Lemma clean_head s : clean s → ∃ c t, s = String c t ∧ is_space c = false.
Proof.
  intros (Hne & _ & H). unfold trim in H.
  destruct (trimStart_head s) as [He|(c & t & He & Hc)]; rewrite He in H.
  - simpl in H. congruence.
  - destruct (trimEnd_head c t s H) as [->|[t' ->]]; [congruence|]. eauto.
Qed.

(** The value of a line, cleaned, is clean unless it is empty. *)
Lemma cleanValue_clean value :
  no_line_feed value →
  string_forallb (λ c, negb (Ascii.eqb c "=")) value = true →
  trim (remove QUOTE value) ≠ "" →
  clean (trim (remove QUOTE value)).
Proof.
  intros Hlf Heq Hne. split; [exact Hne|]. split; [|apply trim_idem].
  apply plain_forall. split; [|split].
  - apply trim_forall, remove_forall, Hlf.
  - apply trim_forall, remove_removed.
  - apply trim_forall, remove_forall, Heq.
Qed.

(** *** What the parser stores *)

Section Host.
Variable host : Host.
Hypothesis Hnumeric : ∀ s, numeric (Number host s).

Lemma assign_stored k v d :
  (v = "" ∨ clean v) →
  (∀ k', stored k' (get d k')) →
  ∀ k', stored k' (get (assign host k v d) k').
Proof.
  intros Hv Hd k'. unfold assign.
  destruct (String.eqb k "PORT" || String.eqb k "FTP_PORT" || String.eqb k "MAX_FILE_SIZE_MB")
    eqn:Hnum.
  { destruct (decide (k = k')) as [<-|Hne]; [|rewrite get_insert_ne by exact Hne; apply Hd].
    rewrite get_insert_eq. right. unfold is_number_key. rewrite Hnum. apply Hnumeric. }
  destruct (String.eqb k "FTP_SECURE") eqn:Hsec.
  { destruct (decide (k = k')) as [<-|Hne]; [|rewrite get_insert_ne by exact Hne; apply Hd].
    rewrite get_insert_eq. right. unfold is_number_key. rewrite Hnum, Hsec. eauto. }
  destruct (decide (k = k')) as [<-|Hne]; [|rewrite get_insert_ne by exact Hne; apply Hd].
  rewrite get_insert_eq. destruct (String.eqb_spec v "") as [->|Hne]; [left; reflexivity|].
  right. unfold is_number_key. rewrite Hnum, Hsec. exists v. split; [reflexivity|].
  destruct Hv; [congruence|assumption].
Qed.

Lemma parse_line_stored d line :
  no_line_feed line →
  (∀ k, stored k (get d k)) →
  ∀ k, stored k (get (parse_line host d line) k).
Proof.
  intros Hlf Hd. unfold parse_line. cbv zeta.
  destruct (String.eqb (trim line) "" || startsWith (trim line) "#"); [exact Hd|].
  pose proof (split_forall _ "=" (trim line) (trim_forall _ line Hlf)) as Hpieces.
  pose proof (split_pieces "=" (trim line)) as Hno.
  destruct (split "=" (trim line)) as [|key [|value pieces]]; [exact Hd..|].
  destruct (String.eqb key "" || String.eqb value ""); [exact Hd|].
  apply assign_stored; [|exact Hd].
  inversion Hpieces as [|? ? _ Hrest]; subst. inversion Hrest as [|? ? Hvalue _]; subst.
  inversion Hno as [|? ? _ Hrest']; subst. inversion Hrest' as [|? ? Hvalue' _]; subst.
  destruct (String.eqb_spec (trim (remove QUOTE value)) "") as [He|Hne]; [left; exact He|].
  right. apply cleanValue_clean; assumption.
Qed.

Lemma parse_lines_stored lines d :
  Forall no_line_feed lines →
  (∀ k, stored k (get d k)) →
  ∀ k, stored k (get (fold_left (parse_line host) lines d) k).
Proof.
  intros Hall. revert d. induction Hall as [|line lines Hline Hlines IH]; intros d Hd;
    [exact Hd|].
  cbn [fold_left]. apply IH, parse_line_stored; assumption.
Qed.

Lemma parse_stored content k : stored k (get (parse host content) k).
Proof.
  unfold parse. apply parse_lines_stored.
  - apply split_pieces.
  - intros k'. left. apply get_empty.
Qed.

End Host.

End ShapeFacts.

(** Read a key of a map that is written as a chain of inserts. *)
Ltac read_key :=
  repeat first
    [ rewrite ShapeFacts.get_insert_eq
    | rewrite ShapeFacts.get_insert_ne by discriminate
    | rewrite ShapeFacts.get_empty ].

Module FinalFacts.
Import RegExp Text Value Line ConfigFile ConfigShape LineFacts ParseFacts ShapeFacts.

Section Host.
Variable host : Host.

Lemma finalConfig_pick d k :
  In k ["SAVE_PATH"; "PRINT_PATH"; "PORT"; "API_KEY"; "MAX_FILE_SIZE_MB"; "FTP_HOST";
        "FTP_PORT"; "FTP_USERNAME"; "FTP_PASSWORD"; "FTP_REMOTE_PATH"; "FTP_DIRECTORY"] →
  get (finalConfig host d) k = or (get d k) (DEFAULT host k).
Proof.
  intros Hk. unfold finalConfig. cbv zeta. cbn [list_to_map fold_right fst snd].
  simpl in Hk. repeat (destruct Hk as [<-|Hk]; [read_key; reflexivity|]). contradiction.
Qed.

Lemma finalConfig_secure d :
  get (finalConfig host d) "FTP_SECURE"
  = if is_undefined (get d "FTP_SECURE") then Bool false else get d "FTP_SECURE".
Proof.
  unfold finalConfig. cbv zeta. cbn [list_to_map fold_right fst snd]. read_key. reflexivity.
Qed.

Lemma finalConfig_other d k :
  ¬ In k ["SAVE_PATH"; "PRINT_PATH"; "PORT"; "API_KEY"; "MAX_FILE_SIZE_MB"; "FTP_HOST";
          "FTP_PORT"; "FTP_USERNAME"; "FTP_PASSWORD"; "FTP_REMOTE_PATH"; "FTP_SECURE";
          "FTP_DIRECTORY"] →
  get (finalConfig host d) k = Undefined.
Proof.
  intros Hk. unfold finalConfig. cbv zeta. cbn [list_to_map fold_right fst snd].
  repeat (rewrite get_insert_ne by (intros <-; apply Hk; simpl; auto 15)).
  apply get_empty.
Qed.

(** Two parses with the same picks give the same configuration. *)
Lemma finalConfig_ext d d' :
  (∀ k, In k ["SAVE_PATH"; "PRINT_PATH"; "PORT"; "API_KEY"; "MAX_FILE_SIZE_MB"; "FTP_HOST";
              "FTP_PORT"; "FTP_USERNAME"; "FTP_PASSWORD"; "FTP_REMOTE_PATH"; "FTP_DIRECTORY"] →
        or (get d' k) (DEFAULT host k) = or (get d k) (DEFAULT host k)) →
  (if is_undefined (get d' "FTP_SECURE") then DEFAULT host "FTP_SECURE"
   else get d' "FTP_SECURE")
  = (if is_undefined (get d "FTP_SECURE") then DEFAULT host "FTP_SECURE"
     else get d "FTP_SECURE") →
  finalConfig host d' = finalConfig host d.
Proof.
  intros Hpick Hsec. unfold finalConfig. cbv zeta. rewrite Hsec.
  rewrite !Hpick by (simpl; auto 15). reflexivity.
Qed.

Hypothesis Hhost : well_behaved host.

Lemma or_text v s : stored "SAVE_PATH" v → clean s → text (or v (Str s)).
Proof.
  intros [->|(s' & -> & Hs')] Hs; [exists s; auto|].
  exists s'. split; [|exact Hs']. unfold or. simpl.
  destruct Hs' as (Hne & _). destruct (String.eqb_spec s' ""); [congruence|reflexivity].
Qed.

Lemma or_optional v : stored "SAVE_PATH" v → optional_text (or v Undefined).
Proof.
  intros [->|(s' & -> & Hs')]; [left; reflexivity|].
  right. exists s'. split; [|exact Hs']. unfold or. simpl.
  destruct Hs' as (Hne & _). destruct (String.eqb_spec s' ""); [congruence|reflexivity].
Qed.

Lemma or_number v n : stored "PORT" v → n ≠ 0 → number (or v (Num n)).
Proof.
  intros [->|[->|[m ->]]] Hn; [exists n; auto..|].
  unfold or. simpl. destruct (Z.eqb_spec m 0); [exists n; auto|exists m; auto].
Qed.

Lemma API_KEY_clean : clean API_KEY.
Proof. split; [discriminate|]. split; reflexivity. Qed.

(** The configuration returned for any parse is complete. *)
Lemma finalConfig_complete d :
  (∀ k, stored k (get d k)) → complete (finalConfig host d).
Proof.
  intros Hd. destruct Hhost as (Hsave & Hprint & _).
  unfold complete.
  rewrite !finalConfig_pick by (simpl; auto 15). rewrite finalConfig_secure.
  split; [apply or_text; [apply (Hd "SAVE_PATH")|exact Hsave]|].
  split; [apply or_text; [apply (Hd "PRINT_PATH")|exact Hprint]|].
  split; [apply or_number; [apply (Hd "PORT")|discriminate]|].
  split; [apply or_text; [apply (Hd "API_KEY")|exact API_KEY_clean]|].
  split; [apply or_number; [apply (Hd "MAX_FILE_SIZE_MB")|discriminate]|].
  split; [apply or_optional, (Hd "FTP_HOST")|].
  split; [apply or_number; [apply (Hd "FTP_PORT")|discriminate]|].
  split; [apply or_optional, (Hd "FTP_USERNAME")|].
  split; [apply or_optional, (Hd "FTP_PASSWORD")|].
  split; [apply or_text; [apply (Hd "FTP_REMOTE_PATH")|]|].
  { split; [discriminate|]. split; reflexivity. }
  split; [|apply or_optional, (Hd "FTP_DIRECTORY")].
  destruct (Hd "FTP_SECURE") as [->|[b ->]]; simpl; eauto.
Qed.

(** What validateAndFixConfig returns is the final form of a parse. *)
Lemma validate_final file c file' :
  validateAndFixConfig host file = (inr c, file') →
  ∃ d, c = finalConfig host d ∧ (∀ k, stored k (get d k))
       ∧ d = match file with Some content => parse host content | None => ∅ end.
Proof.
  destruct Hhost as (_ & _ & _ & Hnum & _).
  unfold validateAndFixConfig. cbv zeta.
  set (d := match file with Some content => parse host content | None => ∅ end).
  assert (Hd : ∀ k, stored k (get d k)).
  { subst d. destruct file as [content|]; [intros k; apply parse_stored, Hnum|].
    intros k. left. apply get_empty. }
  intros H. exists d. split; [|auto].
  destruct (match file with Some _ => missing host d | None => true end).
  - destruct (writeCompleteConfigFile host (finalConfig host d)); congruence.
  - congruence.
Qed.

Lemma validate_complete file c file' :
  validateAndFixConfig host file = (inr c, file') → complete c.
Proof.
  intros H. destruct (validate_final _ _ _ H) as (d & -> & Hd & _).
  apply finalConfig_complete, Hd.
Qed.

End Host.

End FinalFacts.

(** ** What the server writes to the configuration file *)

Module WrittenFacts.
Import RegExp Text Value Line ConfigFile ConfigShape LineFacts ParseFacts ShapeFacts FinalFacts.

Lemma join_snoc sep lines :
  lines ≠ [] → join sep (lines ++ [""]) = join sep lines +:+ sep.
Proof.
  induction lines as [|line rest IH]; [congruence|]. intros _.
  destruct rest as [|line' rest'].
  - simpl. rewrite RegExpFacts.append_empty. reflexivity.
  - change (join sep ((line :: line' :: rest') ++ [""]))
      with (line +:+ sep +:+ join sep ((line' :: rest') ++ [""])).
    rewrite IH by discriminate.
    change (join sep (line :: line' :: rest'))
      with (line +:+ sep +:+ join sep (line' :: rest')).
    rewrite !NameFacts.append_assoc. reflexivity.
Qed.

Lemma no_line_feed_app a b : no_line_feed a → no_line_feed b → no_line_feed (a +:+ b).
Proof.
  unfold no_line_feed. intros Ha Hb. rewrite forallb_app, Ha, Hb. reflexivity.
Qed.

Lemma no_line_feed_quoted k v : no_line_feed k → no_line_feed v → no_line_feed (quoted k v).
Proof.
  intros Hk Hv. unfold quoted.
  repeat apply no_line_feed_app; try assumption; reflexivity.
Qed.

Lemma no_line_feed_bare k v : no_line_feed k → no_line_feed v → no_line_feed (bare k v).
Proof.
  intros Hk Hv. unfold bare. repeat apply no_line_feed_app; try assumption; reflexivity.
Qed.

Lemma pretty_no_line_feed (n : Z) : no_line_feed (pretty n).
Proof.
  destruct (pretty_Z_digits n) as [Hd _]. revert Hd. apply forallb_impl.
  intros c. unfold digit_or_minus, in_range.
  destruct (Ascii.eqb_spec c LF) as [->|]; [discriminate|reflexivity].
Qed.

(** The string form of the fields of a complete configuration. *)
Lemma text_no_line_feed v : text v → no_line_feed (to_string v).
Proof. intros (s & -> & Hs). apply clean_no_line_feed, Hs. Qed.

Lemma optional_text_no_line_feed v : optional_text v → no_line_feed (to_string v).
Proof. intros [->|H]; [reflexivity|apply text_no_line_feed, H]. Qed.

Lemma number_no_line_feed v : number v → no_line_feed (to_string v).
Proof. intros (n & -> & _). apply pretty_no_line_feed. Qed.

Lemma complete_no_line_feed c k :
  complete c →
  In k ["SAVE_PATH"; "PRINT_PATH"; "PORT"; "API_KEY"; "MAX_FILE_SIZE_MB"; "FTP_HOST";
        "FTP_PORT"; "FTP_USERNAME"; "FTP_PASSWORD"; "FTP_REMOTE_PATH"; "FTP_SECURE";
        "FTP_DIRECTORY"] →
  no_line_feed (to_string (get c k)).
Proof.
  intros (H1 & H2 & H3 & H4 & H5 & H6 & H7 & H8 & H9 & H10 & [b H11] & H12) Hk.
  simpl in Hk.
  repeat (destruct Hk as [<-|Hk];
          [ first [ apply text_no_line_feed; assumption
                  | apply number_no_line_feed; assumption
                  | apply optional_text_no_line_feed; assumption
                  | rewrite H11; destruct b; reflexivity ] |]).
  contradiction.
Qed.

Lemma assigns_quoted keys k v : In k keys → assigns keys (quoted k v).
Proof. intros Hk. exists k, (String QUOTE v +:+ String QUOTE ""). auto. Qed.

Lemma assigns_bare keys k v : In k keys → assigns keys (bare k v).
Proof. intros Hk. exists k, v. auto. Qed.

Lemma config_key_plain k : In k CONFIG_KEYS → plain_key k ∧ trim k = k.
Proof.
  intros Hk. simpl in Hk.
  repeat (destruct Hk as [<-|Hk];
          [split; [split; [discriminate|]; split; [reflexivity|]; split; reflexivity
                  |reflexivity]|]).
  contradiction.
Qed.

Lemma key_of_assigns keys line k' :
  (∀ k, In k keys → In k CONFIG_KEYS) → ¬ In k' keys →
  assigns keys line → k' ≠ key_of line.
Proof.
  intros Hsub Hk' (k & rest & Hk & ->).
  destruct (config_key_plain k (Hsub k Hk)) as [Hplain Htrim].
  rewrite key_of_assignment by assumption. intros ->. contradiction.
Qed.

End WrittenFacts.

Module UpdateFacts.
Import RegExp Text Value Line ConfigFile ConfigShape LineFacts ParseFacts ShapeFacts FinalFacts
  WrittenFacts.

(** In a list of lines built from the fields: each line is one line and
    assigns its key. *)
Ltac written_lines Hfield :=
  repeat first
    [ apply Forall_nil
    | apply Forall_cons
    | apply Forall_app; split
    | match goal with |- Forall _ (if ?b then _ else _) => destruct b end
    | split ];
  first
    [ apply no_line_feed_quoted; [reflexivity|apply Hfield; simpl; auto 15]
    | apply no_line_feed_bare; [reflexivity|apply Hfield; simpl; auto 15]
    | apply assigns_quoted; simpl; auto 15
    | apply assigns_bare; simpl; auto 15 ].

Lemma updated_lines (c : gmap string Value.t) :
  (∀ k, In k CONFIG_KEYS → no_line_feed (to_string (get c k))) →
  Forall (λ line, no_line_feed line ∧ assigns UPDATED_KEYS line) (updatedConfigLines c).
Proof.
  intros Hfield. unfold updatedConfigLines. cbv zeta. written_lines Hfield.
Qed.

Lemma updatedConfigLines_nonempty (c : gmap string Value.t) : updatedConfigLines c ≠ [].
Proof. unfold updatedConfigLines. discriminate. Qed.

End UpdateFacts.

(** X22. updateConfigValue rewrites config.txt without PRINT_PATH and
    MAX_FILE_SIZE_MB: whatever the file held and whichever key is updated,
    the file that a successful update leaves assigns neither, so that the
    next read of the configuration returns the default print directory and
    the default limit of 50 MB. In particular an update of PRINT_PATH or
    MAX_FILE_SIZE_MB itself is lost. (The new value is one line.) *)
Theorem update_forgets_print_path_and_size_limit
    (host : Host) (file file2 : option string) (key : string) (value : Value.t) :
  ConfigShape.well_behaved host →
  ConfigShape.no_line_feed (Value.to_string value) →
  ConfigFile.updateConfigValue host key value file = (true, file2) →
  ∃ content,
    file2 = Some content
    ∧ Value.get (ConfigFile.parse host content) "PRINT_PATH" = Value.Undefined
    ∧ Value.get (ConfigFile.parse host content) "MAX_FILE_SIZE_MB" = Value.Undefined
    ∧ ∀ config file3,
        ConfigFile.getCurrentConfig host file2 = (inr config, file3) →
        Value.get config "PRINT_PATH" = Value.Str (DEFAULT_PRINT_PATH host)
        ∧ Value.get config "MAX_FILE_SIZE_MB" = Value.Num MAX_FILE_SIZE_MB.
Proof.
  intros Hhost Hvalue Hupdate.
  unfold ConfigFile.updateConfigValue, ConfigFile.getCurrentConfig,
    ConfigFile.parseConfigFile in Hupdate.
  destruct (ConfigFile.validateAndFixConfig host file) as [[e|c] file1] eqn:Hread;
    [discriminate|].
  cbv zeta in Hupdate. unfold ConfigFile.writeFileSync in Hupdate.
  destruct (write_fault host) as [e|] eqn:Hfault; [discriminate|].
  injection Hupdate as <-.
  pose proof (FinalFacts.validate_complete host Hhost _ _ _ Hread) as Hc.
  set (c' := <[key := value]> c) in *.
  assert (Hfield : ∀ k, In k ConfigShape.CONFIG_KEYS →
                        ConfigShape.no_line_feed (Value.to_string (Value.get c' k))).
  { intros k Hk. subst c'. destruct (decide (key = k)) as [->|Hne].
    - rewrite ShapeFacts.get_insert_eq. exact Hvalue.
    - rewrite ShapeFacts.get_insert_ne by exact Hne.
      apply WrittenFacts.complete_no_line_feed; assumption. }
  pose proof (UpdateFacts.updated_lines c' Hfield) as Hlines.
  set (lines := ConfigFile.updatedConfigLines c') in *.
  assert (Hsplit : Line.split Line.LF (Line.join (String Line.LF "") lines +:+ String Line.LF "")
                   = (lines ++ [""])%list).
  { rewrite <- WrittenFacts.join_snoc by apply UpdateFacts.updatedConfigLines_nonempty.
    apply LineFacts.split_join; [destruct lines; discriminate|].
    apply Forall_app. split; [|repeat constructor].
    eapply Forall_impl; [exact Hlines|]. intros line [H _]. exact H. }
  assert (Hother : ∀ k, ¬ In k ConfigShape.UPDATED_KEYS → k ≠ "" →
            Value.get (ConfigFile.parse host
                         (Line.join (String Line.LF "") lines +:+ String Line.LF "")) k
            = Value.Undefined).
  { intros k Hk Hne. unfold ConfigFile.parse. rewrite Hsplit.
    rewrite ParseFacts.parse_lines_other; [apply ShapeFacts.get_empty|].
    apply Forall_app. split.
    - eapply Forall_impl; [exact Hlines|]. intros line [_ H].
      eapply WrittenFacts.key_of_assigns; [|exact Hk|exact H].
      intros k0 Hk0. simpl in Hk0. simpl. intuition.
    - repeat constructor. exact Hne. }
  exists (Line.join (String Line.LF "") lines +:+ String Line.LF "").
  split; [reflexivity|].
  assert (Hprint := Hother "PRINT_PATH").
  assert (Hsize := Hother "MAX_FILE_SIZE_MB").
  rewrite Hprint, Hsize by (first [discriminate | simpl; intuition discriminate]).
  split; [reflexivity|]. split; [reflexivity|].
  intros config file3 Hnext.
  unfold ConfigFile.getCurrentConfig, ConfigFile.parseConfigFile in Hnext.
  destruct (FinalFacts.validate_final host Hhost _ _ _ Hnext) as (d & -> & _ & Hd).
  change (d = ConfigFile.parse host
                (Line.join (String Line.LF "") lines +:+ String Line.LF "")) in Hd.
  subst d. rewrite !FinalFacts.finalConfig_pick by (simpl; auto 15).
  rewrite Hprint, Hsize by (first [discriminate | simpl; intuition discriminate]).
  split; reflexivity.
Qed.

Module RoundTripFacts.
Import RegExp Text Value Line ConfigFile ConfigShape LineFacts ParseFacts ShapeFacts FinalFacts
  WrittenFacts.

Lemma trim_fixed_trimEnd v : trim v = v → trimEnd v = v.
Proof. intros H. rewrite <- H at 1. unfold trim. rewrite trimEnd_idem. exact H. Qed.

Lemma clean_parts s :
  clean s →
  s ≠ "" ∧ string_forallb (λ c, negb (Ascii.eqb c "=")) s = true
  ∧ string_forallb (λ c, negb (Ascii.eqb c QUOTE)) s = true ∧ trim s = s.
Proof. intros (Hne & Hp & Ht). apply plain_forall in Hp. tauto. Qed.

Lemma pretty_parts (n : Z) :
  pretty n ≠ "" ∧ string_forallb (λ c, negb (Ascii.eqb c "=")) (pretty n) = true
  ∧ string_forallb (λ c, negb (Ascii.eqb c QUOTE)) (pretty n) = true
  ∧ trim (pretty n) = pretty n.
Proof.
  destruct (pretty_Z_digits n) as [Hd Hne]. split; [exact Hne|].
  split; [|split].
  - revert Hd. apply forallb_impl. intros c. unfold digit_or_minus, in_range.
    destruct (Ascii.eqb_spec c "=") as [->|]; [discriminate|reflexivity].
  - revert Hd. apply forallb_impl. intros c. unfold digit_or_minus, in_range.
    destruct (Ascii.eqb_spec c QUOTE) as [->|]; [discriminate|reflexivity].
  - apply trim_no_space. revert Hd. apply forallb_impl. intros c.
    unfold digit_or_minus, in_range, is_space.
    destruct c as [[] [] [] [] [] [] [] []]; vm_compute; congruence.
Qed.

Section Host.
Variable host : Host.

(** A written line [k=v] with a tidy [v] is read as the assignment of [v]. *)
Lemma parse_bare d k v :
  In k CONFIG_KEYS →
  v ≠ "" ∧ string_forallb (λ c, negb (Ascii.eqb c "=")) v = true
  ∧ string_forallb (λ c, negb (Ascii.eqb c QUOTE)) v = true ∧ trim v = v →
  parse_line host d (bare k v) = assign host k v d.
Proof.
  intros Hk (Hne & Heq & Hq & Ht). destruct (config_key_plain k Hk) as [Hplain Hkt].
  change (bare k v) with (k +:+ String "=" v).
  rewrite parse_line_assign by (auto using trim_fixed_trimEnd).
  rewrite Hkt, remove_none, Ht by exact Hq. reflexivity.
Qed.

(** A written line [k="v"] with a tidy [v] is read as the assignment of [v]. *)
Lemma parse_quoted d k v :
  In k CONFIG_KEYS →
  v ≠ "" ∧ string_forallb (λ c, negb (Ascii.eqb c "=")) v = true
  ∧ string_forallb (λ c, negb (Ascii.eqb c QUOTE)) v = true ∧ trim v = v →
  parse_line host d (quoted k v) = assign host k v d.
Proof.
  intros Hk (Hne & Heq & Hq & Ht). destruct (config_key_plain k Hk) as [Hplain Hkt].
  change (quoted k v) with (k +:+ String "=" (String QUOTE v +:+ String QUOTE "")).
  rewrite parse_line_assign; [| exact Hplain | discriminate | |].
  - rewrite Hkt. f_equal.
    change (String QUOTE v +:+ String QUOTE "") with (String QUOTE (v +:+ String QUOTE "")).
    cbn [remove]. rewrite Ascii.eqb_refl, remove_app, remove_none by exact Hq.
    simpl. rewrite RegExpFacts.append_empty. exact Ht.
  - change (String QUOTE v +:+ String QUOTE "") with (String QUOTE (v +:+ String QUOTE "")).
    simpl. rewrite forallb_app, Heq. reflexivity.
  - rewrite (trimEnd_app (String QUOTE v) QUOTE "") by reflexivity. reflexivity.
Qed.

Lemma comment_skipped rest : skipped (String "#" rest).
Proof.
  right. left. unfold trim. rewrite trimStart_keeps by reflexivity.
  change (String "#" rest) with ("" +:+ String "#" rest).
  rewrite trimEnd_app by reflexivity. reflexivity.
Qed.

Lemma blank_skipped : skipped "".
Proof. left. reflexivity. Qed.

Lemma assign_text d k s :
  In k ["SAVE_PATH"; "PRINT_PATH"; "API_KEY"; "FTP_HOST"; "FTP_USERNAME"; "FTP_PASSWORD";
        "FTP_REMOTE_PATH"; "FTP_DIRECTORY"] →
  s ≠ "" → assign host k s d = <[k := Str s]> d.
Proof.
  intros Hk Hs. simpl in Hk.
  destruct (String.eqb_spec s ""); [congruence|].
  repeat (destruct Hk as [<-|Hk];
          [unfold assign; simpl; destruct (String.eqb_spec s ""); [congruence|reflexivity]|]).
  contradiction.
Qed.

Lemma assign_number d k v :
  In k ["PORT"; "FTP_PORT"; "MAX_FILE_SIZE_MB"] →
  assign host k v d = <[k := Number host v]> d.
Proof.
  intros Hk. simpl in Hk.
  repeat (destruct Hk as [<-|Hk]; [reflexivity|]). contradiction.
Qed.

Lemma assign_secure d (b : bool) :
  assign host "FTP_SECURE" (to_string (Bool b)) d = <["FTP_SECURE" := Bool b]> d.
Proof. destruct b; reflexivity. Qed.

Lemma bool_parts (b : bool) :
  to_string (Bool b) ≠ ""
  ∧ string_forallb (λ c, negb (Ascii.eqb c "=")) (to_string (Bool b)) = true
  ∧ string_forallb (λ c, negb (Ascii.eqb c QUOTE)) (to_string (Bool b)) = true
  ∧ trim (to_string (Bool b)) = to_string (Bool b).
Proof. destruct b; (split; [discriminate|]); repeat split. Qed.

Lemma fold_left_step (d : gmap string Value.t) line lines :
  fold_left (parse_line host) (line :: lines) d
  = fold_left (parse_line host) lines (parse_line host d line).
Proof. reflexivity. Qed.

End Host.

End RoundTripFacts.

(** One line of the written file, read. *)
Ltac read_line Hread :=
  rewrite RoundTripFacts.fold_left_step;
  first
    [ rewrite ParseFacts.parse_line_skipped
        by first [ apply RoundTripFacts.blank_skipped | apply RoundTripFacts.comment_skipped ]
    | rewrite RoundTripFacts.parse_quoted
        by (first [ solve [simpl; auto 15] | apply RoundTripFacts.clean_parts; assumption ]);
      rewrite RoundTripFacts.assign_text
        by (first [ solve [simpl; auto 15] | apply RoundTripFacts.clean_parts; assumption ])
    | rewrite RoundTripFacts.parse_bare
        by (first [ solve [simpl; auto 15] | apply RoundTripFacts.pretty_parts ]);
      rewrite RoundTripFacts.assign_number by (simpl; auto 15);
      rewrite Hread
    | rewrite RoundTripFacts.parse_bare
        by (first [ solve [simpl; auto 15] | apply RoundTripFacts.bool_parts ]);
      rewrite RoundTripFacts.assign_secure
    | rewrite RoundTripFacts.parse_bare
        by (first [ solve [simpl; auto 15] | apply RoundTripFacts.clean_parts; assumption ]);
      rewrite RoundTripFacts.assign_text
        by (first [ solve [simpl; auto 15] | apply RoundTripFacts.clean_parts; assumption ]) ].

Module FixpointFacts.
Import RegExp Text Value Line ConfigFile ConfigShape LineFacts ParseFacts ShapeFacts FinalFacts
  WrittenFacts RoundTripFacts.

Lemma truthy_text s : clean s → truthy (Str s) = true.
Proof.
  intros (Hne & _). simpl. destruct (String.eqb_spec s ""); [congruence|reflexivity].
Qed.

Section Host.
Variable host : Host.
Hypothesis Hhost : well_behaved host.

Lemma parse_written c :
  complete c →
  let d2 := parse host (join (String LF "") (completeConfigLines host c)) in
  (∀ k, In k ["SAVE_PATH"; "PRINT_PATH"; "PORT"; "API_KEY"; "MAX_FILE_SIZE_MB"] →
        get d2 k = get c k)
  ∧ (∀ k, In k ["FTP_HOST"; "FTP_PORT"; "FTP_USERNAME"; "FTP_PASSWORD"; "FTP_REMOTE_PATH";
                "FTP_SECURE"; "FTP_DIRECTORY"] →
          get d2 k = if truthy (get c "FTP_HOST") then get c k else Undefined).
Proof.
  destruct Hhost as (_ & _ & Hstamp & _ & Hread).
  intros ((sp & Hsp & Csp) & (pp & Hpp & Cpp) & (p & Hp & _) & (ak & Hak & Cak)
          & (m & Hm & _) & Hh & (fp & Hfp & _) & Hu & Hpw & (r & Hr & Cr) & (b & Hb) & Hdir).
  intros d2. subst d2. unfold parse, completeConfigLines. cbv zeta.
  rewrite Hsp, Hpp, Hp, Hak, Hm, Hfp, Hr, Hb.
  destruct Hh as [Hh|(h & Hh & Ch)]; rewrite Hh;
    [change (truthy Undefined) with false | rewrite (truthy_text h Ch)].
  - set (secure := to_string (Bool b)). cbn [to_string app]. subst secure.
    rewrite split_join; [|discriminate|].
    2:{ repeat constructor;
          first [ reflexivity
                | apply no_line_feed_quoted; [reflexivity|apply clean_no_line_feed; assumption]
                | apply no_line_feed_bare; [reflexivity|apply pretty_no_line_feed]
                | apply no_line_feed_app; [reflexivity|exact Hstamp] ]. }
    repeat read_line Hread. cbn [fold_left].
    split; intros k Hk; simpl in Hk;
      repeat (destruct Hk as [<-|Hk]; [read_key; congruence|]); contradiction.
  - destruct Hu as [Hu|(u & Hu & Cu)]; rewrite Hu;
      [change (truthy Undefined) with false | rewrite (truthy_text u Cu)].
    all: destruct Hpw as [Hpw|(pw & Hpw & Cpw)]; rewrite Hpw;
      [change (truthy Undefined) with false | rewrite (truthy_text pw Cpw)].
    all: destruct Hdir as [Hdir|(dir & Hdir & Cdir)]; rewrite Hdir;
      [change (truthy Undefined) with false | rewrite (truthy_text dir Cdir)].
    all: set (secure := to_string (Bool b)); cbn [to_string app]; subst secure.
    all: rewrite split_join; [|discriminate|].
    all: try solve
      [ repeat constructor;
          first [ reflexivity
                | apply no_line_feed_quoted; [reflexivity|apply clean_no_line_feed; assumption]
                | apply no_line_feed_bare; [reflexivity|apply pretty_no_line_feed]
                | apply no_line_feed_bare; [reflexivity|apply clean_no_line_feed; assumption]
                | apply no_line_feed_bare; [reflexivity|destruct b; reflexivity]
                | apply no_line_feed_app; [reflexivity|exact Hstamp] ] ].
    all: repeat read_line Hread; cbn [fold_left].
    all: split; intros k Hk; simpl in Hk;
      repeat (destruct Hk as [<-|Hk]; [read_key; congruence|]); contradiction.
Qed.

End Host.

End FixpointFacts.

Module RereadFacts.
Import RegExp Text Value Line ConfigFile ConfigShape LineFacts ParseFacts ShapeFacts FinalFacts
  WrittenFacts RoundTripFacts FixpointFacts.

Lemma or_idem a b : or (or a b) b = or a b.
Proof. unfold or. destruct (truthy a) eqn:Ha; [rewrite Ha|destruct (truthy b)]; reflexivity. Qed.

Lemma or_undefined a : truthy a = false → or a Undefined = Undefined.
Proof. unfold or. intros ->. reflexivity. Qed.

Lemma missing_spec host d :
  missing host d
  = existsb (λ k, is_undefined (get d k))
      ["SAVE_PATH"; "PRINT_PATH"; "PORT"; "API_KEY"; "MAX_FILE_SIZE_MB"; "FTP_PORT";
       "FTP_REMOTE_PATH"; "FTP_SECURE"].
Proof.
  unfold missing, DEFAULT_CONFIG. cbn [existsb fst snd is_undefined negb].
  rewrite !andb_true_r, !andb_false_r. cbn [orb]. reflexivity.
Qed.

Lemma validate_existing host content :
  validateAndFixConfig host (Some content)
  = if missing host (parse host content) then
      match writeCompleteConfigFile host (finalConfig host (parse host content)) with
      | inl e => (inl e, Some content)
      | inr file' => (inr (finalConfig host (parse host content)), file')
      end
    else (inr (finalConfig host (parse host content)), Some content).
Proof. reflexivity. Qed.

End RereadFacts.

(** X23. With an FTP host configured, the file that writeCompleteConfigFile
    writes is a fixed point: read again, it gives the same configuration,
    and it is not rewritten. *)
Theorem complete_file_is_read_back
    (host : Host) (file file1 : option string) (config : gmap string Value.t) :
  ConfigShape.well_behaved host →
  ConfigFile.validateAndFixConfig host file = (inr config, file1) →
  Value.truthy (Value.get config "FTP_HOST") = true →
  let written :=
    Some (Line.join (String Line.LF "") (ConfigFile.completeConfigLines host config)) in
  ConfigFile.validateAndFixConfig host written = (inr config, written).
Proof.
  intros Hhost Hread Hftp written.
  destruct (FinalFacts.validate_final host Hhost _ _ _ Hread) as (d & -> & Hd & _).
  pose proof (FinalFacts.finalConfig_complete host Hhost d Hd) as Hc.
  destruct (FixpointFacts.parse_written host Hhost _ Hc) as [Hbasic Hremote].
  rewrite Hftp in Hremote.
  set (d2 := ConfigFile.parse host
               (Line.join (String Line.LF "")
                  (ConfigFile.completeConfigLines host (ConfigFile.finalConfig host d)))) in *.
  assert (Hsame : ∀ k, In k ConfigShape.CONFIG_KEYS →
                       Value.get d2 k = Value.get (ConfigFile.finalConfig host d) k).
  { intros k Hk. simpl in Hk.
    repeat (destruct Hk as [<-|Hk];
            [first [ solve [apply Hbasic; simpl; auto 15]
                   | solve [apply Hremote; simpl; auto 15] ]|]).
    contradiction. }
  assert (Hfinal : ConfigFile.finalConfig host d2 = ConfigFile.finalConfig host d).
  { apply FinalFacts.finalConfig_ext.
    - intros k Hk. rewrite Hsame by (simpl in Hk |- *; intuition).
      rewrite FinalFacts.finalConfig_pick by exact Hk. apply RereadFacts.or_idem.
    - rewrite Hsame by (simpl; auto 15). rewrite FinalFacts.finalConfig_secure.
      destruct Hc as (_ & _ & _ & _ & _ & _ & _ & _ & _ & _ & [b Hb] & _).
      rewrite FinalFacts.finalConfig_secure in Hb.
      destruct (Value.is_undefined (Value.get d "FTP_SECURE")) eqn:Hu; [reflexivity|].
      rewrite Hu. reflexivity. }
  assert (Hmissing : ConfigFile.missing host d2 = false).
  { rewrite RereadFacts.missing_spec. cbn [existsb]. rewrite !Hsame by (simpl; auto 15).
    destruct Hc as ((sp & -> & _) & (pp & -> & _) & (p & -> & _) & (ak & -> & _)
                    & (m & -> & _) & _ & (fp & -> & _) & _ & _ & (r & -> & _)
                    & (b & ->) & _).
    reflexivity. }
  subst written. rewrite RereadFacts.validate_existing. fold d2.
  rewrite Hmissing, Hfinal. reflexivity.
Qed.

(** X24. Without an FTP host it is not: writeCompleteConfigFile writes the
    FTP block as comments, so the file it wrote is found incomplete at the
    next read (FTP_PORT, FTP_REMOTE_PATH and FTP_SECURE are missing) and is
    written again, at every read; a read fails when that write fails. The
    basic settings are kept, while FTP settings that were configured
    without a host are replaced by the defaults. *)
Theorem file_without_ftp_host_is_rewritten_at_every_read
    (host : Host) (file file1 : option string) (config : gmap string Value.t) :
  ConfigShape.well_behaved host →
  ConfigFile.validateAndFixConfig host file = (inr config, file1) →
  Value.truthy (Value.get config "FTP_HOST") = false →
  let written := Line.join (String Line.LF "") (ConfigFile.completeConfigLines host config) in
  ConfigFile.missing host (ConfigFile.parse host written) = true
  ∧ ∃ config',
      ConfigFile.validateAndFixConfig host (Some written)
      = match write_fault host with
        | Some e => (inl e, Some written)
        | None =>
            (inr config',
             Some (Line.join (String Line.LF "")
                     (ConfigFile.completeConfigLines host config')))
        end
      ∧ (∀ k, In k ["SAVE_PATH"; "PRINT_PATH"; "PORT"; "API_KEY"; "MAX_FILE_SIZE_MB"] →
              Value.get config' k = Value.get config k)
      ∧ (∀ k, In k ["FTP_HOST"; "FTP_PORT"; "FTP_USERNAME"; "FTP_PASSWORD";
                    "FTP_REMOTE_PATH"; "FTP_SECURE"; "FTP_DIRECTORY"] →
              Value.get config' k = ConfigFile.DEFAULT host k).
Proof.
  intros Hhost Hread Hftp written.
  destruct (FinalFacts.validate_final host Hhost _ _ _ Hread) as (d & -> & Hd & _).
  pose proof (FinalFacts.finalConfig_complete host Hhost d Hd) as Hc.
  destruct (FixpointFacts.parse_written host Hhost _ Hc) as [Hbasic Hremote].
  rewrite Hftp in Hremote. fold written in Hbasic, Hremote.
  set (d2 := ConfigFile.parse host written) in *.
  assert (Hmissing : ConfigFile.missing host d2 = true).
  { rewrite RereadFacts.missing_spec. cbn [existsb].
    rewrite (Hremote "FTP_PORT") by (simpl; auto 15).
    cbn [Value.is_undefined]. rewrite !orb_true_r. reflexivity. }
  split; [exact Hmissing|].
  exists (ConfigFile.finalConfig host d2).
  split; [|split].
  - rewrite RereadFacts.validate_existing. fold d2.
    rewrite Hmissing. unfold ConfigFile.writeCompleteConfigFile, ConfigFile.writeFileSync.
    destruct (write_fault host); reflexivity.
  - intros k Hk.
    rewrite !FinalFacts.finalConfig_pick by (simpl in Hk |- *; intuition).
    rewrite (Hbasic k Hk).
    rewrite FinalFacts.finalConfig_pick by (simpl in Hk |- *; intuition).
    apply RereadFacts.or_idem.
  - intros k Hk. simpl in Hk.
    repeat (destruct Hk as [<-|Hk];
            [first [ rewrite FinalFacts.finalConfig_pick by (simpl; auto 15)
                   | rewrite FinalFacts.finalConfig_secure ];
             rewrite Hremote by (simpl; auto 15); reflexivity|]).
    contradiction.
Qed.

Module DefaultFacts.
Import RegExp Text Value Line ConfigFile ConfigShape LineFacts ParseFacts ShapeFacts FinalFacts
  WrittenFacts RoundTripFacts FixpointFacts.

Lemma or_same a : or a a = a.
Proof. unfold or. destruct (truthy a); reflexivity. Qed.

Section Host.
Variable host : Host.
Hypothesis Hhost : well_behaved host.

(** The default file assigns the four basic settings, to their defaults. *)
Lemma parse_default :
  parse host (defaultConfigString host)
  = <["API_KEY" := Str API_KEY]>
      (<["PORT" := Num 5555]>
         (<["PRINT_PATH" := Str (DEFAULT_PRINT_PATH host)]>
            (<["SAVE_PATH" := Str (DEFAULT_SAVE_PATH host)]> ∅))).
Proof.
  destruct Hhost as (Csave & Cprint & _ & _ & Hread).
  pose proof API_KEY_clean as Ckey.
  unfold parse, defaultConfigString.
  change (to_string (DEFAULT host "PORT")) with (pretty 5555).
  rewrite split_join; [|discriminate|].
  2:{ repeat constructor;
        first [ reflexivity
              | apply no_line_feed_quoted; [reflexivity|apply clean_no_line_feed; assumption] ]. }
  repeat read_line Hread. reflexivity.
Qed.

Lemma default_is_incomplete : missing host (parse host (defaultConfigString host)) = true.
Proof.
  rewrite parse_default, RereadFacts.missing_spec. cbn [existsb]. read_key. reflexivity.
Qed.

Lemma default_reads_as_defaults :
  finalConfig host (parse host (defaultConfigString host)) = finalConfig host ∅.
Proof.
  rewrite parse_default. apply finalConfig_ext.
  - intros k Hk. simpl in Hk.
    repeat (destruct Hk as [<-|Hk]; [read_key; try apply or_same; reflexivity|]).
    contradiction.
  - read_key. reflexivity.
Qed.

Lemma defaults k : In k CONFIG_KEYS → get (finalConfig host ∅) k = DEFAULT host k.
Proof.
  intros Hk. simpl in Hk.
  repeat (destruct Hk as [<-|Hk];
          [first [ rewrite finalConfig_pick by (simpl; auto 15)
                 | rewrite finalConfig_secure ];
           rewrite get_empty; reflexivity|]).
  contradiction.
Qed.

End Host.

End DefaultFacts.

(** X25. Resetting the configuration. Without a config.txt the reset fails
    with the error of the unlink and creates no file (the endpoint answers
    500). With one, whatever it held, the file becomes the default file;
    read, that file gives the default for every key, and since it does not
    set MAX_FILE_SIZE_MB (nor the commented FTP settings) the read replaces
    it at once by the complete form. *)
Theorem reset_restores_the_defaults `{RT : Runtime}
    (env : Env) (host : Host) (req : HttpRequest) (state : State) (content : string) :
  ConfigShape.well_behaved host →
  write_fault host = None →
  http_headers req "api-key" = Some AP_KEY →
  method req = "POST" → pathname req = "/config/reset" →
  let defaults := ConfigFile.finalConfig host ∅ in
  handleRequest env host req {| uploads := state; config_file := None |}
  = (Returned (Plain (createErrorResponse ("Failed to reset config: " +:+ unlink_fault host)
                        HTTP_STATUS_SERVER_ERROR)),
     {| uploads := state; config_file := None |}, [])
  ∧ handleRequest env host req {| uploads := state; config_file := Some content |}
    = (Returned (Plain (createSuccessResponse "Config has been reset to default values"
                          None None None)),
       {| uploads := state; config_file := Some (ConfigFile.defaultConfigString host) |}, [])
  ∧ ConfigFile.getCurrentConfig host (Some (ConfigFile.defaultConfigString host))
    = (inr defaults,
       Some (Line.join (String Line.LF "") (ConfigFile.completeConfigLines host defaults)))
  ∧ ∀ k, In k ConfigShape.CONFIG_KEYS → Value.get defaults k = ConfigFile.DEFAULT host k.
Proof.
  intros Hhost Hwrite Hkey Hmethod Hpath defaults.
  assert (Hroute : ∀ server,
            handleRequest env host req server
            = match ConfigFile.resetConfigToDefault host (config_file server) with
              | (inl e, file) =>
                  answer (createErrorResponse ("Failed to reset config: " +:+ e)
                            HTTP_STATUS_SERVER_ERROR)
                    {| uploads := uploads server; config_file := file |}
              | (inr _, file) =>
                  answer (createSuccessResponse "Config has been reset to default values"
                            None None None)
                    {| uploads := uploads server; config_file := file |}
              end).
  { intros server. unfold handleRequest, checkApiKey. rewrite Hkey.
    change (negb (Js.truthy_string (Some AP_KEY))) with false.
    change (default "" (Some AP_KEY)) with AP_KEY.
    rewrite String.eqb_refl. cbn [negb]. cbv zeta. rewrite Hmethod, Hpath. reflexivity. }
  split; [rewrite Hroute; reflexivity|].
  split.
  { rewrite Hroute. unfold ConfigFile.resetConfigToDefault, ConfigFile.createDefaultConfig,
      ConfigFile.writeFileSync. cbn [config_file]. rewrite Hwrite. reflexivity. }
  split; [|apply DefaultFacts.defaults].
  unfold ConfigFile.getCurrentConfig, ConfigFile.parseConfigFile.
  rewrite RereadFacts.validate_existing.
  rewrite (DefaultFacts.default_is_incomplete host Hhost).
  rewrite (DefaultFacts.default_reads_as_defaults host Hhost).
  unfold ConfigFile.writeCompleteConfigFile, ConfigFile.writeFileSync. rewrite Hwrite.
  reflexivity.
Qed.

(** X26. The settings of a parsed configuration need none of the
    fall-backs of the handlers. The size limit is the configured number of
    megabytes times 1048576, and it is the default 50 MB whenever the file
    sets no limit, 0, or something that is not a number (a negative limit
    is taken as it is). And the forwarder finds the FTP configuration
    missing exactly when the host, the user or the password is not set:
    the port never is the reason, it has a default. *)
Theorem parsed_settings_need_no_fallback
    (host : Host) (file file1 : option string) (config : gmap string Value.t) :
  ConfigShape.well_behaved host →
  ConfigFile.validateAndFixConfig host file = (inr config, file1) →
  let configs := ConfigFile.settings config in
  let configData :=
    match file with
    | Some content => ConfigFile.parse host content
    | None => ∅
    end in
  (∃ n, n ≠ 0
        ∧ Config.MAX_FILE_SIZE_MB configs = Some n
        ∧ maxSize configs = n * 1024 * 1024
        ∧ (Value.truthy (Value.get configData "MAX_FILE_SIZE_MB") = false →
           n = MAX_FILE_SIZE_MB)
        ∧ (Value.truthy (Value.get configData "MAX_FILE_SIZE_MB") = true →
           Value.get configData "MAX_FILE_SIZE_MB" = Value.Num n))
  ∧ Forwarder.missing_configuration configs
    = negb (Value.truthy (Value.get config "FTP_HOST"))
      || negb (Value.truthy (Value.get config "FTP_USERNAME"))
      || negb (Value.truthy (Value.get config "FTP_PASSWORD"))
  ∧ Js.or_string (Config.FTP_REMOTE_PATH configs) "/"
    = Value.to_string (Value.get config "FTP_REMOTE_PATH").
Proof.
  intros Hhost Hread configs configData.
  destruct (FinalFacts.validate_final host Hhost _ _ _ Hread) as (d & -> & Hd & Hfile).
  fold configData in Hfile. subst d.
  pose proof (FinalFacts.finalConfig_complete host Hhost configData Hd)
    as (_ & _ & _ & _ & (m & Hm & Hm0) & Hh & (fp & Hfp & Hfp0) & Hu & Hpw
        & (r & Hr & Cr) & _ & _).
  split; [|split].
  - exists m. split; [exact Hm0|].
    assert (Hlimit : Config.MAX_FILE_SIZE_MB configs = Some m).
    { subst configs. unfold ConfigFile.settings. cbn [Config.MAX_FILE_SIZE_MB].
      rewrite Hm. reflexivity. }
    split; [exact Hlimit|].
    split.
    { unfold maxSize. rewrite Hlimit. unfold Js.or_number.
      destruct (Z.eqb_spec m 0); [contradiction|reflexivity]. }
    rewrite FinalFacts.finalConfig_pick in Hm by (simpl; auto 15).
    unfold Value.or in Hm. split.
    + intros Hf. rewrite Hf in Hm. injection Hm as <-. reflexivity.
    + intros Ht. rewrite Ht in Hm. exact Hm.
  - subst configs. unfold Forwarder.missing_configuration, ConfigFile.settings.
    cbn [Config.FTP_HOST Config.FTP_PORT Config.FTP_USERNAME Config.FTP_PASSWORD].
    rewrite Hfp. cbn [ConfigFile.number_of Js.truthy_number].
    destruct (Z.eqb_spec fp 0); [contradiction|]. cbn [negb orb].
    assert (Htext : ∀ v, ConfigShape.optional_text v →
                         Js.truthy_string (ConfigFile.string_of v) = Value.truthy v).
    { intros v [->|(s & -> & _)]; reflexivity. }
    rewrite !Htext by assumption. rewrite orb_false_r. reflexivity.
  - subst configs. unfold ConfigFile.settings. cbn [Config.FTP_REMOTE_PATH].
    rewrite Hr. cbn [ConfigFile.string_of Js.or_string Value.to_string].
    destruct Cr as (Hne & _). destruct (String.eqb_spec r ""); [contradiction|reflexivity].
Qed.

(** ** What an update keeps *)

Module UpdatedFacts.
Import RegExp Text Value Line ConfigFile ConfigShape LineFacts ParseFacts ShapeFacts FinalFacts
  WrittenFacts RoundTripFacts FixpointFacts.

Lemma complete_insert c key value :
  complete c → In key CONFIG_KEYS → fits key value → complete (<[key := value]> c).
Proof.
  intros (H1 & H2 & H3 & H4 & H5 & H6 & H7 & H8 & H9 & H10 & H11 & H12) Hk Hfit.
  unfold fits in Hfit. simpl in Hk.
  repeat (destruct Hk as [<-|Hk];
          [ simpl in Hfit; unfold complete; read_key;
            repeat (split; [first [assumption | right; assumption]|]);
            first [assumption | right; assumption] |]).
  contradiction.
Qed.

Section Host.
Variable host : Host.
Hypothesis Hhost : well_behaved host.

(** A complete configuration needs no default. *)
Lemma or_stable c k :
  complete c →
  In k ["SAVE_PATH"; "PRINT_PATH"; "PORT"; "API_KEY"; "MAX_FILE_SIZE_MB"; "FTP_HOST";
        "FTP_PORT"; "FTP_USERNAME"; "FTP_PASSWORD"; "FTP_REMOTE_PATH"; "FTP_DIRECTORY"] →
  or (get c k) (DEFAULT host k) = get c k.
Proof.
  assert (Htext : ∀ v w, text v → or v w = v).
  { intros v w (s & -> & Hs). unfold or. rewrite (truthy_text s Hs). reflexivity. }
  assert (Hnumber : ∀ v w, number v → or v w = v).
  { intros v w (n & -> & Hn). unfold or. simpl. destruct (Z.eqb_spec n 0); [lia|reflexivity]. }
  assert (Hoptional : ∀ v, optional_text v → or v Undefined = v).
  { intros v [->|Hv]; [reflexivity|apply Htext, Hv]. }
  intros (H1 & H2 & H3 & H4 & H5 & H6 & H7 & H8 & H9 & H10 & H11 & H12) Hk. simpl in Hk.
  repeat (destruct Hk as [<-|Hk]; [auto|]). contradiction.
Qed.

(** The file that updateConfigValue writes, parsed. *)
Lemma parse_updated c :
  complete c →
  let d := parse host (join (String LF "") (updatedConfigLines c) +:+ String LF "") in
  (∀ k, In k ["SAVE_PATH"; "PORT"; "API_KEY"] → get d k = get c k)
  ∧ (∀ k, In k ["PRINT_PATH"; "MAX_FILE_SIZE_MB"] → get d k = Undefined)
  ∧ (∀ k, In k ["FTP_HOST"; "FTP_PORT"; "FTP_USERNAME"; "FTP_PASSWORD"; "FTP_REMOTE_PATH";
                "FTP_SECURE"; "FTP_DIRECTORY"] →
          get d k = if truthy (get c "FTP_HOST") then get c k else Undefined).
Proof.
  destruct Hhost as (_ & _ & _ & _ & Hread).
  intros ((sp & Hsp & Csp) & _ & (p & Hp & _) & (ak & Hak & Cak)
          & _ & Hh & (fp & Hfp & _) & Hu & Hpw & (r & Hr & Cr) & (b & Hb) & Hdir).
  intros d. subst d. unfold parse.
  rewrite <- join_snoc by apply UpdateFacts.updatedConfigLines_nonempty.
  unfold updatedConfigLines. cbv zeta.
  rewrite Hsp, Hp, Hak, Hfp, Hr, Hb.
  destruct Hh as [Hh|(h & Hh & Ch)]; rewrite Hh;
    [change (truthy Undefined) with false | rewrite (truthy_text h Ch)].
  - cbn [to_string app].
    rewrite split_join; [|discriminate|].
    2:{ repeat constructor;
          first [ reflexivity
                | apply no_line_feed_quoted; [reflexivity|apply clean_no_line_feed; assumption]
                | apply no_line_feed_bare; [reflexivity|apply pretty_no_line_feed] ]. }
    repeat read_line Hread. cbn [fold_left].
    repeat split; intros k Hk; simpl in Hk;
      repeat (destruct Hk as [<-|Hk]; [read_key; congruence|]); contradiction.
  - destruct Hu as [Hu|(u & Hu & Cu)]; rewrite Hu;
      [change (truthy Undefined) with false | rewrite (truthy_text u Cu)].
    all: destruct Hpw as [Hpw|(pw & Hpw & Cpw)]; rewrite Hpw;
      [change (truthy Undefined) with false | rewrite (truthy_text pw Cpw)].
    all: destruct Hdir as [Hdir|(dir & Hdir & Cdir)]; rewrite Hdir;
      [change (truthy Undefined) with false | rewrite (truthy_text dir Cdir)].
    all: set (secure := to_string (Bool b)); cbn [to_string app]; subst secure.
    all: rewrite split_join; [|discriminate|].
    all: try solve
      [ repeat constructor;
          first [ reflexivity
                | apply no_line_feed_quoted; [reflexivity|apply clean_no_line_feed; assumption]
                | apply no_line_feed_bare; [reflexivity|apply pretty_no_line_feed]
                | apply no_line_feed_bare; [reflexivity|apply clean_no_line_feed; assumption]
                | apply no_line_feed_bare; [reflexivity|destruct b; reflexivity] ] ].
    all: repeat read_line Hread; cbn [fold_left].
    all: repeat split; intros k Hk; simpl in Hk;
      repeat (destruct Hk as [<-|Hk]; [read_key; congruence|]); contradiction.
Qed.

End Host.

End UpdatedFacts.

(** X27. An update of a key that updateConfigValue writes, to a value of
    the key's shape, takes effect: the next read of the configuration
    returns the new value and keeps SAVE_PATH, PORT and API_KEY. The FTP
    settings are kept when an FTP host is configured after the update;
    without one they are all back at their defaults, so that an update of
    an FTP setting other than the host is lost as long as no host is set. *)
Theorem update_takes_effect
    (host : Host) (file file1 : option string) (config : gmap string Value.t)
    (key : string) (value : Value.t) :
  ConfigShape.well_behaved host →
  write_fault host = None →
  ConfigFile.getCurrentConfig host file = (inr config, file1) →
  In key ConfigShape.UPDATED_KEYS →
  ConfigShape.fits key value →
  let updated := <[key := value]> config in
  ∃ file2 config' file3,
    ConfigFile.updateConfigValue host key value file = (true, file2)
    ∧ ConfigFile.getCurrentConfig host file2 = (inr config', file3)
    ∧ (∀ k, In k ["SAVE_PATH"; "PORT"; "API_KEY"] →
            Value.get config' k = Value.get updated k)
    ∧ (∀ k, In k ["FTP_HOST"; "FTP_PORT"; "FTP_USERNAME"; "FTP_PASSWORD"; "FTP_REMOTE_PATH";
                  "FTP_SECURE"; "FTP_DIRECTORY"] →
            Value.get config' k
            = if Value.truthy (Value.get updated "FTP_HOST") then Value.get updated k
              else ConfigFile.DEFAULT host k).
Proof.
  intros Hhost Hfault Hcurrent Hkey Hfit updated.
  assert (Hc : ConfigShape.complete updated).
  { apply UpdatedFacts.complete_insert; [|simpl in Hkey |- *; intuition|exact Hfit].
    exact (FinalFacts.validate_complete host Hhost _ _ _ Hcurrent). }
  destruct (UpdatedFacts.parse_updated host Hhost updated Hc) as (Hbasic & Hlost & Hremote).
  set (content := Line.join (String Line.LF "") (ConfigFile.updatedConfigLines updated)
                  +:+ String Line.LF "") in *.
  set (d := ConfigFile.parse host content) in *.
  exists (Some content), (ConfigFile.finalConfig host d),
    (Some (Line.join (String Line.LF "")
             (ConfigFile.completeConfigLines host (ConfigFile.finalConfig host d)))).
  split.
  { unfold ConfigFile.updateConfigValue. rewrite Hcurrent. cbv zeta.
    unfold ConfigFile.writeFileSync. rewrite Hfault. reflexivity. }
  split.
  { unfold ConfigFile.getCurrentConfig, ConfigFile.parseConfigFile.
    rewrite RereadFacts.validate_existing. fold d.
    rewrite RereadFacts.missing_spec. cbn [existsb].
    rewrite (Hlost "MAX_FILE_SIZE_MB") by (simpl; auto).
    cbn [Value.is_undefined]. rewrite !orb_true_r. cbn [orb].
    unfold ConfigFile.writeCompleteConfigFile, ConfigFile.writeFileSync. rewrite Hfault.
    reflexivity. }
  split.
  - intros k Hk. rewrite FinalFacts.finalConfig_pick by (simpl in Hk |- *; intuition).
    rewrite Hbasic by exact Hk.
    apply UpdatedFacts.or_stable; [exact Hc|simpl in Hk |- *; intuition].
  - intros k Hk. destruct (String.eqb_spec k "FTP_SECURE") as [->|Hne].
    + rewrite FinalFacts.finalConfig_secure, Hremote by exact Hk.
      destruct Hc as (_ & _ & _ & _ & _ & _ & _ & _ & _ & _ & [b Hb] & _).
      rewrite Hb. destruct (Value.truthy (Value.get updated "FTP_HOST")); reflexivity.
    + rewrite FinalFacts.finalConfig_pick by (simpl in Hk |- *; intuition congruence).
      rewrite Hremote by exact Hk.
      destruct (Value.truthy (Value.get updated "FTP_HOST")).
      * apply UpdatedFacts.or_stable; [exact Hc|simpl in Hk |- *; intuition congruence].
      * reflexivity.
Qed.

(** ** The sample host *)

Module SampleFacts.
Import Value ConfigSample.

Lemma digit_value d :
  (d < 10)%N →
  let c := pretty_N_char d in
  ((48 <=? N_of_ascii c) && (N_of_ascii c <=? 57))%N = true
  ∧ (N_of_ascii c - 48)%N = d.
Proof.
  intros Hd.
  assert (d = 0 ∨ d = 1 ∨ d = 2 ∨ d = 3 ∨ d = 4 ∨ d = 5 ∨ d = 6 ∨ d = 7 ∨ d = 8
          ∨ d = 9)%N as Hcases by lia.
  repeat (destruct Hcases as [->|Hcases]; [split; reflexivity|]).
  subst d. split; reflexivity.
Qed.

(** The digits that [pretty] writes in front of [s] are read back. *)
Lemma digits_pretty x :
  ∃ k, ∀ acc s, digits acc (pretty_N_go x s) = digits (acc * k + Z.of_N x) s.
Proof.
  induction (N.lt_wf_0 x) as [x _ IH].
  assert (x = 0 ∨ 0 < x)%N as [->|Hx] by lia.
  { exists 1. intros acc s. rewrite pretty_N_go_0. f_equal. lia. }
  destruct (IH (x `div` 10)%N) as [k Hk]; [apply N.div_lt; lia|].
  exists (10 * k). intros acc s. rewrite pretty_N_go_step by exact Hx. rewrite Hk.
  destruct (digit_value (x `mod` 10)%N) as [Hdigit Hvalue]; [apply N.mod_lt; lia|].
  cbn [digits]. cbv zeta. rewrite Hdigit, Hvalue. f_equal.
  pose proof (N.div_mod x 10) as Hdm. lia.
Qed.

Lemma digits_positive p : digits 0 (pretty (Npos p)) = Some (Zpos p).
Proof.
  unfold pretty, pretty_N. destruct (decide (N.pos p = 0%N)); [discriminate|].
  destruct (digits_pretty (N.pos p)) as [k Hk]. rewrite Hk. reflexivity.
Qed.

Lemma pretty_positive_head p :
  ∃ c s, pretty (Npos p) = String c s ∧ c ≠ "-"%char.
Proof.
  unfold pretty, pretty_N. destruct (decide (N.pos p = 0%N)); [discriminate|].
  destruct (pretty_N_go (N.pos p) "") as [|c s] eqn:Hp.
  - exfalso. rewrite pretty_N_go_step in Hp by lia.
    revert Hp. apply LineFacts.pretty_N_go_nonempty. discriminate.
  - exists c, s. split; [reflexivity|]. intros ->.
    apply (pretty_N_go_ne_dash (N.pos p) "" s); [discriminate|exact Hp].
Qed.

Lemma number_pretty (n : Z) : number (pretty n) = Num n.
Proof.
  destruct n as [|p|p].
  - reflexivity.
  - change (pretty (Z.pos p)) with (pretty (N.pos p)).
    pose proof (digits_positive p) as Hd.
    destruct (pretty_positive_head p) as (c & s & Hs & Hc). rewrite Hs in Hd |- *.
    unfold number. rewrite Hd.
    destruct (Ascii.eqb_spec c "-"); [contradiction|].
    destruct c as [[] [] [] [] [] [] [] []]; try reflexivity; contradiction.
  - change (pretty (Z.neg p)) with (String "-" (pretty (N.pos p))).
    pose proof (digits_positive p) as Hd.
    destruct (pretty_positive_head p) as (c & s & Hs & Hc). rewrite Hs in Hd |- *.
    unfold number. rewrite Hd. reflexivity.
Qed.

Lemma number_numeric s : ConfigShape.numeric (number s).
Proof.
  unfold number, ConfigShape.numeric.
  repeat case_match; eauto.
Qed.

Lemma host_well_behaved fault : ConfigShape.well_behaved (host fault).
Proof.
  split; [split; [discriminate|split; reflexivity]|].
  split; [split; [discriminate|split; reflexivity]|].
  split; [reflexivity|].
  split; [apply number_numeric|apply number_pretty].
Qed.

Lemma full_log_length : Z.of_nat (length full_log) = 10485760.
Proof. unfold full_log. rewrite repeat_length, Z2Nat.id by lia. reflexivity. Qed.

End SampleFacts.

(** ** The further properties on the samples *)

(** A full log alone: it becomes the first backup and the log starts anew. *)
Lemma rotation_shifts_the_backups_witness :
  let files' := ErrorLog.rotateLogFile "error.log" {["error.log" := ConfigSample.full_log]} in
  files' !! "error.log" = Some [] ∧ files' !! "error.log.1" = Some ConfigSample.full_log.
Proof.
  destruct (rotation_shifts_the_backups "error.log"
              {["error.log" := ConfigSample.full_log]} ConfigSample.full_log)
    as (Hlog & Hfirst & _).
  - apply lookup_singleton_eq.
  - rewrite SampleFacts.full_log_length. unfold MAX_LOG_SIZE_BYTES. lia.
  - split; [exact Hlog|exact Hfirst].
Defined.

(** The first entry of a log that did not exist. *)
Lemma log_entry_is_appended_witness :
  ErrorLog.logErrorToFile "error.log" "2025-12-22T22:00:00.000Z" "disk full" ∅ !! "error.log"
  = Some (ErrorLog.utf8 (ErrorLog.errorMessage "2025-12-22T22:00:00.000Z" "disk full")).
Proof.
  exact (proj1 (log_entry_is_appended "error.log" "2025-12-22T22:00:00.000Z" "disk full" ∅)).
Defined.

(** A guessed key is turned away before the upload is looked at. *)
Lemma request_without_the_key_is_rejected_witness :
  handleRequest (Sample.env Sample.no_ftp []) (ConfigSample.host None)
    (ConfigSample.request "POST" "/upload_image" (Some "guess") (inl "not read"))
    {| uploads := Sample.idle; config_file := None |}
  = (Returned (Plain (createErrorResponse "Unauthorized" HTTP_STATUS_UNAUTHORIZED)),
     {| uploads := Sample.idle; config_file := None |}, []).
Proof.
  apply (request_without_the_key_is_rejected (Sample.env Sample.no_ftp [])
           (ConfigSample.host None)
           (ConfigSample.request "POST" "/upload_image" (Some "guess") (inl "not read"))).
  simpl. discriminate.
Defined.

(** A GET of an upload path is not a route. *)
Lemma unknown_route_is_not_found_witness :
  handleRequest (Sample.env Sample.no_ftp []) (ConfigSample.host None)
    (ConfigSample.request "GET" "/upload_image" (Some AP_KEY) (inl "not read"))
    {| uploads := Sample.idle; config_file := None |}
  = (Returned (Plain (createErrorResponse
                        "CANNOT GET: The requested resource was not found"
                        HTTP_STATUS_NOT_FOUND)),
     {| uploads := Sample.idle; config_file := None |}, []).
Proof.
  apply (unknown_route_is_not_found (Sample.env Sample.no_ftp []) (ConfigSample.host None)
           (ConfigSample.request "GET" "/upload_image" (Some AP_KEY) (inl "not read"))).
  - reflexivity.
  - simpl. intros H. repeat (destruct H as [H|H]; [discriminate H|]). exact H.
Defined.

(** Reading the configuration leaves the uploads alone. *)
Lemma routes_keep_to_their_state_witness :
  ∃ o server' t,
    handleRequest (Sample.env Sample.no_ftp []) (ConfigSample.host None)
      (ConfigSample.request "GET" "/config" (Some AP_KEY) (inl "not read"))
      {| uploads := Sample.idle; config_file := Some ConfigSample.file_with_ftp |}
    = (o, server', t)
    ∧ uploads server' = Sample.idle ∧ t = [].
Proof.
  destruct (handleRequest (Sample.env Sample.no_ftp []) (ConfigSample.host None)
              (ConfigSample.request "GET" "/config" (Some AP_KEY) (inl "not read"))
              {| uploads := Sample.idle; config_file := Some ConfigSample.file_with_ftp |})
    as [[o server'] t] eqn:Hrun.
  destruct (routes_keep_to_their_state _ _ _ _ _ _ _ Hrun) as (Huploads & _ & _).
  exists o, server', t. split; [reflexivity|]. apply Huploads.
  simpl. intros H. repeat (destruct H as [H|H]; [discriminate H|]). exact H.
Defined.

(** A comment between two assignments. *)
Lemma skipped_lines_do_not_count_witness :
  ConfigFile.parse (ConfigSample.host None)
    ("PORT=8080" +:+ String Line.LF ("# the key" +:+ String Line.LF "API_KEY=k"))
  = ConfigFile.parse (ConfigSample.host None) ("PORT=8080" +:+ String Line.LF "API_KEY=k").
Proof.
  apply (skipped_lines_do_not_count (ConfigSample.host None) "PORT=8080" "# the key" "API_KEY=k").
  - reflexivity.
  - right. left. reflexivity.
Defined.

(** The padding of a base64 key is lost. *)
Lemma value_is_cut_at_the_second_equals_sign_witness :
  ConfigFile.parse_line (ConfigSample.host None) ∅ "API_KEY=c2VjcmV0="
  = <["API_KEY" := Value.Str "c2VjcmV0"]> ∅.
Proof.
  destruct (value_is_cut_at_the_second_equals_sign (ConfigSample.host None) ∅
              "API_KEY" "c2VjcmV0" "") as [Hcut Hline].
  - split; [discriminate|]. split; [reflexivity|]. split; reflexivity.
  - discriminate.
  - reflexivity.
  - reflexivity.
  - etransitivity; [exact Hcut|]. etransitivity; [exact Hline|]. reflexivity.
Defined.

(** An update of the size limit to 100 MB reads back as 50 MB. *)
Lemma update_forgets_print_path_and_size_limit_witness :
  ∃ file2 config file3,
    ConfigFile.updateConfigValue (ConfigSample.host None) "MAX_FILE_SIZE_MB" (Value.Num 100) None
    = (true, file2)
    ∧ ConfigFile.getCurrentConfig (ConfigSample.host None) file2 = (inr config, file3)
    ∧ Value.get config "MAX_FILE_SIZE_MB" = Value.Num 50.
Proof.
  set (updated := ConfigFile.updateConfigValue (ConfigSample.host None) "MAX_FILE_SIZE_MB"
                    (Value.Num 100) None).
  assert (Hupdate : updated = (true, updated.2)) by (vm_compute; reflexivity).
  set (read := ConfigFile.getCurrentConfig (ConfigSample.host None) updated.2).
  assert (Hget : read = (inr match read.1 with inr c => c | inl _ => ∅ end, read.2))
    by (vm_compute; reflexivity).
  destruct (update_forgets_print_path_and_size_limit (ConfigSample.host None) None updated.2
              "MAX_FILE_SIZE_MB" (Value.Num 100) (SampleFacts.host_well_behaved None)
              eq_refl Hupdate) as (content & _ & _ & _ & Hread).
  destruct (Hread _ _ Hget) as [_ Hlimit].
  eexists _, _, _. split; [exact Hupdate|]. split; [exact Hget|exact Hlimit].
Defined.

(** The sample file with an FTP host: completed once, then stable. *)
Lemma complete_file_is_read_back_witness :
  ∃ config file1,
    ConfigFile.validateAndFixConfig (ConfigSample.host None) (Some ConfigSample.file_with_ftp)
    = (inr config, file1)
    ∧ Value.get config "FTP_HOST" = Value.Str "ftp.example.com"
    ∧ let written :=
        Some (Line.join (String Line.LF "")
                (ConfigFile.completeConfigLines (ConfigSample.host None) config)) in
      ConfigFile.validateAndFixConfig (ConfigSample.host None) written = (inr config, written).
Proof.
  set (read := ConfigFile.validateAndFixConfig (ConfigSample.host None)
                 (Some ConfigSample.file_with_ftp)).
  assert (Hread : read = (inr match read.1 with inr c => c | inl _ => ∅ end, read.2))
    by (vm_compute; reflexivity).
  set (config := match read.1 with inr c => c | inl _ => ∅ end) in Hread.
  assert (Hhost : Value.get config "FTP_HOST" = Value.Str "ftp.example.com")
    by (vm_compute; reflexivity).
  exists config, read.2. split; [exact Hread|]. split; [exact Hhost|].
  apply (complete_file_is_read_back (ConfigSample.host None) _ _ _
           (SampleFacts.host_well_behaved None) Hread).
  rewrite Hhost. reflexivity.
Defined.

(** The sample file without an FTP host: its FTP port and user are lost. *)
Lemma file_without_ftp_host_is_rewritten_at_every_read_witness :
  ∃ config file1 config',
    ConfigFile.validateAndFixConfig (ConfigSample.host None)
      (Some ConfigSample.file_without_host)
    = (inr config, file1)
    ∧ Value.get config "FTP_PORT" = Value.Num 2121
    ∧ ConfigFile.validateAndFixConfig (ConfigSample.host None)
        (Some (Line.join (String Line.LF "")
                 (ConfigFile.completeConfigLines (ConfigSample.host None) config)))
      = (inr config',
         Some (Line.join (String Line.LF "")
                 (ConfigFile.completeConfigLines (ConfigSample.host None) config')))
    ∧ Value.get config' "FTP_PORT" = Value.Num 21
    ∧ Value.get config' "PRINT_PATH" = Value.Str "/srv/print".
Proof.
  set (read := ConfigFile.validateAndFixConfig (ConfigSample.host None)
                 (Some ConfigSample.file_without_host)).
  assert (Hread : read = (inr match read.1 with inr c => c | inl _ => ∅ end, read.2))
    by (vm_compute; reflexivity).
  set (config := match read.1 with inr c => c | inl _ => ∅ end) in Hread.
  assert (Hhost : Value.get config "FTP_HOST" = Value.Undefined) by (vm_compute; reflexivity).
  assert (Hport : Value.get config "FTP_PORT" = Value.Num 2121) by (vm_compute; reflexivity).
  assert (Hprint : Value.get config "PRINT_PATH" = Value.Str "/srv/print")
    by (vm_compute; reflexivity).
  destruct (file_without_ftp_host_is_rewritten_at_every_read (ConfigSample.host None) _ _ _
              (SampleFacts.host_well_behaved None) Hread) as (_ & config' & Hagain & Hkept & Hftp).
  { rewrite Hhost. reflexivity. }
  exists config, read.2, config'. split; [exact Hread|]. split; [exact Hport|].
  split; [exact Hagain|]. split.
  - rewrite Hftp by (simpl; auto). reflexivity.
  - rewrite Hkept by (simpl; auto). exact Hprint.
Defined.

(** A reset of a file that set the port only. *)
Lemma reset_restores_the_defaults_witness :
  handleRequest (Sample.env Sample.no_ftp []) (ConfigSample.host None)
    (ConfigSample.request "POST" "/config/reset" (Some AP_KEY) (inl "not read"))
    {| uploads := Sample.idle; config_file := Some "PORT=8080" |}
  = (Returned (Plain (createSuccessResponse "Config has been reset to default values"
                        None None None)),
     {| uploads := Sample.idle;
        config_file := Some (ConfigFile.defaultConfigString (ConfigSample.host None)) |}, []).
Proof.
  apply (reset_restores_the_defaults (Sample.env Sample.no_ftp []) (ConfigSample.host None)
           (ConfigSample.request "POST" "/config/reset" (Some AP_KEY) (inl "not read"))
           Sample.idle "PORT=8080" (SampleFacts.host_well_behaved None));
    reflexivity.
Defined.

(** The sample file sets 20 MB. *)
Lemma parsed_settings_need_no_fallback_witness :
  ∃ config file1,
    ConfigFile.validateAndFixConfig (ConfigSample.host None) (Some ConfigSample.file_with_ftp)
    = (inr config, file1)
    ∧ maxSize (ConfigFile.settings config) = 20 * 1024 * 1024
    ∧ Forwarder.missing_configuration (ConfigFile.settings config) = false.
Proof.
  set (read := ConfigFile.validateAndFixConfig (ConfigSample.host None)
                 (Some ConfigSample.file_with_ftp)).
  assert (Hread : read = (inr match read.1 with inr c => c | inl _ => ∅ end, read.2))
    by (vm_compute; reflexivity).
  set (config := match read.1 with inr c => c | inl _ => ∅ end) in Hread.
  destruct (parsed_settings_need_no_fallback (ConfigSample.host None) _ _ _
              (SampleFacts.host_well_behaved None) Hread)
    as ((n & _ & _ & Hsize & _ & Hset) & Hmissing & _).
  assert (Hlimit : Value.get (ConfigFile.parse (ConfigSample.host None)
                                ConfigSample.file_with_ftp) "MAX_FILE_SIZE_MB"
                   = Value.Num 20) by (vm_compute; reflexivity).
  rewrite Hlimit in Hset. specialize (Hset eq_refl). injection Hset as <-.
  exists config, read.2. split; [exact Hread|]. split; [exact Hsize|].
  rewrite Hmissing. vm_compute. reflexivity.
Defined.

(** The port of the sample file is set to 9000; the FTP host is kept. *)
Lemma update_takes_effect_witness :
  ∃ file2 config' file3,
    ConfigFile.updateConfigValue (ConfigSample.host None) "PORT" (Value.Num 9000)
      (Some ConfigSample.file_with_ftp) = (true, file2)
    ∧ ConfigFile.getCurrentConfig (ConfigSample.host None) file2 = (inr config', file3)
    ∧ Value.get config' "PORT" = Value.Num 9000
    ∧ Value.get config' "FTP_HOST" = Value.Str "ftp.example.com".
Proof.
  set (read := ConfigFile.getCurrentConfig (ConfigSample.host None)
                 (Some ConfigSample.file_with_ftp)).
  assert (Hread : read = (inr match read.1 with inr c => c | inl _ => ∅ end, read.2))
    by (vm_compute; reflexivity).
  set (config := match read.1 with inr c => c | inl _ => ∅ end) in Hread.
  assert (Hhost : Value.get config "FTP_HOST" = Value.Str "ftp.example.com")
    by (vm_compute; reflexivity).
  destruct (update_takes_effect (ConfigSample.host None) _ _ _ "PORT" (Value.Num 9000)
              (SampleFacts.host_well_behaved None) eq_refl Hread)
    as (file2 & config' & file3 & Hupdate & Hnext & Hbasic & Hremote).
  { simpl. auto. }
  { exists 9000. split; [reflexivity|discriminate]. }
  exists file2, config', file3. split; [exact Hupdate|]. split; [exact Hnext|]. split.
  - rewrite Hbasic by (simpl; auto). apply ShapeFacts.get_insert_eq.
  - rewrite Hremote by (simpl; auto).
    rewrite !ShapeFacts.get_insert_ne by discriminate. rewrite Hhost. reflexivity.
Defined.

(** A remote-only upload whose connection fails: the error is logged, and
    a file stored earlier is as before when the request is over. *)
Lemma remote_only_upload_stores_nothing_witness :
  let s := {| fs_dirs := fs_dirs Sample.idle;
              fs_files := {[ "/srv/SAVE_IMAGES/old.png" := [x01%byte] ]};
              ftpPool := Pool.empty; error_log := [] |} in
  ∃ o s' t,
    uploadImageToFtp (Sample.env Sample.with_ftp [Error "connect ECONNREFUSED"])
      (Sample.png None None None) s = (o, s', t)
    ∧ error_log s' = ["connect ECONNREFUSED"]
    ∧ fs_dirs s' = fs_dirs Sample.idle
    ∧ files_after "/srv/error.log" (λ _, "2025-12-22T22:00:00.000Z") (λ e, e) s s'
      !! "/srv/SAVE_IMAGES/old.png" = Some [x01%byte].
Proof.
  intros s.
  destruct (uploadImageToFtp (Sample.env Sample.with_ftp [Error "connect ECONNREFUSED"])
              (Sample.png None None None) s) as [[o s'] t] eqn:Hrun.
  destruct (remote_only_upload_stores_nothing _ "/srv/error.log"
              (λ _, "2025-12-22T22:00:00.000Z") (λ e, e) _ _ _ _ _ Hrun)
    as (Hd & Hf & _ & _ & Hother & _).
  assert (Hlog : error_log s' = ["connect ECONNREFUSED"]).
  { pose proof (f_equal (λ r, error_log (snd (fst r))) Hrun) as H.
    vm_compute in H. symmetry. exact H. }
  exists o, s', t. split; [reflexivity|]. split; [exact Hlog|]. split; [exact Hd|].
  rewrite Hother; [reflexivity|discriminate|].
  intros k _ H. unfold ErrorLog.backup in H. discriminate H.
Defined.

(** A file stored earlier is still there after the sample upload. *)
Lemma upload_leaves_other_files_alone_witness :
  let s := {| fs_dirs := fs_dirs Sample.idle;
              fs_files := {[ "/srv/SAVE_IMAGES/old.png" := [x01%byte] ]};
              ftpPool := Pool.empty; error_log := [] |} in
  ∃ o s' t,
    uploadImage (Sample.env Sample.no_ftp []) (Sample.png None None None)
      "/srv/SAVE_IMAGES" "/srv/PRINT_IMAGES" s = (o, s', t)
    ∧ fs_files s' !! "/srv/SAVE_IMAGES/old.png" = Some [x01%byte]
    ∧ files_after "/srv/error.log" (λ _, "2025-12-22T22:00:00.000Z") (λ e, e) s s'
      !! "/srv/SAVE_IMAGES/old.png" = Some [x01%byte].
Proof.
  intros s.
  destruct (upload_leaves_other_files_alone (Sample.env Sample.no_ftp []) "/srv/error.log"
              (λ _, "2025-12-22T22:00:00.000Z") (λ e, e)) as [Hinline _].
  destruct (uploadImage (Sample.env Sample.no_ftp []) (Sample.png None None None)
              "/srv/SAVE_IMAGES" "/srv/PRINT_IMAGES" s)
    as [[o s'] t] eqn:Hrun.
  destruct (Hinline _ _ _ _ _ _ _ Hrun) as (_ & Hother & _ & _ & Hdisk & _).
  known_calls Hrun.
  assert (Hnot : ∀ data,
            ¬ In (WriteFile "/srv/SAVE_IMAGES/old.png" data)
                [WriteFile "/srv/SAVE_IMAGES/test-22_Dec_2025-22_0_0.png"
                   [x89; x50; x4e; x47; x0d; x0a; x1a; x0a]%byte]).
  { intros data Hin. trace_in Hin. }
  eexists o, s', _. split; [reflexivity|]. split.
  - rewrite Hother; [reflexivity|exact Hnot].
  - rewrite Hdisk; [reflexivity|exact Hnot|discriminate|].
    intros k _ H. unfold ErrorLog.backup in H. discriminate H.
Defined.
